(** * The text-to-speech cache of PersonalAI ([tts.py])

    A shallow embedding of the module [tts.py]: the hash-named cache of MP3
    files in the directory [tts_cache], the speech backend (gTTS) it calls
    on a miss, and the two housekeeping operations [clear_cache] and
    [get_cache_stats].

    Python values are modelled as follows.
    - A [str] holding text is a list of Unicode code points ([pystr]);
      [str.strip] and [str.encode('utf-8')] are written out on it.
    - [bytes] are lists of [Byte.byte].
    - Paths and file names are [string]s (byte strings, as on a POSIX file
      system); the names the module builds are ASCII.
    - The file system is reduced to what the module can see: whether the
      working directory lets [tts_cache] be created, and the directory
      itself, a finite map from entry names to nodes.
    - Effects are threaded through a state-and-exception monad over a
      [world]: the disk and the chronological trace of the primitive
      operations performed (file system calls, digest computations, uses
      of the backend, printed messages).

    What the model leaves out: [tts_cache], when it exists, is a
    directory that may be searched; regular files may be read and
    truncated; nothing else touches the disk while an operation runs. *)

From Stdlib Require Import ZArith NArith Strings.Byte Ascii String Lia.
From stdpp Require Import base option list gmap strings fin_maps.
From stdpp Require Import sorting.

Local Open Scope Z_scope.

(** ** Python strings *)

Definition codepoint := N.
Definition pystr := list codepoint.
Definition bytes := list Byte.byte.

(** An ASCII (Latin-1) literal as a Python string. *)
Definition pystr_of_string (s : string) : pystr :=
  map (fun a => N_of_ascii a) (list_ascii_of_string s).

(** [str.isspace] on one character: the code points CPython's
    [_PyUnicode_IsWhitespace] accepts. *)
Definition is_space (c : codepoint) : bool :=
  ((0x9 <=? c) && (c <=? 0xD) ||
   (0x1C <=? c) && (c <=? 0x20) ||
   (c =? 0x85) || (c =? 0xA0) || (c =? 0x1680) ||
   (0x2000 <=? c) && (c <=? 0x200A) ||
   (c =? 0x2028) || (c =? 0x2029) || (c =? 0x202F) ||
   (c =? 0x205F) || (c =? 0x3000))%N.

Fixpoint lstrip (s : pystr) : pystr :=
  match s with
  | c :: s' => if is_space c then lstrip s' else s
  | [] => []
  end.

Definition rstrip (s : pystr) : pystr := rev (lstrip (rev s)).

(** [text.strip()] with no argument. *)
Definition strip (s : pystr) : pystr := rstrip (lstrip s).

(** Python truthiness of a [str]: [not s] holds of the empty string only. *)
Definition py_not (s : pystr) : bool :=
  match s with [] => true | _ => false end.

(** ** [str.encode('utf-8')] *)

Module Utf8.

Definition byte_of_N (n : N) : Byte.byte :=
  default Byte.x00 (Byte.of_N (n mod 256)%N).

Definition cont (c : codepoint) (shift : N) : Byte.byte :=
  byte_of_N (N.lor 0x80 (N.land (N.shiftr c shift) 0x3F)).

(** One code point. Surrogates (U+D800..U+DFFF) make Python raise
    [UnicodeEncodeError]; values above U+10FFFF are not code points. *)
Definition encode_char (c : codepoint) : option bytes :=
  (if c <? 0x80 then Some [byte_of_N c]
   else if c <? 0x800 then
     Some [byte_of_N (N.lor 0xC0 (N.shiftr c 6)); cont c 0]
   else if (0xD800 <=? c) && (c <=? 0xDFFF) then None
   else if c <? 0x10000 then
     Some [byte_of_N (N.lor 0xE0 (N.shiftr c 12)); cont c 6; cont c 0]
   else if c <? 0x110000 then
     Some [byte_of_N (N.lor 0xF0 (N.shiftr c 18)); cont c 12; cont c 6; cont c 0]
   else None)%N.

Fixpoint encode (s : pystr) : option bytes :=
  match s with
  | [] => Some []
  | c :: s' =>
      match encode_char c, encode s' with
      | Some b, Some bs => Some (b ++ bs)
      | _, _ => None
      end
  end.

End Utf8.

(** ** [hashlib.sha256(...).hexdigest()] (FIPS 180-4) *)

Module Sha256.

Definition mask32 (x : Z) : Z := Z.land x 0xffffffff.
Definition add32 (x y : Z) : Z := mask32 (x + y).
Definition rotr (n x : Z) : Z :=
  Z.lor (Z.shiftr x n) (mask32 (Z.shiftl x (32 - n))).
Definition not32 (x : Z) : Z := Z.lxor x 0xffffffff.

Definition Ch (x y z : Z) : Z := Z.lxor (Z.land x y) (Z.land (not32 x) z).
Definition Maj (x y z : Z) : Z :=
  Z.lxor (Z.lxor (Z.land x y) (Z.land x z)) (Z.land y z).
Definition Sigma0 (x : Z) : Z := Z.lxor (Z.lxor (rotr 2 x) (rotr 13 x)) (rotr 22 x).
Definition Sigma1 (x : Z) : Z := Z.lxor (Z.lxor (rotr 6 x) (rotr 11 x)) (rotr 25 x).
Definition sigma0 (x : Z) : Z := Z.lxor (Z.lxor (rotr 7 x) (rotr 18 x)) (Z.shiftr x 3).
Definition sigma1 (x : Z) : Z := Z.lxor (Z.lxor (rotr 17 x) (rotr 19 x)) (Z.shiftr x 10).

(** The constants are not tabulated but computed as FIPS 180-4 defines
    them, from the first primes. *)
Definition is_prime (p : Z) : bool :=
  forallb (fun d => negb (p mod d =? 0) || (p <=? d))
          (map Z.of_nat (seq 2 (Z.to_nat (Z.sqrt p)))).

(** The 64 primes up to 311. *)
Definition primes : list Z :=
  List.filter is_prime (map Z.of_nat (seq 2 310)).

(** The largest of the numbers [r + m], [m < 2 ^ bits], whose cube does
    not exceed [n]. *)
Fixpoint cube_root (bits : nat) (n r : Z) : Z :=
  match bits with
  | O => r
  | S bits' =>
      let r' := r + 2 ^ Z.of_nat bits' in
      cube_root bits' n (if r' * r' * r' <=? n then r' else r)
  end.

(** First 32 bits of the fractional part of the cube root of [p]. *)
Definition frac_cbrt (p : Z) : Z := mask32 (cube_root 36 (p * 2 ^ 96) 0).

(** First 32 bits of the fractional part of the square root of [p]. *)
Definition frac_sqrt (p : Z) : Z := mask32 (Z.sqrt (p * 2 ^ 64)).

Definition K : list Z := Eval vm_compute in map frac_cbrt primes.

Definition H0 : list Z := Eval vm_compute in map frac_sqrt (firstn 8 primes).

(** Big-endian bytes of [x], [n] of them. *)
Fixpoint be_bytes (n : nat) (x : Z) : list Z :=
  match n with
  | O => []
  | S n' => Z.land (Z.shiftr x (8 * Z.of_nat n')) 0xff :: be_bytes n' x
  end.

(** The message followed by 0x80, zeros up to 56 modulo 64, and the bit
    length on 8 bytes. *)
Definition pad (msg : list Z) : list Z :=
  let len := Z.of_nat (length msg) in
  msg ++ [0x80] ++ repeat 0 (Z.to_nat ((55 - len) mod 64)) ++ be_bytes 8 (8 * len).

Fixpoint be_words (n : nat) (bs : list Z) : list Z :=
  match n, bs with
  | S n', b0 :: b1 :: b2 :: b3 :: rest =>
      Z.lor (Z.shiftl b0 24) (Z.lor (Z.shiftl b1 16) (Z.lor (Z.shiftl b2 8) b3))
      :: be_words n' rest
  | _, _ => []
  end.

(** The message schedule, most recent word first. *)
Fixpoint schedule (n : nat) (w : list Z) : list Z :=
  match n with
  | O => w
  | S n' =>
      let at_ i := nth i w 0 in
      schedule n'
        (add32 (add32 (sigma1 (at_ 1%nat)) (at_ 6%nat))
               (add32 (sigma0 (at_ 14%nat)) (at_ 15%nat)) :: w)
  end.

Record regs := Regs { ra : Z; rb : Z; rc : Z; rd : Z; re : Z; rf : Z; rg : Z; rh : Z }.

Definition round (r : regs) (kw : Z * Z) : regs :=
  let t1 := add32 (add32 (add32 (rh r) (Sigma1 (re r))) (Ch (re r) (rf r) (rg r)))
                  (add32 (fst kw) (snd kw)) in
  let t2 := add32 (Sigma0 (ra r)) (Maj (ra r) (rb r) (rc r)) in
  Regs (add32 t1 t2) (ra r) (rb r) (rc r) (add32 (rd r) t1) (re r) (rf r) (rg r).

Definition regs_of (h : list Z) : regs :=
  let at_ i := nth i h 0 in
  Regs (at_ 0%nat) (at_ 1%nat) (at_ 2%nat) (at_ 3%nat)
       (at_ 4%nat) (at_ 5%nat) (at_ 6%nat) (at_ 7%nat).

Definition to_list (r : regs) : list Z :=
  [ra r; rb r; rc r; rd r; re r; rf r; rg r; rh r].

Definition compress (h : list Z) (block : list Z) : list Z :=
  let w := rev (schedule 48 (rev (be_words 16 block))) in
  let r := fold_left round (combine K w) (regs_of h) in
  zip_with add32 h (to_list r).

Fixpoint blocks (n : nat) (h : list Z) (bs : list Z) : list Z :=
  match n with
  | O => h
  | S n' => blocks n' (compress h (firstn 64 bs)) (skipn 64 bs)
  end.

Definition digest (msg : bytes) : list Z :=
  let p := pad (map (fun b => Z.of_N (Byte.to_N b)) msg) in
  blocks (length p / 64) H0 p.

Definition hex_digit (x : Z) : ascii :=
  ascii_of_N (Z.to_N (if x <? 10 then 48 + x else 87 + x)).

Fixpoint hex_of_word (n : nat) (x : Z) : string :=
  match n with
  | O => EmptyString
  | S n' => String (hex_digit (Z.land (Z.shiftr x (4 * Z.of_nat n')) 0xf)) (hex_of_word n' x)
  end.

Definition hexdigest (msg : bytes) : string :=
  fold_right (fun w s => hex_of_word 8 w +:+ s) EmptyString (digest msg).

End Sha256.

(** ** Paths *)

Local Open Scope string_scope.
Local Open Scope Z_scope.

(** Cache directory for TTS audio files. *)
Definition TTS_CACHE_DIR : string := "tts_cache".

Fixpoint strip_prefix (p s : string) : option string :=
  match p, s with
  | EmptyString, _ => Some s
  | String a p', String b s' => if Ascii.eqb a b then strip_prefix p' s' else None
  | String _ _, EmptyString => None
  end.

Definition startswith (s p : string) : bool :=
  match strip_prefix p s with Some _ => true | None => false end.

(** [s.endswith(suffix)]: some tail of [s] is [suffix]. *)
Fixpoint endswith (s suffix : string) : bool :=
  String.eqb s suffix ||
  match s with
  | EmptyString => false
  | String _ s' => endswith s' suffix
  end.

(** [os.path.join(a, b)] of [posixpath]. *)
Definition os_path_join (a b : string) : string :=
  if startswith b "/" then b
  else if String.eqb a "" || endswith a "/" then a +:+ b
  else a +:+ "/" +:+ b.

(** What a path denotes on the modelled disk. *)
Inductive target :=
  | T_cache_dir
  | T_entry (name : string)
  | T_elsewhere.

Definition resolve (path : string) : target :=
  if String.eqb path TTS_CACHE_DIR then T_cache_dir
  else match strip_prefix (TTS_CACHE_DIR +:+ "/") path with
       | Some EmptyString => T_cache_dir
       | Some name => T_entry name
       | None => T_elsewhere
       end.

(** ** The disk *)

(** An entry of [tts_cache]: a regular file with its content, or a
    sub-directory with the size [stat] reports for it. *)
Inductive node :=
  | File (data : bytes)
  | Folder (st_size : N).

Record directory := Directory {
  dir_readable : bool;               (* [os.listdir] is permitted *)
  dir_writable : bool;               (* entries may be created and unlinked *)
  dir_entries : gmap string node
}.

Record disk := Disk {
  cwd_writable : bool;               (* [tts_cache] may be created *)
  cache_dir : option directory       (* [None]: [tts_cache] does not exist *)
}.

Definition entries_of (d : disk) : gmap string node :=
  match cache_dir d with
  | Some dir => dir_entries dir
  | None => ∅
  end.

Definition set_entries (d : disk) (dir : directory) (m : gmap string node) : disk :=
  Disk (cwd_writable d) (Some (Directory (dir_readable dir) (dir_writable dir) m)).

Definition present {A} (o : option A) : bool :=
  match o with Some _ => true | None => false end.

Definition node_size (n : node) : Z :=
  match n with
  | File data => Z.of_nat (length data)
  | Folder sz => Z.of_N sz
  end.

(** ** The speech backend *)

(** What one use of gTTS does: the constructor may raise before anything is
    opened (unsupported language, nothing to say); [save] opens the
    destination for writing and streams the audio into it, so a failure of
    the service after that leaves what was written so far. *)
Inductive synth_outcome :=
  | Audio (data : bytes)
  | Refused
  | Interrupted (written : bytes).

(** ** Worlds, events and the monad *)

Inductive message :=
  | Msg_tts_error                    (* "TTS generation error: ..." *)
  | Msg_read_error                   (* "Error reading audio file: ..." *)
  | Msg_cleared (n : nat)            (* "Cleared n cached audio files" *)
  | Msg_clear_error                  (* "Error clearing cache: ..." *)
  | Msg_stats_error.                 (* "Error getting cache stats: ..." *)

Inductive event :=
  | Ev_exists (path : string)
  | Ev_makedirs (path : string)
  | Ev_listdir (path : string)
  | Ev_getsize (path : string)
  | Ev_remove (path : string)
  | Ev_read (path : string)
  | Ev_sha256 (data : bytes)
  | Ev_gTTS (text language : pystr) (slow : bool)
  | Ev_save (path : string)
  | Ev_print (m : message).

Record world := World {
  w_disk : disk;
  w_trace : list event               (* oldest first *)
}.

Inductive exn :=
  | UnicodeEncodeError
  | OSError
  | gTTSError.

Inductive outcome (A : Type) :=
  | Return (a : A)
  | Raise (e : exn).
Arguments Return {A} a.
Arguments Raise {A} e.

Definition M (A : Type) : Type := world → outcome A * world.

Definition ret {A} (a : A) : M A := fun w => (Return a, w).
Definition raise {A} (e : exn) : M A := fun w => (Raise e, w).

Definition bind {A B} (m : M A) (k : A → M B) : M B :=
  fun w => match m w with
           | (Return a, w') => k a w'
           | (Raise e, w') => (Raise e, w')
           end.

(** [try: body  except Exception as e: handler]. Every exception of the
    model is an [Exception]. *)
Definition try_except {A} (body : M A) (handler : exn → M A) : M A :=
  fun w => match body w with
           | (Return a, w') => (Return a, w')
           | (Raise e, w') => handler e w'
           end.

#[global] Instance M_ret : MRet M := @ret.
#[global] Instance M_bind : MBind M := fun A B k m => bind m k.

Definition log (e : event) : M unit :=
  fun w => (Return tt, World (w_disk w) (w_trace w ++ [e])).

Definition get_disk : M disk := fun w => (Return (w_disk w), w).
Definition put_disk (d : disk) : M unit := fun w => (Return tt, World d (w_trace w)).

Fixpoint for_each {A} (l : list A) (body : A → M unit) : M unit :=
  match l with
  | [] => ret tt
  | x :: l' => body x;; for_each l' body
  end.

Fixpoint map_M {A B} (f : A → M B) (l : list A) : M (list B) :=
  match l with
  | [] => ret []
  | x :: l' => y ← f x; ys ← map_M f l'; ret (y :: ys)
  end.

(** ** Operating-system primitives *)

Definition print (m : message) : M unit := log (Ev_print m).

Definition os_path_exists (path : string) : M bool :=
  log (Ev_exists path);;
  d ← get_disk;
  ret match resolve path with
      | T_cache_dir => present (cache_dir d)
      | T_entry name => present (entries_of d !! name)
      | T_elsewhere => false
      end.

Definition os_makedirs (path : string) : M unit :=
  log (Ev_makedirs path);;
  d ← get_disk;
  match resolve path, cache_dir d with
  | T_cache_dir, None =>
      if cwd_writable d
      then put_disk (Disk (cwd_writable d) (Some (Directory true true ∅)))
      else raise OSError
  | _, _ => raise OSError
  end.

Definition os_listdir (path : string) : M (list string) :=
  log (Ev_listdir path);;
  d ← get_disk;
  match resolve path, cache_dir d with
  | T_cache_dir, Some dir =>
      if dir_readable dir then ret (map fst (map_to_list (dir_entries dir)))
      else raise OSError
  | _, _ => raise OSError
  end.

Definition os_path_getsize (path : string) : M Z :=
  log (Ev_getsize path);;
  d ← get_disk;
  match resolve path with
  | T_entry name =>
      match entries_of d !! name with
      | Some n => ret (node_size n)
      | None => raise OSError
      end
  | _ => raise OSError
  end.

Definition os_remove (path : string) : M unit :=
  log (Ev_remove path);;
  d ← get_disk;
  match resolve path, cache_dir d with
  | T_entry name, Some dir =>
      match dir_entries dir !! name with
      | Some (File _) =>
          if dir_writable dir
          then put_disk (set_entries d dir (delete name (dir_entries dir)))
          else raise OSError
      | _ => raise OSError
      end
  | _, _ => raise OSError
  end.

(** [with open(path, 'rb') as f: return f.read()]. *)
Definition read_file (path : string) : M bytes :=
  log (Ev_read path);;
  d ← get_disk;
  match resolve path with
  | T_entry name =>
      match entries_of d !! name with
      | Some (File data) => ret data
      | _ => raise OSError
      end
  | _ => raise OSError
  end.

(** [open(path, 'wb')] followed by writing [data]: the file is created or
    truncated. *)
Definition write_file (path : string) (data : bytes) : M unit :=
  d ← get_disk;
  match resolve path, cache_dir d with
  | T_entry name, Some dir =>
      match dir_entries dir !! name with
      | Some (Folder _) => raise OSError
      | Some (File _) => put_disk (set_entries d dir (<[name := File data]> (dir_entries dir)))
      | None =>
          if dir_writable dir
          then put_disk (set_entries d dir (<[name := File data]> (dir_entries dir)))
          else raise OSError
      end
  | _, _ => raise OSError
  end.

Definition is_gTTS (e : event) : bool :=
  match e with Ev_gTTS _ _ _ => true | _ => false end.

(** Number of times the backend has been invoked. *)
Definition synth_calls (w : world) : nat := length (List.filter is_gTTS (w_trace w)).

(** ** [round(total_size / (1024 * 1024), 2)] *)

Module PyFloat.

(** [a / b] rounded to the nearest integer, ties to even ([0 < b]). *)
Definition div_half_even (a b : Z) : Z :=
  let q := a / b in
  let r := a mod b in
  if 2 * r <? b then q
  else if b <? 2 * r then q + 1
  else if Z.even q then q else q + 1.

(** A finite binary64 value, [mant * 2 ^ expo] with [|mant| <= 2 ^ 53]. *)
Record binary64 := B64 { mant : Z; expo : Z }.

(** [n / 2 ** k] on Python integers ([0 <= n]): true division returns
    the binary64 nearest the quotient. Up to 53 bits the quotient is
    itself a binary64; beyond, the low bits are rounded away. File sizes
    are [off_t] values, far below the overflow threshold. *)
Definition true_div_pow2 (n k : Z) : binary64 :=
  let excess := Z.log2 n - 52 in
  if excess <=? 0 then B64 n (- k)
  else B64 (div_half_even n (2 ^ excess)) (excess - k).

(** [round(x, 2)]: CPython prints [x] correctly rounded to two decimals
    (ties of the binary value to even) and reads the decimal back, so the
    result is the binary64 nearest that decimal. The model keeps the
    decimal itself, as a number of hundredths. *)
Definition round2 (x : binary64) : Z :=
  if 0 <=? expo x then 100 * mant x * 2 ^ expo x
  else div_half_even (100 * mant x) (2 ^ (- expo x)).

End PyFloat.

(** The dictionary [get_cache_stats] returns; [total_size_mb] in
    hundredths of a megabyte. *)
Record cache_stats := Stats {
  file_count : Z;
  total_size_mb : Z
}.

Definition sum (l : list Z) : Z := fold_left Z.add l 0.

(** ** The module *)

Section TTS.

(** The speech service behind gTTS: what its [n]-th use (from 0) does
    with a request. *)
Variable speech_service : nat → pystr → pystr → bool → synth_outcome.

(** [gTTS(text=text, lang=language, slow=slow)]. *)
Definition gTTS (text language : pystr) (slow : bool) : M synth_outcome :=
  fun w =>
    (log (Ev_gTTS text language slow);;
     match speech_service (synth_calls w) text language slow with
     | Refused => raise gTTSError
     | o => ret o
     end) w.

(** [tts.save(savefile)]. *)
Definition gTTS_save (tts : synth_outcome) (savefile : string) : M unit :=
  log (Ev_save savefile);;
  match tts with
  | Audio data => write_file savefile data
  | Interrupted written => write_file savefile written;; raise gTTSError
  | Refused => raise gTTSError
  end.

Definition ensure_cache_dir : M unit :=
  b ← os_path_exists TTS_CACHE_DIR;
  if negb b then os_makedirs TTS_CACHE_DIR else ret tt.

(** The digest as a function of the text; [None] where [encode] raises. *)
Definition text_hash (text : pystr) : option string :=
  Sha256.hexdigest <$> Utf8.encode text.

(** [get_text_hash], recording the digest computation in the trace. The
    encoding raises on what UTF-8 cannot hold. *)
Definition get_text_hash (text : pystr) : M string :=
  match Utf8.encode text with
  | Some data => log (Ev_sha256 data);; ret (Sha256.hexdigest data)
  | None => raise UnicodeEncodeError
  end.

(** The locator of the cache entry named after digest [h]. *)
Definition cache_path_of (h : string) : string :=
  os_path_join TTS_CACHE_DIR (h +:+ ".mp3").

Definition text_to_speech (text language : pystr) (slow : bool) : M (option string) :=
  if py_not text || py_not (strip text) then ret None
  else
    ensure_cache_dir;;
    text_hash ← get_text_hash text;
    let cache_filename := text_hash +:+ ".mp3" in
    let cache_path := os_path_join TTS_CACHE_DIR cache_filename in
    hit ← os_path_exists cache_path;
    if (hit : bool) then ret (Some cache_path)
    else
      try_except
        (tts ← gTTS text language slow;
         gTTS_save tts cache_path;;
         ret (Some cache_path))
        (fun e => print Msg_tts_error;; ret None).

(** Python truthiness of an [Optional[str]]. *)
Definition falsy (p : option string) : bool :=
  match p with
  | None | Some EmptyString => true
  | Some _ => false
  end.

Definition text_to_speech_bytes (text language : pystr) (slow : bool) : M (option bytes) :=
  audio_path ← text_to_speech text language slow;
  match audio_path with
  | None => ret None
  | Some path =>
      if falsy audio_path then ret None
      else
        present ← os_path_exists path;
        if negb present then ret None
        else
          try_except
            (data ← read_file path; ret (Some data))
            (fun e => print Msg_read_error;; ret None)
  end.

Definition is_mp3 (f : string) : bool := endswith f ".mp3".

(** [clear_cache] has no [return] with a value: on every path the caller
    receives Python's [None], here [None : option Z] (a count would be
    [Some n]). *)
Definition clear_cache (max_files : option Z) : M (option Z) :=
  present ← os_path_exists TTS_CACHE_DIR;
  if negb present then ret None
  else
    try_except
      (names ← os_listdir TTS_CACHE_DIR;
       let files := List.filter is_mp3 names in
       if match max_files with
          | Some m => Z.of_nat (length files) <=? m
          | None => false
          end
       then ret None
       else
         for_each files (fun filename =>
           let file_path := os_path_join TTS_CACHE_DIR filename in
           os_remove file_path);;
         print (Msg_cleared (length files));;
         ret None)
      (fun e => print Msg_clear_error;; ret None).

Definition get_cache_stats : M cache_stats :=
  present ← os_path_exists TTS_CACHE_DIR;
  if negb present then ret (Stats 0 0)
  else
    try_except
      (names ← os_listdir TTS_CACHE_DIR;
       let files := List.filter is_mp3 names in
       sizes ← map_M (fun f => os_path_getsize (os_path_join TTS_CACHE_DIR f)) files;
       let total_size := sum sizes in
       ret (Stats (Z.of_nat (length files))
                  (PyFloat.round2 (PyFloat.true_div_pow2 total_size 20))))
      (fun e => print Msg_stats_error;; ret (Stats 0 0)).

(** The part of [text_to_speech] run on a miss, on its own. *)
Definition synthesize (text language : pystr) (slow : bool) (cache_path : string)
  : M (option string) :=
  try_except
    (tts ← gTTS text language slow;
     gTTS_save tts cache_path;;
     ret (Some cache_path))
    (fun e => print Msg_tts_error;; ret None).

End TTS.

(** * Vocabulary of the statements *)

Local Open Scope list_scope.
Local Open Scope Z_scope.

(** Texts made of whitespace only, the empty text among them. *)
Definition is_blank (text : pystr) : bool := forallb is_space text.

(** The world after more events on an unchanged disk. *)
Definition logged (w : world) (evs : list event) : world :=
  World (w_disk w) (w_trace w ++ evs).

(** [ensure_cache_dir] succeeds when the directory is there or can be made. *)
Definition can_prepare (d : disk) : bool :=
  present (cache_dir d) || cwd_writable d.

(** The disk once [ensure_cache_dir] has returned. *)
Definition prepared (d : disk) : disk :=
  match cache_dir d with
  | Some _ => d
  | None => Disk (cwd_writable d) (Some (Directory true true ∅))
  end.

Definition ensure_events (d : disk) : list event :=
  match cache_dir d with
  | Some _ => [Ev_exists TTS_CACHE_DIR]
  | None => [Ev_exists TTS_CACHE_DIR; Ev_makedirs TTS_CACHE_DIR]
  end.

(** A new entry can be created in the (prepared) directory. *)
Definition can_store (d : disk) : bool :=
  match cache_dir d with
  | Some dir => dir_writable dir
  | None => cwd_writable d
  end.

(** The entry stored under digest [h]. *)
Definition stored (w : world) (h : string) : option node :=
  entries_of (w_disk w) !! (h +:+ ".mp3").

(** The artifacts of the cache: the entries named [*.mp3]. *)
Definition artifacts (d : disk) : list (string * node) :=
  List.filter (fun kv => is_mp3 (fst kv)) (map_to_list (entries_of d)).

Definition total_bytes (d : disk) : Z :=
  sum (map (fun kv => node_size (snd kv)) (artifacts d)).

(** Names a directory can hold: not empty, no separator. *)
Fixpoint no_slash (s : string) : bool :=
  match s with
  | EmptyString => true
  | String a s' => negb (Ascii.eqb a "/") && no_slash s'
  end.

Definition file_name (s : string) : bool :=
  negb (String.eqb s "") && no_slash s.

Definition well_named (d : disk) : Prop :=
  map_Forall (fun name _ => file_name name = true) (entries_of d).

(** The disk with the entries of its cache directory replaced. *)
Definition with_entries (d : disk) (m : gmap string node) : disk :=
  match cache_dir d with
  | Some dir => set_entries d dir m
  | None => d
  end.

(** [os.remove] succeeds on [tts_cache/name]. *)
Definition removable (d : disk) (name : string) : bool :=
  negb (startswith name "/") && negb (String.eqb name "") &&
  match cache_dir d with
  | Some dir =>
      dir_writable dir &&
      match dir_entries dir !! name with Some (File _) => true | _ => false end
  | None => false
  end.

(** The body of the loop of [clear_cache]. *)
Definition remove_body (filename : string) : M unit :=
  os_remove (os_path_join TTS_CACHE_DIR filename).

(** The loop of [clear_cache] on the disk: whether it ran to its end, and
    what it left. *)
Fixpoint remove_loop (files : list string) (d : disk) : bool * disk :=
  match files with
  | [] => (true, d)
  | f :: files' =>
      if removable d f
      then remove_loop files' (with_entries d (delete f (entries_of d)))
      else (false, d)
  end.

(** The threshold test of [clear_cache]. *)
Definition under_threshold (max_files : option Z) (n : nat) : bool :=
  match max_files with
  | Some m => Z.of_nat n <=? m
  | None => false
  end.

Definition listed (d : disk) : list string :=
  List.filter is_mp3 (map fst (map_to_list (entries_of d))).

(** What [os.path.getsize] reports for a listed entry; [None] where it
    raises (the joined path does not lead back to the entry). *)
Definition stat_size (kv : string * node) : option Z :=
  if startswith (fst kv) "/" || String.eqb (fst kv) "" then None
  else Some (node_size (snd kv)).

Definition statable (kv : string * node) : bool := present (stat_size kv).

Fixpoint sizes_of (arts : list (string * node)) : option (list Z) :=
  match arts with
  | [] => Some []
  | kv :: arts' =>
      match stat_size kv, sizes_of arts' with
      | Some z, Some zs => Some (z :: zs)
      | _, _ => None
      end
  end.

(** The dictionary [get_cache_stats] returns on a disk. *)
Definition stats_value (d : disk) : cache_stats :=
  match cache_dir d with
  | Some dir =>
      if dir_readable dir then
        match sizes_of (artifacts d) with
        | Some sizes =>
            Stats (Z.of_nat (length (artifacts d)))
                  (PyFloat.round2 (PyFloat.true_div_pow2 (sum sizes) 20))
        | None => Stats 0 0
        end
      else Stats 0 0
  | None => Stats 0 0
  end.

Definition getsize_body (f : string) : M Z :=
  os_path_getsize (os_path_join TTS_CACHE_DIR f).

Definition is_file (n : node) : bool :=
  match n with File _ => true | Folder _ => false end.

(** [os.listdir] is permitted on the cache directory. *)
Definition readable (d : disk) : bool :=
  match cache_dir d with
  | Some dir => dir_readable dir
  | None => false
  end.

(** The operations of the module. *)
Inductive operation :=
  | Op_ensure_cache_dir
  | Op_get_text_hash (text : pystr)
  | Op_text_to_speech (text language : pystr) (slow : bool)
  | Op_text_to_speech_bytes (text language : pystr) (slow : bool)
  | Op_clear_cache (max_files : option Z)
  | Op_get_cache_stats.

(** The world an operation leaves. *)
Definition run (svc : nat → pystr → pystr → bool → synth_outcome)
    (op : operation) (w : world) : world :=
  match op with
  | Op_ensure_cache_dir => snd (ensure_cache_dir w)
  | Op_get_text_hash text => snd (get_text_hash text w)
  | Op_text_to_speech text language slow => snd (text_to_speech svc text language slow w)
  | Op_text_to_speech_bytes text language slow =>
      snd (text_to_speech_bytes svc text language slow w)
  | Op_clear_cache max_files => snd (clear_cache max_files w)
  | Op_get_cache_stats => snd (get_cache_stats w)
  end.

Definition is_clear (op : operation) : bool :=
  match op with Op_clear_cache _ => true | _ => false end.

(** The digits of [hexdigest]. *)
Definition is_lower_hex (a : ascii) : bool :=
  let n := N_of_ascii a in
  ((48 <=? n) && (n <=? 57) || (97 <=? n) && (n <=? 102))%N.

(** What [str.encode('utf-8')] refuses: surrogates, and numbers that are
    no code points. *)
Definition unencodable (c : codepoint) : bool :=
  ((0xD800 <=? c) && (c <=? 0xDFFF) || (0x110000 <=? c))%N.

(** What [text_to_speech_bytes] finds behind an entry. *)
Definition content_of (n : node) : option bytes :=
  match n with
  | File data => Some data
  | Folder _ => None
  end.

(** The events of operations that only look at the disk. *)
Definition is_read_event (e : event) : bool :=
  match e with
  | Ev_exists _ | Ev_listdir _ | Ev_getsize _ | Ev_print _ => true
  | _ => false
  end.

(** ** Sample requests, services and worlds *)

Module Samples.

Definition hello : pystr := pystr_of_string "Hello".
Definition hello_world : pystr := pystr_of_string "Hello world".
Definition en : pystr := pystr_of_string "en".
Definition spaces : pystr := pystr_of_string "   ".

Definition mp3_bytes : bytes := ["I"; "D"; "3"; "004"]%byte.

(** A service that always answers, one that drops the connection once
    the destination is open, and one that rejects every request. *)
Definition answering : nat → pystr → pystr → bool → synth_outcome :=
  fun _ _ _ _ => Audio mp3_bytes.
Definition dropping : nat → pystr → pystr → bool → synth_outcome :=
  fun _ _ _ _ => Interrupted [].
Definition rejecting : nat → pystr → pystr → bool → synth_outcome :=
  fun _ _ _ _ => Refused.

(** No [tts_cache] yet, in a writable working directory. *)
Definition fresh : world := World (Disk true None) [].

Definition listing : gmap string node :=
  {[ "a.mp3" := File mp3_bytes;
     "b.mp3" := File ["I"; "D"; "3"]%byte;
     "notes.txt" := File ["h"; "i"]%byte ]}.

(** The same artifacts among other companions. *)
Definition other_listing : gmap string node :=
  {[ "a.mp3" := File mp3_bytes;
     "b.mp3" := File ["I"; "D"; "3"]%byte;
     "cover.png" := Folder 4096;
     "mp3" := File [] ]}.

Definition other_shelf : world :=
  World (Disk false (Some (Directory true false other_listing))) [].

Definition shelf (readable writable : bool) : world :=
  World (Disk true (Some (Directory readable writable listing))) [].

Definition empty_dir : world :=
  World (Disk true (Some (Directory true true ∅))) [].

End Samples.

(** * A state-and-exception monad for the other modules *)

Module Eff.

Inductive res (E A : Type) :=
  | Ok (a : A)
  | Err (e : E).
Arguments Ok {E A} a.
Arguments Err {E A} e.

Definition t (S E A : Type) : Type := S → res E A * S.

Definition ret {S E A} (a : A) : t S E A := fun s => (Ok a, s).
Definition throw {S E A} (e : E) : t S E A := fun s => (Err e, s).

Definition bind {S E A B} (m : t S E A) (k : A → t S E B) : t S E B :=
  fun s => match m s with
           | (Ok a, s') => k a s'
           | (Err e, s') => (Err e, s')
           end.

(** [try: body  except ...: handler e]. *)
Definition catch {S E A} (body : t S E A) (handler : E → t S E A) : t S E A :=
  fun s => match body s with
           | (Ok a, s') => (Ok a, s')
           | (Err e, s') => handler e s'
           end.

(** [try: body  finally: cleanup]: the cleanup runs however the body
    ends, and what it raises replaces the outcome of the body. *)
Definition finally {S E A} (body : t S E A) (cleanup : t S E unit) : t S E A :=
  fun s => match body s with
           | (r, s') =>
               match cleanup s' with
               | (Ok _, s'') => (r, s'')
               | (Err e, s'') => (Err e, s'')
               end
           end.

Definition get {S E} : t S E S := fun s => (Ok s, s).
Definition put {S E} (s : S) : t S E unit := fun _ => (Ok tt, s).

End Eff.

#[global] Instance Eff_ret {S E} : MRet (Eff.t S E) := @Eff.ret S E.
#[global] Instance Eff_bind {S E} : MBind (Eff.t S E) := fun A B k m => Eff.bind m k.

(** * [asr.py] *)

Module Asr.

(** The two classes of exception the module tells apart. *)
Inductive error :=
  | ImportError
  | Exception.

Inductive message :=
  | Msg_whisper_missing        (* "Whisper not available, falling back to speech_recognition" *)
  | Msg_whisper_error          (* "Whisper transcription error: ..." *)
  | Msg_sr_missing             (* "speech_recognition library not available" *)
  | Msg_sr_error               (* "Speech recognition error: ..." *)
  | Msg_read_error.            (* "Error reading audio file: ..." *)

Inductive recogniser :=
  | Whisper
  | Google.

Inductive event :=
  | Ev_tmp_create (name : nat)
  | Ev_tmp_remove (name : nat)
  | Ev_recognise (r : recogniser) (name : nat)
  | Ev_open (path : string)
  | Ev_print (m : message).

(** The temporary directory, the files [transcribe_from_file] may be
    pointed at, and what was done so far. *)
Record state := State {
  tmp : gmap nat bytes;
  files : gmap string bytes;
  trace : list event
}.

(** A third-party recogniser: whether its package can be imported, and
    what it makes of the content of an audio file ([None]: it raises). *)
Record engine := Engine {
  installed : bool;
  recognise : bytes → option pystr
}.

Definition M (A : Type) : Type := Eff.t state error A.

Definition log (e : event) : M unit :=
  fun s => (Eff.Ok tt, State (tmp s) (files s) (trace s ++ [e])).

Definition print (m : message) : M unit := log (Ev_print m).

(** Python truthiness of [bytes], [str] and [Optional[str]]. *)
Definition truthy {A} (l : list A) : bool :=
  match l with [] => false | _ => true end.

Definition truthy_opt (o : option pystr) : bool :=
  match o with Some t => truthy t | None => false end.

(** [with tempfile.NamedTemporaryFile(suffix=".wav", delete=False) as f:
    f.write(data)]: a file under a name not in use. *)
Definition named_temporary_file (data : bytes) : M nat :=
  fun s =>
    let name := fresh (dom (tmp s)) in
    (Eff.Ok name, State (<[name := data]> (tmp s)) (files s) (trace s ++ [Ev_tmp_create name])).

(** [if os.path.exists(path): os.remove(path)]. *)
Definition remove_if_exists (name : nat) : M unit :=
  fun s =>
    match tmp s !! name with
    | Some _ => (Eff.Ok tt, State (delete name (tmp s)) (files s) (trace s ++ [Ev_tmp_remove name]))
    | None => (Eff.Ok tt, s)
    end.

(** The recogniser at work on a temporary file. *)
Definition run_engine (r : recogniser) (e : engine) (name : nat) : M pystr :=
  log (Ev_recognise r name);;
  s ← Eff.get;
  match tmp s !! name with
  | Some data =>
      match recognise e data with
      | Some text => mret text
      | None => Eff.throw Exception
      end
  | None => Eff.throw Exception
  end.

Definition import (e : engine) : M unit :=
  if installed e then mret tt else Eff.throw ImportError.

Section Engines.

Variable whisper : engine.
Variable google : engine.

Definition transcribe_audio_whisper (audio_bytes : bytes) : M (option pystr) :=
  Eff.catch
    (import whisper;;
     temp_audio_path ← named_temporary_file audio_bytes;
     Eff.finally
       (text ← run_engine Whisper whisper temp_audio_path;
        let transcript := strip text in
        mret (if truthy transcript then Some transcript else None))
       (remove_if_exists temp_audio_path))
    (fun e =>
       match e with
       | ImportError => print Msg_whisper_missing;; mret None
       | Exception => print Msg_whisper_error;; mret None
       end).

Definition transcribe_audio_sr (audio_bytes : bytes) : M (option pystr) :=
  Eff.catch
    (import google;;
     temp_audio_path ← named_temporary_file audio_bytes;
     Eff.finally
       (transcript ← run_engine Google google temp_audio_path;
        mret (if truthy transcript then Some (strip transcript) else None))
       (remove_if_exists temp_audio_path))
    (fun e =>
       match e with
       | ImportError => print Msg_sr_missing;; mret None
       | Exception => print Msg_sr_error;; mret None
       end).

Definition transcribe_audio (audio_bytes : bytes) (prefer_whisper : bool) : M (option pystr) :=
  if negb (truthy audio_bytes) then mret None
  else if prefer_whisper then
    transcript ← transcribe_audio_whisper audio_bytes;
    if truthy_opt transcript then mret transcript
    else
      transcript ← transcribe_audio_sr audio_bytes;
      if truthy_opt transcript then mret transcript
      else mret None
  else
    transcript ← transcribe_audio_sr audio_bytes;
    if truthy_opt transcript then mret transcript
    else
      transcript ← transcribe_audio_whisper audio_bytes;
      if truthy_opt transcript then mret transcript
      else mret None.

(** [with open(audio_file_path, 'rb') as f: audio_bytes = f.read()]. *)
Definition read_file (path : string) : M bytes :=
  log (Ev_open path);;
  s ← Eff.get;
  match files s !! path with
  | Some data => mret data
  | None => Eff.throw Exception
  end.

Definition transcribe_from_file (audio_file_path : string) : M (option pystr) :=
  Eff.catch
    (audio_bytes ← read_file audio_file_path;
     transcribe_audio audio_bytes true)
    (fun e => print Msg_read_error;; mret None).

End Engines.

(** Whether a recogniser was put to work. *)
Definition used (r : recogniser) (s : state) : bool :=
  existsb (fun e => match e, r with
                    | Ev_recognise Whisper _, Whisper | Ev_recognise Google _, Google => true
                    | _, _ => false
                    end) (trace s).

(** What a recogniser, if usable on this audio, would contribute: its
    text, stripped, when that is not empty. *)
Definition offer (e : engine) (audio : bytes) : option pystr :=
  if installed e then
    match recognise e audio with
    | Some text => if truthy (strip text) then Some (strip text) else None
    | None => None
    end
  else None.

(** What one attempt with a recogniser records. *)
Definition attempt_events (r : recogniser) (e : engine) (audio : bytes) (s : state)
    (missing failed : message) : list event :=
  if installed e then
    let name := fresh (dom (tmp s)) in
    [Ev_tmp_create name; Ev_recognise r name; Ev_tmp_remove name] ++
    match recognise e audio with
    | Some _ => []
    | None => [Ev_print failed]
    end
  else [Ev_print missing].

(** What [transcribe_audio_sr] returns: unlike the Whisper variant, a
    transcript of whitespace alone comes back as the empty string. *)
Definition sr_result (google : engine) (audio : bytes) : option pystr :=
  if installed google then
    match recognise google audio with
    | Some t => if truthy t then Some (strip t) else None
    | None => None
    end
  else None.

(** The first of two offers. *)
Definition first_offer (a b : option pystr) : option pystr :=
  match a with Some _ => a | None => b end.

End Asr.

(** Recognisers and recordings for the examples. *)
Module AsrSamples.

(** [" hi "] *)
Definition heard : pystr := [32; 104; 105; 32]%N.

(** ["yo"] *)
Definition other_heard : pystr := [121; 111]%N.

(** ["  "] *)
Definition blank : pystr := [32; 32]%N.

Definition clip : bytes := ["R"; "I"; "F"; "F"]%byte.

Definition hearing : Asr.engine := Asr.Engine true (fun _ => Some heard).
Definition second : Asr.engine := Asr.Engine true (fun _ => Some other_heard).
Definition muttering : Asr.engine := Asr.Engine true (fun _ => Some blank).
Definition failing : Asr.engine := Asr.Engine true (fun _ => None).
Definition missing : Asr.engine := Asr.Engine false (fun _ => None).

(** Nothing stored, nothing done yet. *)
Definition idle : Asr.state := Asr.State ∅ ∅ [].

(** One recording on disk. *)
Definition recorded : Asr.state := Asr.State ∅ {["clip.wav" := clip]} [].

End AsrSamples.

(** * [groq_client.py] *)

Module Groq.

Inductive role :=
  | System
  | User.

(** [{"role": ..., "content": ...}] *)
Record chat_message := Message {
  msg_role : role;
  msg_content : pystr
}.

(** What leaves [Groq(api_key=...)], what leaves
    [client.chat.completions.create], and [choices[0]] on an empty list. *)
Inductive error :=
  | ClientError
  | ApiError
  | IndexError.

Section Client.

(** Python floats are only passed on. *)
Variable float : Type.
Variable zero_point_seven : float.

(** The keyword arguments of [client.chat.completions.create]. *)
Record request := Request {
  req_messages : list chat_message;
  req_model : string;
  req_max_tokens : Z;
  req_temperature : float
}.

(** What the service answers: it raises, or it returns a completion, of
    which the code reads [choices[i].message.content], a string or
    [None]. *)
Inductive reply :=
  | Refusal
  | Completion (choices : list (option pystr)).

(** The [groq] package and the service behind it: whether the
    constructor returns for a key, and the answer to a request made with a
    client holding that key. *)
Record service := Service {
  construct : pystr → bool;
  create : pystr → request → reply
}.

Inductive event :=
  | Ev_create (api_key : pystr) (r : request)
  | Ev_print.                  (* "Error calling Groq API: ..." *)

(** The environment variable [GROQ_API_KEY] and what was done so far. *)
Record state := State {
  groq_api_key : option pystr;
  trace : list event
}.

Definition M (A : Type) : Type := Eff.t state error A.

Definition log (e : event) : M unit :=
  fun s => (Eff.Ok tt, State (groq_api_key s) (trace s ++ [e])).

Variable groq : service.

(** A client is the key it holds. *)
Definition Groq (api_key : pystr) : M pystr :=
  if construct groq api_key then mret api_key else Eff.throw ClientError.

Definition chat_completions_create (client : pystr) (r : request) : M (list (option pystr)) :=
  log (Ev_create client r);;
  match create groq client r with
  | Completion choices => mret choices
  | Refusal => Eff.throw ApiError
  end.

Definition get_groq_client : M (option pystr) :=
  s ← Eff.get;
  let api_key := groq_api_key s in
  if negb (Asr.truthy_opt api_key) then mret None
  else
    match api_key with
    | Some key => client ← Groq key; mret (Some client)
    | None => mret None
    end.

Definition default_model : string := "llama-3.1-8b-instant".

Definition get_completion (user_query : pystr) (system_prompt : option pystr)
    (model : string) (max_tokens : Z) (temperature : float) : M (option pystr) :=
  client ← get_groq_client;
  match client with
  | None => mret None
  | Some client =>
      Eff.catch
        (let messages := [] in
         let messages :=
           match system_prompt with
           | Some p => if Asr.truthy p then messages ++ [Message System p] else messages
           | None => messages
           end in
         let messages := messages ++ [Message User user_query] in
         choices ← chat_completions_create client
                     (Request messages model max_tokens temperature);
         match choices with
         | first :: _ => mret first
         | [] => Eff.throw IndexError
         end)
        (fun _ => log Ev_print;; mret None)
  end.

Definition learning_prompt : pystr :=
  pystr_of_string
"You are a helpful voice-first learning assistant. Your role is to:
- Provide clear, concise explanations suitable for voice interaction
- Break down complex topics into simple, understandable parts
- Use examples and analogies to aid understanding
- Encourage curiosity and further learning
- Keep responses conversational and engaging
- Limit responses to 2-3 paragraphs for voice delivery

Always be patient, supportive, and adapt your explanations to the learner's needs.".

Definition get_learning_assistant_response (user_query : pystr) : M (option pystr) :=
  get_completion user_query (Some learning_prompt) default_model 512 zero_point_seven.

(** Whether an event is a request to the service. *)
Definition is_request (e : event) : bool :=
  match e with Ev_create _ _ => true | Ev_print => false end.

End Client.

Arguments Request {float}.
Arguments req_messages {float}.
Arguments req_model {float}.
Arguments req_max_tokens {float}.
Arguments req_temperature {float}.
Arguments Service {float}.
Arguments construct {float}.
Arguments create {float}.
Arguments Ev_create {float}.
Arguments Ev_print {float}.
Arguments State {float}.
Arguments groq_api_key {float}.
Arguments trace {float}.
Arguments is_request {float}.
Arguments get_groq_client {float}.
Arguments get_completion {float}.
Arguments get_learning_assistant_response {float}.

(** The messages of a request, by query and system prompt. *)
Definition messages_for (user_query : pystr) (system_prompt : option pystr) :
    list chat_message :=
  match system_prompt with
  | Some (c :: p) => [Message System (c :: p); Message User user_query]
  | _ => [Message User user_query]
  end.

End Groq.

(** A service for the examples: it answers every request with the user's
    own words. *)
Module GroqSamples.

(** ["gsk"] *)
Definition key : pystr := [103; 115; 107]%N.

Definition echo : Groq.service unit :=
  Groq.Service (fun _ => true)
    (fun _ r => Groq.Completion
                  (map (fun m => Some (Groq.msg_content m)) (rev (Groq.req_messages r)))).

Definition configured : Groq.state unit := Groq.State (Some key) [].

End GroqSamples.

(** * [db.py] *)

Module Db.

Inductive error :=
  | IntegrityError             (* sqlite3.IntegrityError *)
  | OperationalError           (* sqlite3.OperationalError *)
  | UnicodeEncodeError         (* a [str] that has no UTF-8 encoding *)
  | ValueError                 (* raised by [bcrypt] *)
  | OverflowError.             (* an [int] that is no SQLite INTEGER *)

(** A row of [users]. The hash is kept as the bytes [bcrypt] made, which
    are ASCII: [decode('utf-8')] before storing and [encode('utf-8')]
    after reading cancel out. *)
Record user_row := UserRow {
  u_id : Z;
  u_username : pystr;
  u_password_hash : bytes;
  u_created_at : N
}.

(** A row of [history]. *)
Record history_row := HistoryRow {
  h_id : Z;
  h_user_id : Z;
  h_user_query : pystr;
  h_assistant_response : pystr;
  h_created_at : N
}.

(** The two tables, rows in the order of insertion, each with its entry
    of [sqlite_sequence], which [AUTOINCREMENT] maintains. *)
Record tables := Tables {
  users : list user_row;
  users_seq : Z;
  history : list history_row;
  history_seq : Z
}.

(** [app.db] ([None]: no tables yet), the time [CURRENT_TIMESTAMP] shows,
    in seconds, and how many salts were drawn. *)
Record state := State {
  app_db : option tables;
  clock : N;
  salts_drawn : nat
}.

(** One element of the list [get_user_history] returns. *)
Record entry := Entry {
  e_id : Z;
  e_query : pystr;
  e_response : pystr;
  e_timestamp : N
}.

Definition M (A : Type) : Type := Eff.t state error A.

Definition empty : tables := Tables [] 0 [] 0.

(** The largest SQLite INTEGER. *)
Definition max_rowid : Z := 2 ^ 63 - 1.

(** Whether a Python [int] is an SQLite INTEGER. *)
Definition int64 (n : Z) : bool := (- 2 ^ 63 <=? n) && (n <=? max_rowid).

(** Binding a Python [int]. *)
Definition bind_int (n : Z) : M unit :=
  if int64 n then mret tt else Eff.throw OverflowError.

(** Binding a Python [str]. *)
Definition bind_text (s : pystr) : M unit :=
  match Utf8.encode s with
  | Some _ => mret tt
  | None => Eff.throw UnicodeEncodeError
  end.

(** Preparing a statement on the two tables: they must exist. *)
Definition prepare : M tables :=
  s ← Eff.get;
  match app_db s with
  | Some t => mret t
  | None => Eff.throw OperationalError
  end.

Definition commit (t : tables) : M unit :=
  s ← Eff.get;
  Eff.put (State (Some t) (clock s) (salts_drawn s)).

(** The row id [AUTOINCREMENT] gives: one more than the largest the table
    has or ever had; none is left after the largest INTEGER. *)
Definition largest_rowid (seq : Z) (ids : list Z) : Z := fold_right Z.max seq ids.

Definition new_rowid (seq : Z) (ids : list Z) : M Z :=
  let largest := largest_rowid seq ids in
  if max_rowid <=? largest then Eff.throw OperationalError else mret (largest + 1).

Definition init_db : M unit :=
  s ← Eff.get;
  match app_db s with
  | Some _ => mret tt            (* CREATE TABLE IF NOT EXISTS *)
  | None => commit empty
  end.

Section Bcrypt.

(** [bcrypt]: the salt drawn at the n-th call of [gensalt]; [hashpw] and
    [checkpw], which may raise. *)
Variable gensalt : nat → bytes.
Variable hashpw : bytes → bytes → option bytes.
Variable checkpw : bytes → bytes → option bool.

Definition encode (s : pystr) : M bytes :=
  match Utf8.encode s with
  | Some b => mret b
  | None => Eff.throw UnicodeEncodeError
  end.

Definition hash_password (password : pystr) : M bytes :=
  s ← Eff.get;
  let salt := gensalt (salts_drawn s) in
  Eff.put (State (app_db s) (clock s) (S (salts_drawn s)));;
  pw ← encode password;
  match hashpw pw salt with
  | Some hashed => mret hashed
  | None => Eff.throw ValueError
  end.

Definition verify_password (password : pystr) (hashed : bytes) : M bool :=
  pw ← encode password;
  match checkpw pw hashed with
  | Some b => mret b
  | None => Eff.throw ValueError
  end.

(** [INSERT INTO users (username, password_hash) VALUES (?, ?)], and
    [cursor.lastrowid]. *)
Definition insert_user (username : pystr) (password_hash : bytes) : M Z :=
  t ← prepare;
  bind_text username;;
  id ← new_rowid (users_seq t) (u_id <$> users t);
  if bool_decide (username ∈ u_username <$> users t) then Eff.throw IntegrityError
  else
    s ← Eff.get;
    commit (Tables (users t ++ [UserRow id username password_hash (clock s)]) id
              (history t) (history_seq t));;
    mret id.

Definition create_user (username password : pystr) : M (option Z) :=
  Eff.catch
    (password_hash ← hash_password password;
     user_id ← insert_user username password_hash;
     mret (Some user_id))
    (fun e =>
       match e with
       | IntegrityError => mret None
       | _ => Eff.throw e
       end).

(** [SELECT id, password_hash FROM users WHERE username = ?], and
    [fetchone]. *)
Definition select_user_by_name (username : pystr) : M (option user_row) :=
  t ← prepare;
  bind_text username;;
  mret (find (fun r => bool_decide (u_username r = username)) (users t)).

Definition authenticate_user (username password : pystr) : M (option Z) :=
  result ← select_user_by_name username;
  match result with
  | Some row =>
      ok ← verify_password password (u_password_hash row);
      if (ok : bool) then mret (Some (u_id row)) else mret None
  | None => mret None
  end.

End Bcrypt.

(** [INSERT INTO history (user_id, user_query, assistant_response)
    VALUES (?, ?, ?)]. The foreign key is declared, and not enforced:
    the connection does not turn [foreign_keys] on. *)
Definition save_conversation (user_id : Z) (user_query assistant_response : pystr) : M unit :=
  t ← prepare;
  bind_int user_id;;
  bind_text user_query;;
  bind_text assistant_response;;
  id ← new_rowid (history_seq t) (h_id <$> history t);
  s ← Eff.get;
  commit (Tables (users t) (users_seq t)
            (history t ++ [HistoryRow id user_id user_query assistant_response (clock s)]) id).

(** [LIMIT ?]: a negative limit is no limit. *)
Definition sql_limit {A} (limit : Z) (rows : list A) : list A :=
  if limit <? 0 then rows else take (Z.to_nat limit) rows.

Definition entry_of (row : history_row) : entry :=
  Entry (h_id row) (h_user_query row) (h_assistant_response row) (h_created_at row).

Section OrderBy.

(** [ORDER BY created_at DESC]: SQLite leaves open in which order rows of
    equal [created_at] come. *)
Variable order_by_created_at_desc : list history_row → list history_row.

Definition select_history (user_id limit : Z) (t : tables) : list history_row :=
  sql_limit limit
    (order_by_created_at_desc
       (filter (fun r => h_user_id r = user_id) (history t))).

Definition get_user_history (user_id limit : Z) : M (list entry) :=
  t ← prepare;
  bind_int user_id;;
  bind_int limit;;
  let results := select_history user_id limit t in
  mret (entry_of <$> results).

End OrderBy.

(** [SELECT username FROM users WHERE id = ?], and [fetchone]. *)
Definition get_username (user_id : Z) : M (option pystr) :=
  t ← prepare;
  bind_int user_id;;
  mret (u_username <$> find (fun r => bool_decide (u_id r = user_id)) (users t)).

(** Later is first. *)
Definition newer_first (a b : history_row) : Prop := (h_created_at b <= h_created_at a)%N.

#[global] Instance newer_first_dec a b : Decision (newer_first a b) :=
  decide (h_created_at b <= h_created_at a)%N.

(** What the schema promises of tables this module made: user names and
    ids are keys, and no id is beyond its sequence, which is an
    INTEGER. *)
Definition consistent (t : tables) : Prop :=
  NoDup (u_username <$> users t) ∧
  NoDup (u_id <$> users t) ∧
  Forall (fun r => 0 < u_id r <= users_seq t) (users t) ∧
  NoDup (h_id <$> history t) ∧
  Forall (fun r => 0 < h_id r <= history_seq t) (history t) ∧
  0 <= users_seq t <= max_rowid ∧ 0 <= history_seq t <= max_rowid.

Definition consistent_state (s : state) : Prop :=
  match app_db s with
  | Some t => consistent t
  | None => True
  end.

End Db.

#[global] Instance byte_eq_decision : EqDecision Byte.byte := Byte.byte_eq_dec.

(** A stand-in for [bcrypt] and a database for the examples. *)
Module DbSamples.

Definition gensalt (n : nat) : bytes := ["$"; "2"; "b"; "$"]%byte.

(** Salt, then password. *)
Definition hashpw (password salt : bytes) : option bytes := Some (salt ++ password).

Definition checkpw (password hashed : bytes) : option bool :=
  Some (bool_decide (drop 4 hashed = password)).

(** ["ann"], ["bob"] *)
Definition ann : pystr := [97; 110; 110]%N.
Definition bob : pystr := [98; 111; 98]%N.

(** ["secret"] *)
Definition secret : pystr := [115; 101; 99; 114; 101; 116]%N.

(** ["why"], ["because"] *)
Definition why : pystr := [119; 104; 121]%N.
Definition because : pystr := [98; 101; 99; 97; 117; 115; 101]%N.

Definition order_by_created_at_desc : list Db.history_row → list Db.history_row :=
  merge_sort Db.newer_first.

(** Just initialised, at second 100. *)
Definition installed : Db.state := Db.State (Some Db.empty) 100 0.

(** One account and one conversation, a minute later. *)
Definition in_use : Db.state :=
  Db.State
    (Some (Db.Tables
             [Db.UserRow 1 ann (gensalt 0 ++ default [] (Utf8.encode secret)) 100] 1
             [Db.HistoryRow 1 1 why because 130] 1))
    160 1.

End DbSamples.

(** * [app.py] *)

Module App.

(** [st.session_state], with the keys [init_session_state] sets. *)
Record session := Session {
  authenticated : bool;
  user_id : option Z;
  username : option pystr;
  last_transcript : option pystr;
  last_response : option pystr;
  audio_path : option string
}.

(** The database, the session, and the warnings shown. *)
Record state := State {
  db : Db.state;
  st_session : session;
  warnings : nat
}.

Definition M (A : Type) : Type := Eff.t state Db.error A.

(** A call into [db.py]. *)
Definition call_db {A} (m : Db.M A) : M A :=
  fun s =>
    match m (db s) with
    | (r, d) => (r, State d (st_session s) (warnings s))
    end.

Definition set_session (f : session → session) : M unit :=
  fun s => (Eff.Ok tt, State (db s) (f (st_session s)) (warnings s)).

(** [st.warning(...)] *)
Definition st_warning : M unit :=
  fun s => (Eff.Ok tt, State (db s) (st_session s) (S (warnings s))).

(** Python truthiness of an [Optional[int]]. *)
Definition truthy_id (user_id : option Z) : bool :=
  match user_id with
  | Some n => negb (n =? 0)
  | None => false
  end.

Section OrderBy.

Variable order_by_created_at_desc : list Db.history_row → list Db.history_row.

(** The dictionaries of [get_user_history] have no key ['audio_path']:
    the path is reset with every conversation loaded. *)
Definition _load_user_last_conversation_into_session (user_id : option Z) : M unit :=
  Eff.catch
    (if negb (truthy_id user_id) then mret tt
     else
       history ← call_db (Db.get_user_history order_by_created_at_desc
                            (default 0 user_id) 1);
       match history with
       | item :: _ =>
           set_session (fun ss =>
             Session (authenticated ss) (App.user_id ss) (username ss)
               (Some (Db.e_query item)) (Some (Db.e_response item)) None)
       | [] => mret tt
       end)
    (fun _ => st_warning).

End OrderBy.

End App.

Module AppSamples.

(** [ann] is logged in, nothing loaded yet. *)
Definition logged_in : App.state :=
  App.State DbSamples.in_use
    (App.Session true (Some 1) (Some DbSamples.ann) None None (Some "tts_cache/old.mp3"))
    0.

End AppSamples.

(** * Properties *)

(** ** Whitespace *)

Lemma lstrip_nil (s : pystr) : lstrip s = [] ↔ forallb is_space s = true.
Proof.
  induction s as [|c s IH]; simpl; [tauto|].
  destruct (is_space c); simpl; [exact IH|].
  split; discriminate.
Qed.

Lemma lstrip_head (s : pystr) c s' : lstrip s = c :: s' → is_space c = false.
Proof.
  induction s as [|a s IH]; simpl; [discriminate|].
  destruct (is_space a) eqn:E; [exact IH|].
  intros [= <- _]. exact E.
Qed.

Lemma forallb_rev {A} (f : A → bool) (l : list A) : forallb f (rev l) = forallb f l.
Proof.
  induction l as [|x l IH]; simpl; [reflexivity|].
  rewrite forallb_app, IH. simpl. rewrite andb_true_r. apply andb_comm.
Qed.

Lemma strip_nil (s : pystr) : strip s = [] ↔ is_blank s = true.
Proof.
  unfold strip, rstrip, is_blank. split.
  - intros H. apply (f_equal (@rev _)) in H. rewrite rev_involutive in H. simpl in H.
    apply lstrip_nil in H. rewrite forallb_rev in H.
    destruct (lstrip s) as [|c s'] eqn:E; [by apply lstrip_nil|].
    apply lstrip_head in E. simpl in H. rewrite E in H. discriminate.
  - intros H. apply lstrip_nil in H. rewrite H. reflexivity.
Qed.

(** The guard [not text or not text.strip()] holds exactly of the texts
    made of whitespace only (the empty one among them). *)
Lemma guard_is_blank (text : pystr) :
  py_not text || py_not (strip text) = is_blank text.
Proof.
  destruct (is_blank text) eqn:E.
  - apply strip_nil in E. rewrite E. simpl. apply orb_true_r.
  - destruct text as [|c text]; [discriminate|]. simpl.
    destruct (strip (c :: text)) eqn:S; [|reflexivity].
    apply strip_nil in S. congruence.
Qed.

(** ** Paths *)

Lemma strip_prefix_app (p s : string) : strip_prefix p (p +:+ s) = Some s.
Proof.
  induction p as [|a p IH]; simpl; [reflexivity|].
  rewrite Ascii.eqb_refl. exact IH.
Qed.

Lemma append_cons a (s t : string) : String a s +:+ t = String a (s +:+ t).
Proof. reflexivity. Qed.

Lemma endswith_app (s suffix : string) : endswith (s +:+ suffix) suffix = true.
Proof.
  induction s as [|a s IH]; simpl.
  - destruct suffix; simpl; [reflexivity|].
    rewrite Ascii.eqb_refl, String.eqb_refl. reflexivity.
  - rewrite IH. apply orb_true_r.
Qed.

Lemma join_cache_dir (name : string) :
  startswith name "/" = false →
  os_path_join TTS_CACHE_DIR name = "tts_cache/" +:+ name.
Proof. unfold os_path_join. intros ->. reflexivity. Qed.

Lemma resolve_cache_dir : resolve TTS_CACHE_DIR = T_cache_dir.
Proof. reflexivity. Qed.

Lemma resolve_entry (name : string) :
  name ≠ "" → resolve ("tts_cache/" +:+ name) = T_entry name.
Proof.
  intros Hne. unfold resolve. cbn.
  destruct name; [congruence|reflexivity].
Qed.

(** A path built from an entry name denotes that entry or nothing the
    model holds. *)
Lemma resolve_join (name : string) :
  resolve (os_path_join TTS_CACHE_DIR name) =
  if startswith name "/" then T_elsewhere
  else match name with EmptyString => T_cache_dir | _ => T_entry name end.
Proof.
  destruct (startswith name "/") eqn:E.
  - unfold os_path_join. rewrite E. unfold startswith in E.
    destruct name as [|a name]; [discriminate|]. cbn [strip_prefix] in E.
    destruct (Ascii.eqb "/" a) eqn:Ea; [|discriminate].
    apply Ascii.eqb_eq in Ea. subst a. reflexivity.
  - rewrite join_cache_dir by exact E.
    destruct name; [reflexivity|]. by rewrite resolve_entry.
Qed.

(** ** Digests are file names *)

Lemma hex_digit_not_slash (x : Z) :
  Sha256.hex_digit (Z.land x 0xf) ≠ "/"%char.
Proof.
  assert (H : 0 <= Z.land x 0xf < 16).
  { change 0xf with (Z.ones 4). rewrite Z.land_ones by lia.
    apply Z.mod_pos_bound. lia. }
  set (y := Z.land x 0xf) in *. clearbody y.
  assert (Hy : y = 0 ∨ y = 1 ∨ y = 2 ∨ y = 3 ∨ y = 4 ∨ y = 5 ∨ y = 6 ∨ y = 7 ∨
               y = 8 ∨ y = 9 ∨ y = 10 ∨ y = 11 ∨ y = 12 ∨ y = 13 ∨ y = 14 ∨ y = 15)
    by lia.
  repeat (destruct Hy as [-> | Hy]; [intros E; vm_compute in E; discriminate E|]).
  subst y. intros E. vm_compute in E. discriminate E.
Qed.

Lemma cache_filename_plain (data : bytes) :
  startswith (Sha256.hexdigest data +:+ ".mp3") "/" = false ∧
  Sha256.hexdigest data +:+ ".mp3" ≠ "".
Proof.
  unfold Sha256.hexdigest.
  destruct (Sha256.digest data) as [|w ws]; [split; [reflexivity|discriminate]|].
  cbn [fold_right].
  assert (∃ x rest, Sha256.hex_of_word 8 w =
                    String (Sha256.hex_digit (Z.land x 0xf)) rest)
    as (x & rest & ->) by (eexists _, _; reflexivity).
  pose proof (hex_digit_not_slash x) as Hc.
  set (c := Sha256.hex_digit _) in *. clearbody c.
  split; [|discriminate].
  unfold startswith. rewrite !append_cons. cbn [strip_prefix].
  destruct (Ascii.eqb "/" c) eqn:E; [|reflexivity].
  apply Ascii.eqb_eq in E. congruence.
Qed.

Lemma resolve_cache_path (data : bytes) :
  resolve (cache_path_of (Sha256.hexdigest data)) =
  T_entry (Sha256.hexdigest data +:+ ".mp3").
Proof.
  destruct (cache_filename_plain data) as [H1 H2].
  unfold cache_path_of. rewrite join_cache_dir by exact H1.
  by apply resolve_entry.
Qed.

(** ** Digests of known texts *)

Example digest_of_abc :
  text_hash (pystr_of_string "abc") =
  Some "ba7816bf8f01cfea414140de5dae2223b00361a396177a9cb410ff61f20015ad".
Proof. vm_compute. reflexivity. Qed.

Example digest_of_empty :
  text_hash [] =
  Some "e3b0c44298fc1c149afbf4c8996fb92427ae41e4649b934ca495991b7852b855".
Proof. vm_compute. reflexivity. Qed.

(** [héllo 世界 😀]: two, three and four byte sequences. *)
Example digest_of_unicode :
  text_hash [104; 233; 108; 108; 111; 32; 19990; 30028; 32; 128512]%N =
  Some "18e9cb691e303ac25bc5d374955bf4239a9f7ce6ca7895230613908612e84d78".
Proof. vm_compute. reflexivity. Qed.

(** A message that needs a second block for its padding. *)
Example digest_of_two_blocks :
  text_hash (repeat 97%N 56) =
  Some "b35439a4ac6f0948b6d6f9e3c6af0f5f590ce20f1bde7090ef7970686ec6738a".
Proof. vm_compute. reflexivity. Qed.

(** A lone surrogate cannot be encoded: [get_text_hash] raises. *)
Example surrogate_has_no_digest : text_hash [0xD800%N] = None.
Proof. reflexivity. Qed.

(** ** Rounding to hundredths of a megabyte *)

(** As CPython has them: [round(131072 / 1048576, 2) = 0.12] (a tie, to
    the even hundredth), [round(393216 / 1048576, 2) = 0.38],
    [round(5243 / 1048576, 2) = 0.01] and [round(5242880 / 1048576, 2) = 5.0]. *)
Example hundredths_of_known_sizes :
  map (fun n => PyFloat.round2 (PyFloat.true_div_pow2 n 20))
      [131072; 393216; 5243; 5242880] = [12; 38; 1; 500].
Proof. reflexivity. Qed.

(** ** Running the monad *)

Lemma synth_calls_logged w evs :
  synth_calls (logged w evs) = (synth_calls w + length (List.filter is_gTTS evs))%nat.
Proof. unfold synth_calls, logged. simpl. by rewrite List.filter_app, length_app. Qed.

#[local] Arguments Sha256.hexdigest : simpl never.
#[local] Arguments resolve : simpl never.
#[local] Arguments os_path_join : simpl never.
#[local] Arguments cache_path_of : simpl never.

Ltac run_monad :=
  unfold mbind, M_bind, bind, try_except, mret, M_ret, ret, raise,
    print, log, get_disk, put_disk; cbn.

Section Facts.

Variable svc : nat → pystr → pystr → bool → synth_outcome.

Lemma entries_cache_dir d name n :
  entries_of d !! name = Some n → ∃ dir, cache_dir d = Some dir.
Proof.
  unfold entries_of. destruct (cache_dir d); [eauto|]. by rewrite lookup_empty.
Qed.

Lemma ensure_cache_dir_run w :
  ensure_cache_dir w =
  let w' := World (prepared (w_disk w)) (w_trace w ++ ensure_events (w_disk w)) in
  if present (cache_dir (w_disk w)) || cwd_writable (w_disk w)
  then (Return tt, w')
  else (Raise OSError, logged w (ensure_events (w_disk w))).
Proof.
  unfold ensure_cache_dir, os_path_exists, os_makedirs, prepared, ensure_events, logged.
  run_monad. rewrite resolve_cache_dir.
  destruct (cache_dir (w_disk w)) as [dir|] eqn:Hd; cbn.
  - reflexivity.
  - rewrite ?Hd. destruct (cwd_writable (w_disk w)); cbn; by rewrite <- List.app_assoc.
Qed.

Lemma entries_prepared d : entries_of (prepared d) = entries_of d.
Proof.
  unfold prepared, entries_of.
  destruct (cache_dir d) eqn:E; cbn; by rewrite ?E.
Qed.

(** [text_to_speech] up to the point where the backend is needed. *)
Lemma text_to_speech_run text language slow w :
  text_to_speech svc text language slow w =
  if is_blank text then (Return None, w)
  else if negb (can_prepare (w_disk w))
  then (Raise OSError, logged w (ensure_events (w_disk w)))
  else
    match Utf8.encode text with
    | None =>
        (Raise UnicodeEncodeError,
         World (prepared (w_disk w)) (w_trace w ++ ensure_events (w_disk w)))
    | Some data =>
        let h := Sha256.hexdigest data in
        let w1 := World (prepared (w_disk w))
                        (w_trace w ++ ensure_events (w_disk w) ++
                         [Ev_sha256 data; Ev_exists (cache_path_of h)]) in
        if present (stored w h)
        then (Return (Some (cache_path_of h)), w1)
        else synthesize svc text language slow (cache_path_of h) w1
    end.
Proof.
  unfold text_to_speech. rewrite guard_is_blank.
  destruct (is_blank text); [reflexivity|].
  unfold mbind at 1, M_bind, bind. rewrite ensure_cache_dir_run.
  fold (can_prepare (w_disk w)). destruct (can_prepare (w_disk w)); [|reflexivity].
  cbn [negb]. unfold get_text_hash.
  destruct (Utf8.encode text) as [data|]; [|reflexivity].
  unfold os_path_exists, stored. run_monad.
  change (os_path_join TTS_CACHE_DIR (?h +:+ ".mp3")) with (cache_path_of h).
  rewrite resolve_cache_path, entries_prepared.
  rewrite <- !List.app_assoc. cbn [app].
  match goal with |- context [present ?x] => destruct (present x) end; reflexivity.
Qed.

Lemma synthesize_run text language slow name w dir :
  resolve (os_path_join TTS_CACHE_DIR name) = T_entry name →
  cache_dir (w_disk w) = Some dir →
  dir_entries dir !! name = None →
  let path := os_path_join TTS_CACHE_DIR name in
  let stored data :=
    World (set_entries (w_disk w) dir (<[name := File data]> (dir_entries dir)))
          (w_trace w ++ [Ev_gTTS text language slow; Ev_save path]) in
  let failed d evs := (Return None, World d (w_trace w ++ evs ++ [Ev_print Msg_tts_error])) in
  synthesize svc text language slow path w =
  match svc (synth_calls w) text language slow with
  | Refused => failed (w_disk w) [Ev_gTTS text language slow]
  | Audio data =>
      if dir_writable dir then (Return (Some path), stored data)
      else failed (w_disk w) [Ev_gTTS text language slow; Ev_save path]
  | Interrupted written =>
      if dir_writable dir
      then failed (w_disk (stored written)) [Ev_gTTS text language slow; Ev_save path]
      else failed (w_disk w) [Ev_gTTS text language slow; Ev_save path]
  end.
Proof.
  intros Hr Hd Hn. unfold synthesize, gTTS, gTTS_save, write_file. run_monad.
  destruct (svc (synth_calls w) text language slow) as [data| |written];
    run_monad; rewrite ?Hr, ?Hd, ?Hn; cbn.
  - destruct (dir_writable dir); cbn; by rewrite <- !List.app_assoc.
  - by rewrite <- !List.app_assoc.
  - destruct (dir_writable dir); cbn; by rewrite <- !List.app_assoc.
Qed.

Lemma prepared_dir d :
  can_prepare d = true →
  ∃ dir, cache_dir (prepared d) = Some dir ∧ dir_entries dir = entries_of d ∧
         dir_writable dir = can_store d.
Proof.
  unfold can_prepare, prepared, entries_of, can_store.
  destruct (cache_dir d) as [dir|] eqn:E; cbn.
  - intros _. exists dir. by rewrite E.
  - intros ->. by eexists.
Qed.

Lemma no_synth_in_ensure d evs :
  List.filter is_gTTS (ensure_events d ++ evs) = List.filter is_gTTS evs.
Proof. unfold ensure_events. by destruct (cache_dir d). Qed.

Lemma synth_calls_app d t evs :
  synth_calls (World d (t ++ evs)) =
  (length (List.filter is_gTTS t) + length (List.filter is_gTTS evs))%nat.
Proof. unfold synth_calls. cbn. by rewrite List.filter_app, length_app. Qed.

(** [text_to_speech] on a miss, by what the speech service does. *)
Lemma text_to_speech_miss text language slow w data :
  is_blank text = false →
  Utf8.encode text = Some data →
  can_prepare (w_disk w) = true →
  stored w (Sha256.hexdigest data) = None →
  let d := w_disk w in
  let name := Sha256.hexdigest data +:+ ".mp3" in
  let path := cache_path_of (Sha256.hexdigest data) in
  let evs := ensure_events d ++ [Ev_sha256 data; Ev_exists path] in
  let call := [Ev_gTTS text language slow] in
  let save := [Ev_gTTS text language slow; Ev_save path] in
  let oops := [Ev_print Msg_tts_error] in
  ∃ dir, cache_dir (prepared d) = Some dir ∧ dir_entries dir = entries_of d ∧
    dir_writable dir = can_store d ∧
    let put content := set_entries (prepared d) dir (<[name := File content]> (entries_of d)) in
    text_to_speech svc text language slow w =
    match svc (synth_calls w) text language slow with
    | Refused => (Return None, World (prepared d) (w_trace w ++ evs ++ call ++ oops))
    | Audio audio =>
        if can_store d
        then (Return (Some path), World (put audio) (w_trace w ++ evs ++ save))
        else (Return None, World (prepared d) (w_trace w ++ evs ++ save ++ oops))
    | Interrupted written =>
        if can_store d
        then (Return None, World (put written) (w_trace w ++ evs ++ save ++ oops))
        else (Return None, World (prepared d) (w_trace w ++ evs ++ save ++ oops))
    end.
Proof.
  intros Hb He Hp Hs d name path evs call save oops.
  destruct (prepared_dir _ Hp) as (dir & Hd & Hm & Hw).
  exists dir. split_and!; try done. intros put.
  rewrite text_to_speech_run, Hb, Hp, He. cbn [negb]. cbv zeta. rewrite Hs. cbn [present].
  unfold cache_path_of.
  erewrite synthesize_run; cycle 1.
  { fold (cache_path_of (Sha256.hexdigest data)). apply resolve_cache_path. }
  { exact Hd. }
  { rewrite Hm. exact Hs. }
  cbn [w_disk w_trace]. rewrite synth_calls_app, no_synth_in_ensure. cbn.
  rewrite Nat.add_0_r. fold (synth_calls w). rewrite Hw, Hm.
  subst evs call save oops put d path name.
  destruct (svc (synth_calls w) text language slow);
    try destruct (can_store (w_disk w));
    cbn; unfold cache_path_of; by rewrite <- ?List.app_assoc.
Qed.

End Facts.

(** ** The guard, hits and misses of [text_to_speech] *)

Lemma entries_set_entries d dir m : entries_of (set_entries d dir m) = m.
Proof. reflexivity. Qed.

Lemma in_artifacts d name node :
  In (name, node) (artifacts d) ↔ is_mp3 name = true ∧ entries_of d !! name = Some node.
Proof.
  unfold artifacts. rewrite filter_In, <- list_elem_of_In, elem_of_map_to_list. cbn. tauto.
Qed.

Lemma text_to_speech_success svc text language slow w p w1 :
  text_to_speech svc text language slow w = (Return (Some p), w1) →
  ∃ data node,
    is_blank text = false ∧ Utf8.encode text = Some data ∧
    p = cache_path_of (Sha256.hexdigest data) ∧
    stored w1 (Sha256.hexdigest data) = Some node ∧
    (synth_calls w1 ≤ synth_calls w + 1)%nat.
Proof.
  intros H. pose proof H as H0. rewrite text_to_speech_run in H.
  destruct (is_blank text) eqn:Hb; [discriminate|].
  destruct (can_prepare (w_disk w)) eqn:Hp; [|discriminate]. cbn [negb] in H.
  destruct (Utf8.encode text) as [data|] eqn:He; [|discriminate].
  exists data. cbv zeta in H.
  destruct (stored w (Sha256.hexdigest data)) as [node|] eqn:Hs; cbn [present] in H.
  - injection H as <- <-. exists node. split_and!; try done.
    + unfold stored in *. cbn [w_disk]. by rewrite entries_prepared.
    + rewrite synth_calls_app, no_synth_in_ensure. cbn. unfold synth_calls. lia.
  - clear H. destruct (text_to_speech_miss svc text language slow w data Hb He Hp Hs)
      as (dir & Hd & Hm & Hw & Hrun).
    cbv zeta in Hrun. rewrite Hrun in H0. clear Hrun.
    destruct (svc (synth_calls w) text language slow); try destruct (can_store (w_disk w));
      try discriminate.
    injection H0 as <- <-. eexists. split_and!; try done.
    + unfold stored. cbn [w_disk]. rewrite entries_set_entries. apply lookup_insert_eq.
    + rewrite synth_calls_app, <- List.app_assoc, no_synth_in_ensure.
      cbn. unfold synth_calls. lia.
Qed.

Lemma text_to_speech_hit svc text language slow w data node :
  is_blank text = false →
  Utf8.encode text = Some data →
  stored w (Sha256.hexdigest data) = Some node →
  text_to_speech svc text language slow w =
  (Return (Some (cache_path_of (Sha256.hexdigest data))),
   logged w [Ev_exists TTS_CACHE_DIR; Ev_sha256 data;
             Ev_exists (cache_path_of (Sha256.hexdigest data))]).
Proof.
  intros Hb He Hs. rewrite text_to_speech_run, Hb.
  destruct (entries_cache_dir _ _ _ Hs) as [dir Hd].
  unfold can_prepare, prepared, ensure_events. rewrite Hd, He. cbn. by rewrite Hs.
Qed.

(** A request for a text whose audio was just obtained is served from the
    cache whatever language and rate it names. *)
Lemma repeated_text_hits svc text language slow language' slow' w p w1 :
  text_to_speech svc text language slow w = (Return (Some p), w1) →
  ∃ w2, text_to_speech svc text language' slow' w1 = (Return (Some p), w2) ∧
        w_disk w2 = w_disk w1 ∧ synth_calls w2 = synth_calls w1 ∧
        (synth_calls w2 ≤ synth_calls w + 1)%nat.
Proof.
  intros H. apply text_to_speech_success in H as (data & node & Hb & He & -> & Hs & Hc).
  eexists. split; [by eapply text_to_speech_hit|].
  split; [reflexivity|]. rewrite synth_calls_logged. cbn. lia.
Qed.

(** C2. A text that is empty or made of whitespace only makes
    [text_to_speech] return [None] at once: the world is the one it was
    given, so nothing was hashed, the backend was not called and the disk
    was neither read nor written (no event was added to the trace). *)
Theorem blank_text_returns_none svc text language slow w :
  is_blank text = true →
  text_to_speech svc text language slow w = (Return None, w).
Proof. intros H. by rewrite text_to_speech_run, H. Qed.

Lemma blank_text_returns_none_witness :
  is_blank Samples.spaces = true ∧
  text_to_speech Samples.answering Samples.spaces Samples.en false Samples.fresh =
  (Return None, Samples.fresh).
Proof.
  split; [reflexivity|]. apply blank_text_returns_none. reflexivity.
Defined.

(** C3. When the entry named after the digest of a non-blank text is in
    the directory, [text_to_speech] returns its path with the disk
    unchanged and the backend not called. Hence a call repeated after a
    successful one returns the same path, and the two calls together use
    the backend at most once. *)
Theorem cache_hit_skips_backend svc text language slow w :
  (∀ h node,
     is_blank text = false → text_hash text = Some h → stored w h = Some node →
     ∃ w', text_to_speech svc text language slow w = (Return (Some (cache_path_of h)), w') ∧
           w_disk w' = w_disk w ∧ synth_calls w' = synth_calls w) ∧
  (∀ p w1,
     text_to_speech svc text language slow w = (Return (Some p), w1) →
     ∃ w2, text_to_speech svc text language slow w1 = (Return (Some p), w2) ∧
           w_disk w2 = w_disk w1 ∧ (synth_calls w2 ≤ synth_calls w + 1)%nat).
Proof.
  split.
  - intros h node Hb Hh Hs. unfold text_hash in Hh.
    destruct (Utf8.encode text) as [data|] eqn:He; [|discriminate].
    injection Hh as <-. eexists. split; [by eapply text_to_speech_hit|].
    split; [reflexivity|]. rewrite synth_calls_logged. cbn. lia.
  - intros p w1 H. destruct (repeated_text_hits _ _ _ _ language slow _ _ _ H)
      as (w2 & H2 & Hd & _ & Hc). eauto.
Qed.

Lemma cache_hit_skips_backend_witness :
  let w1 := snd (text_to_speech Samples.answering Samples.hello_world Samples.en false
                   Samples.fresh) in
  let h := "64ec88ca00b268e5ba1a35678a1b5316d212f4f366b2477232534a8aeca37f3c" in
  (∃ w', text_to_speech Samples.answering Samples.hello_world Samples.en false w1 =
         (Return (Some (cache_path_of h)), w') ∧
         w_disk w' = w_disk w1 ∧ synth_calls w' = synth_calls w1) ∧
  (∃ w2, text_to_speech Samples.answering Samples.hello_world Samples.en false w1 =
         (Return (Some (cache_path_of h)), w2) ∧
         w_disk w2 = w_disk w1 ∧ (synth_calls w2 ≤ synth_calls Samples.fresh + 1)%nat).
Proof.
  intros w1 h. split.
  - apply (proj1 (cache_hit_skips_backend Samples.answering Samples.hello_world
                    Samples.en false w1) h (File Samples.mp3_bytes));
      vm_compute; reflexivity.
  - apply (proj2 (cache_hit_skips_backend Samples.answering Samples.hello_world
                    Samples.en false Samples.fresh)).
    vm_compute. reflexivity.
Defined.

(** C1. The name of a cache entry is the digest of the text alone, so
    requests that differ only in language or rate share one key, against
    what the claim asks. Once a request has produced audio for a text, a
    request for the same text in any other language or at the other rate
    is answered with that very file: same path, disk untouched, backend
    not called. *)
Theorem cache_key_ignores_language_and_rate
    svc text language slow language' slow' w p w1 :
  text_to_speech svc text language slow w = (Return (Some p), w1) →
  ∃ w2, text_to_speech svc text language' slow' w1 = (Return (Some p), w2) ∧
        w_disk w2 = w_disk w1 ∧ synth_calls w2 = synth_calls w1.
Proof.
  intros H. destruct (repeated_text_hits _ _ _ _ language' slow' _ _ _ H)
    as (w2 & H2 & Hd & Hc & _). eauto.
Qed.

Lemma cache_key_ignores_language_and_rate_witness :
  let first := text_to_speech Samples.answering Samples.hello Samples.en false Samples.fresh in
  let p := "tts_cache/185f8db32271fe25f561a6fc938b2e264306ec304eda518007d1764826381969.mp3" in
  fst first = Return (Some p) ∧
  ∃ w2, text_to_speech Samples.answering Samples.hello Samples.en true (snd first) =
        (Return (Some p), w2) ∧
        w_disk w2 = w_disk (snd first) ∧ synth_calls w2 = synth_calls (snd first).
Proof.
  intros first p. split; [vm_compute; reflexivity|].
  apply (cache_key_ignores_language_and_rate Samples.answering Samples.hello
           Samples.en false Samples.en true Samples.fresh).
  vm_compute. reflexivity.
Defined.

Lemma can_store_prepare d : can_store d = true → can_prepare d = true.
Proof.
  unfold can_store, can_prepare. destruct (cache_dir d); cbn; [done|]. by intros ->.
Qed.

Lemma cache_path_nonempty data :
  ∃ a rest, cache_path_of (Sha256.hexdigest data) = String a rest.
Proof.
  unfold cache_path_of. rewrite join_cache_dir by apply cache_filename_plain.
  rewrite append_cons. eauto.
Qed.

Lemma read_stored path name w data :
  resolve path = T_entry name →
  entries_of (w_disk w) !! name = Some (File data) →
  os_path_exists path w = (Return true, logged w [Ev_exists path]) ∧
  read_file path w = (Return data, logged w [Ev_read path]).
Proof.
  intros Hr Hn. unfold os_path_exists, read_file. run_monad. by rewrite Hr, Hn.
Qed.

(** C4. On a miss for a non-blank text, when the backend delivers audio
    (the directory being there or creatable, and writable),
    [text_to_speech] returns the path named after the digest; the entry
    under that name is then a file holding exactly the delivered bytes,
    an artifact that [get_cache_stats] and [clear_cache] see; reading the
    returned path yields these bytes, and so does [text_to_speech_bytes];
    no other entry changes and the backend was called once. *)
Theorem cache_miss_populates_store svc text language slow w h audio :
  is_blank text = false →
  text_hash text = Some h →
  stored w h = None →
  can_store (w_disk w) = true →
  svc (synth_calls w) text language slow = Audio audio →
  ∃ w', text_to_speech svc text language slow w = (Return (Some (cache_path_of h)), w') ∧
        stored w' h = Some (File audio) ∧
        In (h +:+ ".mp3", File audio) (artifacts (w_disk w')) ∧
        (∀ name, name ≠ h +:+ ".mp3" →
                 entries_of (w_disk w') !! name = entries_of (w_disk w) !! name) ∧
        fst (read_file (cache_path_of h) w') = Return audio ∧
        fst (text_to_speech_bytes svc text language slow w) = Return (Some audio) ∧
        synth_calls w' = S (synth_calls w).
Proof.
  intros Hb Hh Hs Hst Hsvc. unfold text_hash in Hh.
  destruct (Utf8.encode text) as [data|] eqn:He; [|discriminate]. injection Hh as <-.
  destruct (text_to_speech_miss svc text language slow w data Hb He
              (can_store_prepare _ Hst) Hs) as (dir & Hd & Hm & Hw & Hrun).
  cbv zeta in Hrun. rewrite Hsvc, Hst in Hrun.
  eexists. split; [exact Hrun|].
  assert (Hnew : ∀ t, stored (World (set_entries (prepared (w_disk w)) dir
                   (<[Sha256.hexdigest data +:+ ".mp3" := File audio]> (entries_of (w_disk w)))) t)
                   (Sha256.hexdigest data) = Some (File audio)).
  { intros t. unfold stored. cbn [w_disk]. rewrite entries_set_entries.
    apply lookup_insert_eq. }
  split_and!.
  - apply Hnew.
  - apply in_artifacts. split; [apply endswith_app|apply Hnew].
  - intros name Hne. cbn [w_disk]. rewrite entries_set_entries. by apply lookup_insert_ne.
  - match goal with |- fst (read_file _ ?w') = _ =>
      destruct (read_stored _ _ w' audio (resolve_cache_path data) (Hnew _)) as [_ ->]
    end. reflexivity.
  - unfold text_to_speech_bytes. unfold mbind at 1, M_bind, bind. rewrite Hrun.
    destruct (cache_path_nonempty data) as (a & rest & Hp). rewrite Hp. cbn [falsy].
    rewrite <- Hp. unfold mbind, M_bind, bind, try_except.
    match goal with |- context [os_path_exists _ ?w'] =>
      destruct (read_stored _ _ w' audio (resolve_cache_path data) (Hnew _)) as [-> _];
      cbn [negb];
      destruct (read_stored _ _ (logged w' [Ev_exists (cache_path_of (Sha256.hexdigest data))])
                  audio (resolve_cache_path data) (Hnew _)) as [_ ->]
    end. reflexivity.
  - rewrite synth_calls_app, <- List.app_assoc, no_synth_in_ensure.
    cbn. unfold synth_calls. lia.
Qed.

Lemma cache_miss_populates_store_witness :
  let h := "64ec88ca00b268e5ba1a35678a1b5316d212f4f366b2477232534a8aeca37f3c" in
  ∃ w', text_to_speech Samples.answering Samples.hello_world Samples.en false Samples.fresh =
        (Return (Some (cache_path_of h)), w') ∧
        stored w' h = Some (File Samples.mp3_bytes) ∧
        In (h +:+ ".mp3", File Samples.mp3_bytes) (artifacts (w_disk w')) ∧
        (∀ name, name ≠ h +:+ ".mp3" →
                 entries_of (w_disk w') !! name = entries_of (w_disk Samples.fresh) !! name) ∧
        fst (read_file (cache_path_of h) w') = Return Samples.mp3_bytes ∧
        fst (text_to_speech_bytes Samples.answering Samples.hello_world Samples.en false
               Samples.fresh) = Return (Some Samples.mp3_bytes) ∧
        synth_calls w' = S (synth_calls Samples.fresh).
Proof.
  intros h.
  apply (cache_miss_populates_store Samples.answering Samples.hello_world Samples.en false
           Samples.fresh h Samples.mp3_bytes); vm_compute; reflexivity.
Defined.

(** C5, as stated: after a failure of the backend the entries of the
    cache would be those before the call. A service that drops the
    connection once [save] has opened its destination refutes it: the call
    returns [None] and an empty file sits under the key. *)
Lemma backend_failure_store_unchanged_fails :
  ¬ (∀ svc text language slow w h,
       is_blank text = false →
       text_hash text = Some h →
       stored w h = None →
       can_prepare (w_disk w) = true →
       (∀ audio, svc (synth_calls w) text language slow ≠ Audio audio) →
       fst (text_to_speech svc text language slow w) = Return None ∧
       entries_of (w_disk (snd (text_to_speech svc text language slow w))) =
       entries_of (w_disk w)).
Proof.
  intros H.
  destruct (H Samples.dropping Samples.hello Samples.en false Samples.empty_dir
              "185f8db32271fe25f561a6fc938b2e264306ec304eda518007d1764826381969")
    as [_ Heq]; try (vm_compute; reflexivity).
  - intros audio. discriminate.
  - apply (f_equal (fun m : gmap string node =>
             m !! "185f8db32271fe25f561a6fc938b2e264306ec304eda518007d1764826381969.mp3"))
      in Heq.
    vm_compute in Heq. discriminate Heq.
Qed.

(** C5, amended. On a miss for a non-blank text (the directory being there
    or creatable), when the backend fails [text_to_speech] returns [None]
    and the entries under every other name are as before. The entries as a
    whole are as before when the failure comes before [save] has opened
    its destination: the constructor raises, or the directory is not
    writable. *)
Theorem backend_failure_returns_none svc text language slow w h :
  is_blank text = false →
  text_hash text = Some h →
  stored w h = None →
  can_prepare (w_disk w) = true →
  (∀ audio, svc (synth_calls w) text language slow ≠ Audio audio) →
  ∃ w', text_to_speech svc text language slow w = (Return None, w') ∧
        (∀ name, name ≠ h +:+ ".mp3" →
                 entries_of (w_disk w') !! name = entries_of (w_disk w) !! name) ∧
        (svc (synth_calls w) text language slow = Refused ∨ can_store (w_disk w) = false →
         entries_of (w_disk w') = entries_of (w_disk w)).
Proof.
  intros Hb Hh Hs Hp Hfail. unfold text_hash in Hh.
  destruct (Utf8.encode text) as [data|] eqn:He; [|discriminate]. injection Hh as <-.
  destruct (text_to_speech_miss svc text language slow w data Hb He Hp Hs)
    as (dir & Hd & Hm & Hw & Hrun).
  cbv zeta in Hrun. rewrite Hrun. clear Hrun.
  destruct (svc (synth_calls w) text language slow) as [audio| |written] eqn:Hsvc.
  - by destruct (Hfail audio).
  - eexists. split; [reflexivity|]. cbn [w_disk]. by rewrite entries_prepared.
  - destruct (can_store (w_disk w)) eqn:Hst.
    + eexists. split; [reflexivity|]. cbn [w_disk]. rewrite entries_set_entries. split.
      * intros name Hne. by apply lookup_insert_ne.
      * by intros [|].
    + eexists. split; [reflexivity|]. cbn [w_disk]. by rewrite entries_prepared.
Qed.

Lemma backend_failure_returns_none_witness :
  let h := "185f8db32271fe25f561a6fc938b2e264306ec304eda518007d1764826381969" in
  let w := Samples.shelf true true in
  ∃ w', text_to_speech Samples.rejecting Samples.hello Samples.en false w = (Return None, w') ∧
        (∀ name, name ≠ h +:+ ".mp3" →
                 entries_of (w_disk w') !! name = entries_of (w_disk w) !! name) ∧
        (Samples.rejecting (synth_calls w) Samples.hello Samples.en false = Refused ∨
         can_store (w_disk w) = false →
         entries_of (w_disk w') = entries_of (w_disk w)).
Proof.
  intros h w.
  apply (backend_failure_returns_none Samples.rejecting Samples.hello Samples.en false w h);
    try (vm_compute; reflexivity).
  intros audio. discriminate.
Defined.

(** ** [clear_cache] *)

Lemma os_remove_run name w :
  remove_body name w =
  if removable (w_disk w) name
  then (Return tt,
        World (with_entries (w_disk w) (delete name (entries_of (w_disk w))))
              (w_trace w ++ [Ev_remove (os_path_join TTS_CACHE_DIR name)]))
  else (Raise OSError, logged w [Ev_remove (os_path_join TTS_CACHE_DIR name)]).
Proof.
  unfold remove_body, os_remove, removable, with_entries, entries_of. run_monad.
  rewrite resolve_join.
  destruct (startswith name "/"); cbn; [reflexivity|].
  destruct name as [|a name]; cbn; [reflexivity|].
  destruct (cache_dir (w_disk w)) as [dir|]; [|reflexivity].
  destruct (dir_entries dir !! String a name) as [[data|sz]|]; cbn;
    rewrite ?andb_false_r; try reflexivity.
  rewrite andb_true_r. by destruct (dir_writable dir).
Qed.

Lemma for_each_remove files w :
  ∃ evs,
    for_each files remove_body w =
    (if fst (remove_loop files (w_disk w)) then Return tt else Raise OSError,
     World (snd (remove_loop files (w_disk w))) (w_trace w ++ evs)) ∧
    List.filter is_gTTS evs = [] ∧
    Forall (fun e => ∀ m, e ≠ Ev_print m) evs.
Proof.
  revert w. induction files as [|f files IH]; intros w.
  - exists []. cbn. rewrite app_nil_r. by destruct w.
  - cbn [for_each remove_loop]. unfold mbind, M_bind, bind.
    rewrite os_remove_run. destruct (removable (w_disk w) f).
    + destruct (IH (World (with_entries (w_disk w) (delete f (entries_of (w_disk w))))
                         (w_trace w ++ [Ev_remove (os_path_join TTS_CACHE_DIR f)])))
        as (evs & -> & Hg & Hp).
      exists (Ev_remove (os_path_join TTS_CACHE_DIR f) :: evs). cbn [w_disk w_trace].
      rewrite <- List.app_assoc. split_and!; [done|exact Hg|].
      constructor; [done|exact Hp].
    + eexists [_]. split_and!; [reflexivity|reflexivity|].
      constructor; [done|constructor].
Qed.

Lemma entries_with_entries d m :
  entries_of (with_entries d m) = match cache_dir d with Some _ => m | None => ∅ end.
Proof. unfold with_entries, entries_of. by destruct (cache_dir d) eqn:E; cbn; rewrite ?E. Qed.

Lemma removable_present d name :
  removable d name = true →
  startswith name "/" = false ∧ ∃ dir data,
    cache_dir d = Some dir ∧ dir_writable dir = true ∧ dir_entries dir !! name = Some (File data).
Proof.
  unfold removable. destruct (startswith name "/"); [done|].
  destruct (cache_dir d) as [dir|]; [|by rewrite andb_false_r].
  destruct (dir_entries dir !! name) as [[data|]|] eqn:E;
    rewrite ?andb_false_r; try done.
  intros H. split; [done|]. exists dir, data.
  destruct (dir_writable dir); [by split_and!|].
  cbn in H. by rewrite andb_false_r in H.
Qed.

(** The loop only ever deletes names it was given, and changes nothing
    else of the disk. *)
Lemma remove_loop_frame files d :
  let d' := snd (remove_loop files d) in
  cwd_writable d' = cwd_writable d ∧
  present (cache_dir d') = present (cache_dir d) ∧
  (∀ dir dir', cache_dir d = Some dir → cache_dir d' = Some dir' →
               dir_readable dir' = dir_readable dir ∧ dir_writable dir' = dir_writable dir) ∧
  ∀ name, entries_of d' !! name = entries_of d !! name ∨
          (In name files ∧ entries_of d' !! name = None).
Proof.
  revert d. induction files as [|f files IH]; intros d; cbn [remove_loop].
  - cbn. split_and!; try done. + intros ?? -> [= <-]. done. + by left.
  - destruct (removable d f) eqn:Hr; cbn [snd].
    + apply removable_present in Hr as (_ & dir & data & Hd & Hw & Hf).
      destruct (IH (with_entries d (delete f (entries_of d)))) as (H1 & H2 & H3 & H4).
      assert (Hwe : with_entries d (delete f (entries_of d)) =
                    set_entries d dir (delete f (dir_entries dir))).
      { unfold with_entries, entries_of. by rewrite Hd. }
      rewrite Hwe in *. cbn in H1, H2. rewrite Hd. split_and!; try done.
      * intros dir0 dir' [= <-] Hd'. apply (H3 _ dir' eq_refl Hd').
      * intros name. destruct (H4 name) as [He|[Hin He]].
        -- rewrite entries_set_entries in He.
           destruct (decide (f = name)) as [->|Hne].
           ++ right. split; [by left|]. rewrite He. apply lookup_delete_eq.
           ++ left. rewrite He. unfold entries_of. rewrite Hd.
              by apply lookup_delete_ne.
        -- right. split; [by right|done].
    + split_and!; try done. * intros ?? -> [= <-]. done. * by left.
Qed.

Lemma removable_after_delete d f g :
  removable d f = true → g ≠ f →
  removable (with_entries d (delete f (entries_of d))) g = removable d g.
Proof.
  intros Hr Hne. apply removable_present in Hr as (_ & dir & data & Hd & Hw & Hf).
  unfold removable, with_entries, entries_of. rewrite Hd. cbn.
  by rewrite lookup_delete_ne.
Qed.

Lemma remove_loop_all files d :
  NoDup files →
  (∀ f, In f files → removable d f = true) →
  fst (remove_loop files d) = true ∧
  ∀ name, In name files → entries_of (snd (remove_loop files d)) !! name = None.
Proof.
  revert d. induction files as [|f files IH]; intros d Hnd Hall; cbn [remove_loop].
  - split; [done|]. intros name [].
  - apply NoDup_cons in Hnd as [Hf Hnd]. rewrite list_elem_of_In in Hf.
    pose proof (Hall f (or_introl eq_refl)) as Hr. rewrite Hr.
    set (d1 := with_entries d (delete f (entries_of d))).
    destruct (IH d1 Hnd) as [Hok Hgone].
    { intros g Hg. unfold d1. rewrite removable_after_delete; [|done|congruence].
      apply Hall. by right. }
    split; [done|]. intros name [<-|Hin]; [|by apply Hgone].
    destruct (remove_loop_frame files d1) as (_ & _ & _ & Hfr).
    destruct (Hfr f) as [He|[_ He]]; [|done]. rewrite He.
    apply removable_present in Hr as (_ & dir & data & Hd & _ & _).
    unfold d1. rewrite entries_with_entries, Hd. apply lookup_delete_eq.
Qed.

Lemma clear_cache_run max_files w :
  clear_cache max_files w =
  match cache_dir (w_disk w) with
  | None => (Return None, logged w [Ev_exists TTS_CACHE_DIR])
  | Some dir =>
      let w0 := logged w [Ev_exists TTS_CACHE_DIR; Ev_listdir TTS_CACHE_DIR] in
      let files := listed (w_disk w) in
      if negb (dir_readable dir)
      then (Return None, logged w0 [Ev_print Msg_clear_error])
      else if under_threshold max_files (length files) then (Return None, w0)
      else match for_each files remove_body w0 with
           | (Return _, w') => (Return None, logged w' [Ev_print (Msg_cleared (length files))])
           | (Raise _, w') => (Return None, logged w' [Ev_print Msg_clear_error])
           end
  end.
Proof.
  unfold clear_cache, os_path_exists, os_listdir, listed, entries_of, logged.
  run_monad. rewrite resolve_cache_dir.
  destruct (cache_dir (w_disk w)) as [dir|] eqn:Hd; cbn; [|reflexivity].
  rewrite ?Hd. rewrite <- !List.app_assoc. cbn [app].
  destruct (dir_readable dir); cbn; [|by rewrite <- !List.app_assoc].
  unfold under_threshold.
  destruct (match max_files with Some m => _ | None => false end); [reflexivity|].
  fold remove_body.
  change (fun filename => os_remove (os_path_join TTS_CACHE_DIR filename)) with remove_body.
  by destruct (for_each _ remove_body _) as [[[]|e] w'].
Qed.

(** ** Artifacts *)

Lemma filter_map_fst {A B} (f : A → bool) (l : list (A * B)) :
  List.filter f (map fst l) = map fst (List.filter (fun kv => f (fst kv)) l).
Proof.
  induction l as [|[a b] l IH]; cbn; [reflexivity|].
  destruct (f a); cbn; by rewrite IH.
Qed.

Lemma listed_artifacts d : listed d = map fst (artifacts d).
Proof. apply filter_map_fst. Qed.

Lemma in_listed d name :
  In name (listed d) ↔ is_mp3 name = true ∧ is_Some (entries_of d !! name).
Proof.
  rewrite listed_artifacts, in_map_iff. split.
  - intros ([k v] & <- & Hin). apply in_artifacts in Hin as [? ?]. cbn. eauto.
  - intros [Hm [v Hv]]. exists (name, v). split; [done|]. by apply in_artifacts.
Qed.

Lemma NoDup_listed d : NoDup (listed d).
Proof.
  unfold listed. apply NoDup_ListNoDup, List.NoDup_filter, NoDup_ListNoDup.
  exact (NoDup_fst_map_to_list (entries_of d)).
Qed.

Lemma file_name_plain s : file_name s = true → startswith s "/" = false ∧ s ≠ "".
Proof.
  unfold file_name, startswith. destruct s as [|a s]; [done|].
  cbn [no_slash strip_prefix].
  intros [_ [Ha _]%andb_prop]%andb_prop. split; [|done].
  rewrite Ascii.eqb_sym. by destruct (Ascii.eqb a "/").
Qed.

Lemma artifacts_nil d :
  (∀ name, is_mp3 name = true → entries_of d !! name = None) → artifacts d = [].
Proof.
  intros H. destruct (artifacts d) as [|[k v] l] eqn:E; [done|].
  assert (Hin : In (k, v) (artifacts d)) by (rewrite E; by left).
  apply in_artifacts in Hin as [Hm Hv]. rewrite (H k Hm) in Hv. done.
Qed.

(** Whatever [clear_cache] does, it returns [None], and an entry of the
    directory is afterwards as it was or, if named [*.mp3], gone. *)
Lemma clear_cache_frame max_files w :
  ∃ w', clear_cache max_files w = (Return None, w') ∧
        ∀ name, entries_of (w_disk w') !! name = entries_of (w_disk w) !! name ∨
                (is_mp3 name = true ∧ entries_of (w_disk w') !! name = None).
Proof.
  rewrite clear_cache_run. destruct (cache_dir (w_disk w)) as [dir|] eqn:Hd.
  2: { eexists. split; [reflexivity|]. by left. }
  cbv zeta. destruct (dir_readable dir); cbn [negb].
  2: { eexists. split; [reflexivity|]. by left. }
  destruct (under_threshold _ _).
  { eexists. split; [reflexivity|]. by left. }
  destruct (for_each_remove (listed (w_disk w))
              (logged w [Ev_exists TTS_CACHE_DIR; Ev_listdir TTS_CACHE_DIR]))
    as (evs & -> & _ & _).
  cbn [logged w_disk].
  destruct (remove_loop_frame (listed (w_disk w)) (w_disk w)) as (_ & _ & _ & Hfr).
  destruct (fst (remove_loop _ _)); (eexists; split; [reflexivity|]);
    intros name; cbn [logged w_disk]; (destruct (Hfr name) as [He|[Hin He]]; [by left|]);
    right; (split; [|done]); by apply in_listed in Hin as [? _].
Qed.

(** C6, as stated: the clearing operations would return a count. Every
    path of [clear_cache] returns [None]: with two artifacts in the
    directory an unconditional clear does not return 2. *)
Lemma clear_cache_returns_count_fails :
  ¬ (∀ max_files w dir,
       cache_dir (w_disk w) = Some dir →
       dir_readable dir = true → dir_writable dir = true →
       let n := length (artifacts (w_disk w)) in
       let r := clear_cache max_files w in
       if under_threshold max_files n
       then fst r = Return (Some 0) ∧ w_disk (snd r) = w_disk w
       else fst r = Return (Some (Z.of_nat n)) ∧ artifacts (w_disk (snd r)) = []).
Proof.
  intros H.
  specialize (H None (Samples.shelf true true) _ eq_refl eq_refl eq_refl).
  vm_compute in H. destruct H as [H _]. discriminate H.
Qed.

(** C6, amended. [clear_cache] returns [None] on every path. With a
    threshold that the number of artifacts does not exceed it leaves the
    disk as it is and prints nothing. Otherwise (no threshold, or more
    artifacts than it allows), in a writable directory whose artifacts are
    regular files, it removes every artifact, leaves the other entries,
    and prints the number removed. *)
Theorem clear_cache_semantics max_files w dir :
  cache_dir (w_disk w) = Some dir →
  dir_readable dir = true →
  let n := length (artifacts (w_disk w)) in
  ∃ w', clear_cache max_files w = (Return None, w') ∧
    if under_threshold max_files n
    then w' = logged w [Ev_exists TTS_CACHE_DIR; Ev_listdir TTS_CACHE_DIR]
    else
      dir_writable dir = true →
      well_named (w_disk w) →
      (∀ name node, In (name, node) (artifacts (w_disk w)) → ∃ data, node = File data) →
      artifacts (w_disk w') = [] ∧
      (∀ name, is_mp3 name = true → entries_of (w_disk w') !! name = None) ∧
      (∀ name, is_mp3 name = false →
               entries_of (w_disk w') !! name = entries_of (w_disk w) !! name) ∧
      ∃ t, w_trace w' = t ++ [Ev_print (Msg_cleared n)].
Proof.
  intros Hd Hr n. rewrite clear_cache_run, Hd. cbv zeta. rewrite Hr. cbn [negb].
  assert (Hn : length (listed (w_disk w)) = n).
  { rewrite listed_artifacts. apply length_map. }
  rewrite Hn. destruct (under_threshold max_files n).
  { eexists. split; reflexivity. }
  destruct (for_each_remove (listed (w_disk w))
              (logged w [Ev_exists TTS_CACHE_DIR; Ev_listdir TTS_CACHE_DIR]))
    as (evs & -> & _ & _).
  cbn [logged w_disk w_trace].
  destruct (remove_loop_frame (listed (w_disk w)) (w_disk w)) as (_ & _ & _ & Hfr).
  destruct (fst (remove_loop (listed (w_disk w)) (w_disk w))) eqn:Hok.
  - eexists. split; [reflexivity|]. cbn [logged w_disk w_trace].
    intros Hw Hwn Hfiles.
    destruct (remove_loop_all (listed (w_disk w)) (w_disk w) (NoDup_listed _)) as [_ Hgone].
    { intros f [Hm [node Hnode]]%in_listed.
      destruct (Hfiles f node) as [data ->]; [by apply in_artifacts|].
      destruct (file_name_plain f) as [Hs He]; [by apply (Hwn f _ Hnode)|].
      unfold removable. rewrite Hs, Hd, Hw. unfold entries_of in Hnode.
      rewrite Hd in Hnode. rewrite Hnode. cbn.
      destruct (String.eqb_spec f ""); done. }
    assert (Hmp3 : ∀ name, is_mp3 name = true →
              entries_of (snd (remove_loop (listed (w_disk w)) (w_disk w))) !! name = None).
    { intros name Hm. destruct (entries_of (w_disk w) !! name) as [node|] eqn:E.
      - apply Hgone, in_listed. rewrite E. eauto.
      - destruct (Hfr name) as [He|[_ He]]; [by rewrite He|done]. }
    split_and!; [by apply artifacts_nil|done| |by eexists].
    intros name Hm. destruct (Hfr name) as [He|[Hin _]]; [done|].
    apply in_listed in Hin as [? _]. congruence.
  - eexists. split; [reflexivity|]. intros Hw Hwn Hfiles. exfalso.
    destruct (remove_loop_all (listed (w_disk w)) (w_disk w) (NoDup_listed _)) as [Hok' _];
      [|congruence].
    intros f [Hm [node Hnode]]%in_listed.
    destruct (Hfiles f node) as [data ->]; [by apply in_artifacts|].
    destruct (file_name_plain f) as [Hs He]; [by apply (Hwn f _ Hnode)|].
    unfold removable. rewrite Hs, Hd, Hw. unfold entries_of in Hnode.
    rewrite Hd in Hnode. rewrite Hnode. cbn.
    destruct (String.eqb_spec f ""); done.
Qed.

Lemma artifacts_are_files d :
  forallb (fun kv => is_file (snd kv)) (artifacts d) = true →
  ∀ name node, In (name, node) (artifacts d) → ∃ data, node = File data.
Proof.
  intros H name node Hin. rewrite forallb_forall in H.
  specialize (H _ Hin). destruct node; [eauto|discriminate].
Qed.

Lemma clear_cache_semantics_witness :
  ∃ w', clear_cache None (Samples.shelf true true) = (Return None, w') ∧
        artifacts (w_disk w') = [] ∧
        (∀ name, is_mp3 name = true → entries_of (w_disk w') !! name = None) ∧
        (∀ name, is_mp3 name = false →
                 entries_of (w_disk w') !! name =
                 entries_of (w_disk (Samples.shelf true true)) !! name) ∧
        ∃ t, w_trace w' =
             t ++ [Ev_print (Msg_cleared (length (artifacts (w_disk (Samples.shelf true true)))))].
Proof.
  destruct (clear_cache_semantics None (Samples.shelf true true) _ eq_refl eq_refl)
    as (w' & Hrun & Hrest).
  exists w'. split; [exact Hrun|].
  cbv zeta in Hrest. change (under_threshold None _) with false in Hrest.
  cbv iota in Hrest. apply Hrest.
  - reflexivity.
  - apply (bool_decide_unpack _). vm_compute. reflexivity.
  - apply artifacts_are_files. vm_compute. reflexivity.
Defined.

(** ** [get_cache_stats] *)

Lemma getsize_run name node w :
  entries_of (w_disk w) !! name = Some node →
  getsize_body name w =
  (match stat_size (name, node) with Some z => Return z | None => Raise OSError end,
   logged w [Ev_getsize (os_path_join TTS_CACHE_DIR name)]).
Proof.
  intros Hn. unfold getsize_body, os_path_getsize, stat_size. run_monad.
  rewrite resolve_join. destruct (startswith name "/"); cbn; [reflexivity|].
  destruct name as [|a name]; cbn; [reflexivity|]. by rewrite Hn.
Qed.

Lemma map_M_getsize arts w :
  (∀ kv, In kv arts → entries_of (w_disk w) !! fst kv = Some (snd kv)) →
  ∃ evs,
    map_M getsize_body (map fst arts) w =
    (match sizes_of arts with Some zs => Return zs | None => Raise OSError end,
     logged w evs) ∧
    Forall (fun e => ∀ m, e ≠ Ev_print m) evs.
Proof.
  revert w. induction arts as [|[name node] arts IH]; intros w Hall.
  - exists []. unfold logged. rewrite app_nil_r. cbn. by destruct w.
  - cbn [map fst map_M sizes_of]. unfold mbind at 1, M_bind, bind.
    rewrite (getsize_run name node) by (apply (Hall (name, node)); by left).
    destruct (stat_size (name, node)) as [z|].
    + destruct (IH (logged w [Ev_getsize (os_path_join TTS_CACHE_DIR name)]))
        as (evs & Hrun & Hev).
      { intros kv Hin. apply Hall. by right. }
      unfold mbind, M_bind, bind. rewrite Hrun.
      exists (Ev_getsize (os_path_join TTS_CACHE_DIR name) :: evs).
      split; [|by constructor].
      unfold logged. cbn. rewrite <- List.app_assoc.
      by destruct (sizes_of arts).
    + eexists [_]. split; [reflexivity|]. by constructor.
Qed.

Lemma artifacts_lookup d kv :
  In kv (artifacts d) → entries_of d !! fst kv = Some (snd kv).
Proof. destruct kv as [k v]. by intros [_ ?]%in_artifacts. Qed.

Lemma get_cache_stats_run w :
  ∃ evs, get_cache_stats w = (Return (stats_value (w_disk w)), logged w evs) ∧
         (cache_dir (w_disk w) = None → evs = [Ev_exists TTS_CACHE_DIR]) ∧
         (∀ dir, cache_dir (w_disk w) = Some dir → dir_readable dir = false →
                 evs = [Ev_exists TTS_CACHE_DIR; Ev_listdir TTS_CACHE_DIR;
                        Ev_print Msg_stats_error]).
Proof.
  unfold get_cache_stats, stats_value, os_path_exists, os_listdir. run_monad.
  rewrite resolve_cache_dir.
  destruct (cache_dir (w_disk w)) as [dir|] eqn:Hd; cbn.
  2: { eexists. split_and!; [reflexivity|done|done]. }
  rewrite ?Hd. destruct (dir_readable dir) eqn:Hr; cbn.
  2: { eexists. unfold logged. split_and!; [by rewrite <- !List.app_assoc|done|done]. }
  assert (Hl : List.filter is_mp3 (map fst (map_to_list (dir_entries dir))) =
               map fst (artifacts (w_disk w))).
  { rewrite <- listed_artifacts. unfold listed, entries_of. by rewrite Hd. }
  rewrite Hl. change (fun f => os_path_getsize (os_path_join TTS_CACHE_DIR f)) with getsize_body.
  destruct (map_M_getsize (artifacts (w_disk w))
              (logged w [Ev_exists TTS_CACHE_DIR; Ev_listdir TTS_CACHE_DIR]))
    as (evs & Hrun & _).
  { intros kv Hin. by apply artifacts_lookup. }
  unfold logged in Hrun. cbn in Hrun. rewrite <- List.app_assoc in Hrun. cbn in Hrun.
  rewrite <- !List.app_assoc. cbn [app]. rewrite Hrun.
  rewrite length_map.
  destruct (sizes_of (artifacts (w_disk w))); cbn; eexists; unfold logged;
    (split_and!; [by rewrite <- ?List.app_assoc|done|congruence]).
Qed.

Lemma fold_left_add (l : list Z) (a : Z) : fold_left Z.add l a = a + sum l.
Proof.
  unfold sum. revert a. induction l as [|x l IH]; intros a; cbn [fold_left]; [lia|].
  rewrite (IH (a + x)), (IH (0 + x)). lia.
Qed.

Lemma sum_cons (x : Z) (l : list Z) : sum (x :: l) = x + sum l.
Proof. unfold sum at 1. cbn. apply fold_left_add. Qed.

Lemma node_size_nonneg (n : node) : 0 <= node_size n.
Proof. destruct n; cbn; lia. Qed.

Lemma sum_sizes_nonneg (l : list (string * node)) :
  0 <= sum (map (fun kv => node_size (snd kv)) l).
Proof.
  induction l as [|kv l IH]; cbn [map]; [done|].
  rewrite sum_cons. pose proof (node_size_nonneg (snd kv)). lia.
Qed.

Lemma sizes_of_plain (l : list (string * node)) :
  (∀ kv, In kv l → startswith (fst kv) "/" = false ∧ fst kv ≠ "") →
  sizes_of l = Some (map (fun kv => node_size (snd kv)) l).
Proof.
  induction l as [|kv l IH]; intros H; cbn [sizes_of map]; [done|].
  destruct (H kv (or_introl eq_refl)) as [Hs He].
  unfold stat_size. rewrite Hs. destruct (String.eqb_spec (fst kv) ""); [done|].
  cbn. rewrite IH; [done|]. intros kv' Hin. apply H. by right.
Qed.

Lemma div_half_even_nearest (a b : Z) :
  0 < b →
  let q := PyFloat.div_half_even a b in
  2 * Z.abs (q * b - a) <= b ∧ (2 * Z.abs (q * b - a) = b → Z.even q = true).
Proof.
  intros Hb. unfold PyFloat.div_half_even. cbv zeta.
  pose proof (Z.div_mod a b ltac:(lia)) as Hdm.
  pose proof (Z.mod_pos_bound a b Hb) as Hr.
  set (d := a / b) in *. set (r := a mod b) in *. clearbody d r.
  destruct (Z.ltb_spec (2 * r) b); [split; [lia|intros; lia]|].
  destruct (Z.ltb_spec b (2 * r)); [split; [lia|intros; lia]|].
  destruct (Z.even d) eqn:Hev; [split; [lia|done]|].
  split; [lia|]. intros _. rewrite Z.even_add, Hev. reflexivity.
Qed.

Lemma stats_megabytes (total : Z) :
  0 <= total < 2 ^ 53 →
  PyFloat.round2 (PyFloat.true_div_pow2 total 20) =
  PyFloat.div_half_even (100 * total) (2 ^ 20).
Proof.
  intros [H0 H53]. unfold PyFloat.true_div_pow2.
  assert (Hlog : Z.log2 total - 52 <= 0).
  { destruct (Z.eq_dec total 0) as [->|Hne]; [cbn; lia|].
    assert (Z.log2 total < 53) by (apply Z.log2_lt_pow2; lia). lia. }
  destruct (Z.leb_spec (Z.log2 total - 52) 0); [|lia].
  unfold PyFloat.round2. reflexivity.
Qed.

(** C7. In a readable directory of file names, [get_cache_stats] returns
    as [file_count] the number of artifacts and as [total_size_mb] the
    hundredth of a megabyte nearest to the sum of their sizes (ties to the
    even hundredth), for totals a binary64 holds exactly; the disk is not
    changed. *)
Theorem stats_count_and_size w dir :
  cache_dir (w_disk w) = Some dir →
  dir_readable dir = true →
  well_named (w_disk w) →
  total_bytes (w_disk w) < 2 ^ 53 →
  ∃ w' q,
    get_cache_stats w =
    (Return (Stats (Z.of_nat (length (artifacts (w_disk w)))) q), w') ∧
    w_disk w' = w_disk w ∧
    2 * Z.abs (q * 2 ^ 20 - 100 * total_bytes (w_disk w)) <= 2 ^ 20 ∧
    (2 * Z.abs (q * 2 ^ 20 - 100 * total_bytes (w_disk w)) = 2 ^ 20 → Z.even q = true).
Proof.
  intros Hd Hr Hwn Htot.
  destruct (get_cache_stats_run w) as (evs & Hrun & _).
  unfold stats_value in Hrun. rewrite Hd, Hr in Hrun.
  rewrite sizes_of_plain in Hrun.
  2: { intros [k v] [_ Hin]%in_artifacts. apply file_name_plain, (Hwn k v Hin). }
  fold (total_bytes (w_disk w)) in Hrun.
  rewrite stats_megabytes in Hrun
    by (split; [apply sum_sizes_nonneg|exact Htot]).
  eexists _, _. split; [exact Hrun|]. split; [reflexivity|].
  apply div_half_even_nearest. lia.
Qed.

Lemma stats_count_and_size_witness :
  ∃ w' q,
    get_cache_stats (Samples.shelf true true) =
    (Return (Stats (Z.of_nat (length (artifacts (w_disk (Samples.shelf true true))))) q), w') ∧
    w_disk w' = w_disk (Samples.shelf true true) ∧
    2 * Z.abs (q * 2 ^ 20 - 100 * total_bytes (w_disk (Samples.shelf true true))) <= 2 ^ 20 ∧
    (2 * Z.abs (q * 2 ^ 20 - 100 * total_bytes (w_disk (Samples.shelf true true))) = 2 ^ 20 →
     Z.even q = true).
Proof.
  apply (stats_count_and_size (Samples.shelf true true) _ eq_refl eq_refl).
  - apply (bool_decide_unpack _). vm_compute. reflexivity.
  - vm_compute. reflexivity.
Defined.

(** ** Failures of the storage *)

(** C8, as stated: a failure of the storage during a cache operation would
    give an outcome that differs from the one of an empty or missing
    cache. With a directory that cannot be listed, [get_cache_stats]
    returns the very dictionary it returns when the directory is missing
    or empty, and [clear_cache] returns [None] as it does then. *)
Lemma storage_failure_distinguishable_fails :
  ¬ (∀ w dir,
       cache_dir (w_disk w) = Some dir →
       dir_readable dir = false →
       (fst (get_cache_stats w) ≠ fst (get_cache_stats Samples.fresh) ∧
        fst (get_cache_stats w) ≠ fst (get_cache_stats Samples.empty_dir)) ∧
       (fst (clear_cache None w) ≠ fst (clear_cache None Samples.fresh) ∧
        fst (clear_cache None w) ≠ fst (clear_cache None Samples.empty_dir))).
Proof.
  intros H.
  destruct (H (Samples.shelf false true) _ eq_refl eq_refl) as [[H1 _] _].
  apply H1. vm_compute. reflexivity.
Qed.

(** C8, amended. No failure of the storage leaves [get_cache_stats] or
    [clear_cache]: both always return, the second always [None]. When the
    directory cannot be listed, [get_cache_stats] returns the zero
    dictionary, the value of an empty or missing cache, and [clear_cache]
    removes nothing; when a removal fails, [clear_cache] stops there. In
    each case the only sign of the failure is the message printed last. *)
Theorem storage_failures_are_swallowed max_files w :
  (∃ s w', get_cache_stats w = (Return s, w')) ∧
  (∃ w', clear_cache max_files w = (Return None, w')) ∧
  (∀ dir, cache_dir (w_disk w) = Some dir → dir_readable dir = false →
     get_cache_stats w =
     (Return (Stats 0 0),
      logged w [Ev_exists TTS_CACHE_DIR; Ev_listdir TTS_CACHE_DIR; Ev_print Msg_stats_error]) ∧
     clear_cache max_files w =
     (Return None,
      logged w [Ev_exists TTS_CACHE_DIR; Ev_listdir TTS_CACHE_DIR; Ev_print Msg_clear_error])) ∧
  (readable (w_disk w) = true →
   under_threshold max_files (length (listed (w_disk w))) = false →
   fst (remove_loop (listed (w_disk w)) (w_disk w)) = false →
   ∃ w' t, clear_cache max_files w = (Return None, w') ∧
           w_trace w' = t ++ [Ev_print Msg_clear_error]).
Proof.
  split_and!.
  - destruct (get_cache_stats_run w) as (evs & Hrun & _). eauto.
  - destruct (clear_cache_frame max_files w) as (w' & Hrun & _). eauto.
  - intros dir Hd Hr. split.
    + destruct (get_cache_stats_run w) as (evs & Hrun & _ & Hev).
      rewrite Hrun, (Hev dir Hd Hr). unfold stats_value. by rewrite Hd, Hr.
    + rewrite clear_cache_run, Hd. cbv zeta. rewrite Hr. unfold logged. cbn.
      by rewrite <- List.app_assoc.
  - unfold readable. intros Hr Hu Hf. rewrite clear_cache_run.
    destruct (cache_dir (w_disk w)) as [dir|]; [|discriminate].
    cbv zeta. rewrite Hr, Hu. cbn [negb].
    destruct (for_each_remove (listed (w_disk w))
                (logged w [Ev_exists TTS_CACHE_DIR; Ev_listdir TTS_CACHE_DIR]))
      as (evs & -> & _ & _).
    cbn [logged w_disk] in *. rewrite Hf. eexists _, _. split; reflexivity.
Qed.

Lemma storage_failures_are_swallowed_witness :
  (get_cache_stats (Samples.shelf false true) =
   (Return (Stats 0 0),
    logged (Samples.shelf false true)
      [Ev_exists TTS_CACHE_DIR; Ev_listdir TTS_CACHE_DIR; Ev_print Msg_stats_error]) ∧
   clear_cache None (Samples.shelf false true) =
   (Return None,
    logged (Samples.shelf false true)
      [Ev_exists TTS_CACHE_DIR; Ev_listdir TTS_CACHE_DIR; Ev_print Msg_clear_error])) ∧
  (∃ w' t, clear_cache None (Samples.shelf true false) = (Return None, w') ∧
           w_trace w' = t ++ [Ev_print Msg_clear_error]).
Proof.
  split.
  - apply (proj1 (proj2 (proj2 (storage_failures_are_swallowed None
                                  (Samples.shelf false true)))) _ eq_refl eq_refl).
  - apply (proj2 (proj2 (proj2 (storage_failures_are_swallowed None
                                  (Samples.shelf true false)))));
      vm_compute; reflexivity.
Defined.

(** ** Entries are never rewritten *)

Lemma text_to_speech_keeps svc text language slow w name node :
  entries_of (w_disk w) !! name = Some node →
  entries_of (w_disk (snd (text_to_speech svc text language slow w))) !! name = Some node.
Proof.
  intros Hn. rewrite text_to_speech_run.
  destruct (is_blank text) eqn:Hb; [done|].
  destruct (can_prepare (w_disk w)) eqn:Hp; [|done]. cbn [negb].
  destruct (Utf8.encode text) as [data|] eqn:He;
    [|cbn; by rewrite entries_prepared].
  cbv zeta. destruct (stored w (Sha256.hexdigest data)) as [node'|] eqn:Hs; cbn [present].
  { cbn. by rewrite entries_prepared. }
  destruct (text_to_speech_miss svc text language slow w data Hb He Hp Hs)
    as (dir & Hd & Hm & Hw & Hrun).
  rewrite text_to_speech_run, Hb, Hp, He in Hrun. cbn [negb] in Hrun.
  cbv zeta in Hrun. rewrite Hs in Hrun. cbn [present] in Hrun. rewrite Hrun.
  assert (Hne : Sha256.hexdigest data +:+ ".mp3" ≠ name).
  { intros <-. unfold stored in Hs. congruence. }
  destruct (svc (synth_calls w) text language slow); try destruct (can_store (w_disk w));
    cbn [snd w_disk]; rewrite ?entries_set_entries, ?entries_prepared;
    try done; by rewrite lookup_insert_ne.
Qed.

Lemma text_to_speech_bytes_disk svc text language slow w :
  w_disk (snd (text_to_speech_bytes svc text language slow w)) =
  w_disk (snd (text_to_speech svc text language slow w)).
Proof.
  unfold text_to_speech_bytes. unfold mbind at 1, M_bind, bind.
  destruct (text_to_speech svc text language slow w) as [[[path|]|e] w1]; try done.
  destruct (falsy (Some path)); [done|].
  unfold os_path_exists, read_file. run_monad.
  destruct (resolve path) as [|name|]; cbn; try done;
    [by destruct (present (cache_dir (w_disk w1)))|].
  destruct (entries_of (w_disk w1) !! name) as [[|]|] eqn:E; cbn; by rewrite ?E.
Qed.

(** C9. Whatever operation of the module runs, an entry of the cache
    directory is afterwards what it was, bytes included, unless the
    operation is [clear_cache] and the entry, named [*.mp3], is gone. No
    operation rewrites an entry, and only clearing removes one. *)
Theorem entries_are_immutable svc op w name node :
  entries_of (w_disk w) !! name = Some node →
  entries_of (w_disk (run svc op w)) !! name = Some node ∨
  (is_clear op = true ∧ is_mp3 name = true ∧
   entries_of (w_disk (run svc op w)) !! name = None).
Proof.
  intros Hn. destruct op as [|text|text language slow|text language slow|max_files|];
    cbn [run is_clear].
  - left. rewrite ensure_cache_dir_run. cbv zeta.
    destruct (_ || _); cbn; by rewrite ?entries_prepared.
  - left. unfold get_text_hash. destruct (Utf8.encode text); by run_monad.
  - left. by apply text_to_speech_keeps.
  - left. rewrite text_to_speech_bytes_disk. by apply text_to_speech_keeps.
  - destruct (clear_cache_frame max_files w) as (w' & -> & Hfr). cbn [snd].
    destruct (Hfr name) as [->|[Hm He]]; [by left|by right].
  - left. destruct (get_cache_stats_run w) as (evs & -> & _). done.
Qed.

Lemma entries_are_immutable_witness :
  let w := Samples.shelf true true in
  let op := Op_text_to_speech Samples.hello Samples.en false in
  entries_of (w_disk (run Samples.answering op w)) !! "a.mp3" = Some (File Samples.mp3_bytes) ∨
  (is_clear op = true ∧ is_mp3 "a.mp3" = true ∧
   entries_of (w_disk (run Samples.answering op w)) !! "a.mp3" = None).
Proof.
  intros w op. apply entries_are_immutable. vm_compute. reflexivity.
Defined.

(** ** Only [*.mp3] entries count *)

Lemma sum_permutation (l1 l2 : list Z) : Permutation l1 l2 → sum l1 = sum l2.
Proof.
  induction 1 as [|x l1 l2 _ IH|x y l|l1 l2 l3 _ IH1 _ IH2].
  - reflexivity.
  - by rewrite !sum_cons, IH.
  - rewrite !sum_cons. lia.
  - congruence.
Qed.

Lemma sizes_of_forallb (l : list (string * node)) :
  sizes_of l =
  if forallb statable l then Some (map (fun kv => node_size (snd kv)) l) else None.
Proof.
  induction l as [|kv l IH]; cbn [sizes_of forallb map]; [done|].
  rewrite IH. unfold statable, stat_size.
  destruct (_ || _); cbn; [done|]. by destruct (forallb _ l).
Qed.

Lemma forallb_permutation {A} (f : A → bool) (l1 l2 : list A) :
  Permutation l1 l2 → forallb f l1 = forallb f l2.
Proof.
  induction 1 as [|x l1 l2 _ IH|x y l|l1 l2 l3 _ IH1 _ IH2]; cbn.
  - reflexivity.
  - by rewrite IH.
  - by destruct (f x), (f y).
  - congruence.
Qed.

Lemma NoDup_artifacts d : NoDup (artifacts d).
Proof.
  unfold artifacts. apply NoDup_ListNoDup, List.NoDup_filter, NoDup_ListNoDup.
  apply NoDup_map_to_list.
Qed.

(** Disks whose directories agree on the entries named [*.mp3] hold the
    same artifacts. *)
Lemma artifacts_permutation d1 d2 :
  (∀ name, is_mp3 name = true → entries_of d1 !! name = entries_of d2 !! name) →
  Permutation (artifacts d1) (artifacts d2).
Proof.
  intros H. apply NoDup_Permutation; [apply NoDup_artifacts..|].
  intros [k v]. rewrite !list_elem_of_In, !in_artifacts.
  split; intros [Hm Hv]; (split; [done|]); [rewrite <- H|rewrite H]; done.
Qed.

Lemma stats_value_agree d1 d2 :
  readable d1 = readable d2 →
  (∀ name, is_mp3 name = true → entries_of d1 !! name = entries_of d2 !! name) →
  stats_value d1 = stats_value d2.
Proof.
  intros Hr Hm. pose proof (artifacts_permutation d1 d2 Hm) as Hp.
  pose proof (sum_permutation _ _ (Permutation_map (fun kv => node_size (snd kv)) Hp))
    as Hsum.
  unfold stats_value, readable in *. rewrite !sizes_of_forallb.
  rewrite (forallb_permutation statable _ _ Hp), (Permutation_length Hp).
  destruct (forallb statable (artifacts d2)); rewrite ?Hsum;
    destruct (cache_dir d1) as [dir1|], (cache_dir d2) as [dir2|]; rewrite ?Hr; try done;
    rewrite <- ?Hr; try done; by destruct (dir_readable dir1).
Qed.

(** C10. [clear_cache] leaves every entry whose name does not end in
    [.mp3] as it was; the dictionary [get_cache_stats] returns depends on
    the entries named [*.mp3] only (disks that agree on them, and on
    whether the directory can be listed, get the same); and without a
    cache directory [clear_cache] returns at once and [get_cache_stats]
    returns the zero dictionary, neither raising. *)
Theorem only_mp3_entries_count max_files w :
  (∀ name, is_mp3 name = false →
     entries_of (w_disk (snd (clear_cache max_files w))) !! name =
     entries_of (w_disk w) !! name) ∧
  (∀ w2, readable (w_disk w) = readable (w_disk w2) →
     (∀ name, is_mp3 name = true →
        entries_of (w_disk w) !! name = entries_of (w_disk w2) !! name) →
     fst (get_cache_stats w) = fst (get_cache_stats w2)) ∧
  (cache_dir (w_disk w) = None →
   clear_cache max_files w = (Return None, logged w [Ev_exists TTS_CACHE_DIR]) ∧
   get_cache_stats w = (Return (Stats 0 0), logged w [Ev_exists TTS_CACHE_DIR])).
Proof.
  split_and!.
  - intros name Hm. destruct (clear_cache_frame max_files w) as (w' & -> & Hfr).
    cbn [snd]. destruct (Hfr name) as [He|[Hm' _]]; [done|congruence].
  - intros w2 Hr Hm.
    destruct (get_cache_stats_run w) as (evs & -> & _).
    destruct (get_cache_stats_run w2) as (evs2 & -> & _).
    cbn [fst]. f_equal. by apply stats_value_agree.
  - intros Hd. split.
    + by rewrite clear_cache_run, Hd.
    + destruct (get_cache_stats_run w) as (evs & -> & Hev & _).
      rewrite (Hev Hd). unfold stats_value. by rewrite Hd.
Qed.

Lemma only_mp3_entries_count_witness :
  (entries_of (w_disk (snd (clear_cache None (Samples.shelf true true)))) !! "notes.txt" =
   entries_of (w_disk (Samples.shelf true true)) !! "notes.txt") ∧
  fst (get_cache_stats (Samples.shelf true true)) = fst (get_cache_stats Samples.other_shelf) ∧
  (clear_cache None Samples.fresh = (Return None, logged Samples.fresh [Ev_exists TTS_CACHE_DIR]) ∧
   get_cache_stats Samples.fresh =
   (Return (Stats 0 0), logged Samples.fresh [Ev_exists TTS_CACHE_DIR])).
Proof.
  split; [|split].
  - apply (proj1 (only_mp3_entries_count None (Samples.shelf true true))).
    vm_compute. reflexivity.
  - apply (proj1 (proj2 (only_mp3_entries_count None (Samples.shelf true true)))).
    + reflexivity.
    + intros name Hm. unfold Samples.shelf, Samples.other_shelf, entries_of. cbn.
      unfold Samples.listing, Samples.other_listing.
      destruct (decide (name = "a.mp3")) as [->|Ha]; [done|].
      destruct (decide (name = "b.mp3")) as [->|Hb]; [done|].
      destruct (decide (name = "notes.txt")) as [->|Hn]; [discriminate Hm|].
      destruct (decide (name = "cover.png")) as [->|Hc]; [discriminate Hm|].
      destruct (decide (name = "mp3")) as [->|Hx]; [discriminate Hm|].
      rewrite !lookup_insert_ne by done. by rewrite !lookup_singleton_ne.
  - apply (proj2 (proj2 (only_mp3_entries_count None Samples.fresh))). reflexivity.
Defined.

(** ** The names in the directory stay file names *)

Lemma no_slash_app (s t : string) : no_slash (s +:+ t) = no_slash s && no_slash t.
Proof.
  induction s as [|a s IH]; [reflexivity|].
  rewrite append_cons. cbn [no_slash]. by rewrite IH, andb_assoc.
Qed.

Lemma hex_of_word_no_slash (n : nat) (w : Z) : no_slash (Sha256.hex_of_word n w) = true.
Proof.
  induction n as [|n IH]; [reflexivity|].
  cbn [Sha256.hex_of_word no_slash]. rewrite IH, andb_true_r.
  pose proof (hex_digit_not_slash (Z.shiftr w (4 * Z.of_nat n))) as Hc.
  destruct (Ascii.eqb_spec (Sha256.hex_digit (Z.land (Z.shiftr w (4 * Z.of_nat n)) 0xf)) "/");
    done.
Qed.

Lemma hexdigest_no_slash (data : bytes) : no_slash (Sha256.hexdigest data) = true.
Proof.
  unfold Sha256.hexdigest. induction (Sha256.digest data) as [|w ws IH]; [reflexivity|].
  cbn [fold_right]. by rewrite no_slash_app, hex_of_word_no_slash, IH.
Qed.

Lemma cache_filename_is_file_name (data : bytes) :
  file_name (Sha256.hexdigest data +:+ ".mp3") = true.
Proof.
  unfold file_name. rewrite no_slash_app, hexdigest_no_slash, andb_true_r.
  destruct (cache_filename_plain data) as [_ Hne].
  by destruct (String.eqb_spec (Sha256.hexdigest data +:+ ".mp3") "").
Qed.

(** The entries [text_to_speech] leaves: those it found, with at most one
    file more, named after the digest of the text. *)
Lemma text_to_speech_entries svc text language slow w :
  let m' := entries_of (w_disk (snd (text_to_speech svc text language slow w))) in
  m' = entries_of (w_disk w) ∨
  ∃ data content,
    Utf8.encode text = Some data ∧
    m' = <[Sha256.hexdigest data +:+ ".mp3" := File content]> (entries_of (w_disk w)).
Proof.
  cbv zeta. rewrite text_to_speech_run.
  destruct (is_blank text) eqn:Hb; [by left|].
  destruct (can_prepare (w_disk w)) eqn:Hp; [|by left]. cbn [negb].
  destruct (Utf8.encode text) as [data|] eqn:He;
    [|left; cbn; by rewrite entries_prepared].
  cbv zeta. destruct (stored w (Sha256.hexdigest data)) as [node'|] eqn:Hs; cbn [present].
  { left. cbn. by rewrite entries_prepared. }
  destruct (text_to_speech_miss svc text language slow w data Hb He Hp Hs)
    as (dir & Hd & Hm & Hw & Hrun).
  rewrite text_to_speech_run, Hb, Hp, He in Hrun. cbn [negb] in Hrun.
  cbv zeta in Hrun. rewrite Hs in Hrun. cbn [present] in Hrun. rewrite Hrun.
  destruct (svc (synth_calls w) text language slow); try destruct (can_store (w_disk w));
    cbn [snd w_disk]; rewrite ?entries_set_entries, ?entries_prepared; eauto.
Qed.

(** Every operation of the module keeps the directory well named: the
    only names it adds are digests followed by [.mp3]. *)
Theorem well_named_preserved svc op w :
  well_named (w_disk w) → well_named (w_disk (run svc op w)).
Proof.
  unfold well_named. intros Hwn.
  assert (Htts : ∀ text language slow,
            map_Forall (fun name _ => file_name name = true)
              (entries_of (w_disk (snd (text_to_speech svc text language slow w))))).
  { intros text language slow.
    destruct (text_to_speech_entries svc text language slow w)
      as [->|(data & content & _ & ->)]; [done|].
    apply map_Forall_insert_2; [apply cache_filename_is_file_name|done]. }
  destruct op as [|text|text language slow|text language slow|max_files|]; cbn [run].
  - rewrite ensure_cache_dir_run. cbv zeta.
    destruct (_ || _); cbn; by rewrite ?entries_prepared.
  - unfold get_text_hash. destruct (Utf8.encode text); by run_monad.
  - apply Htts.
  - rewrite text_to_speech_bytes_disk. apply Htts.
  - destruct (clear_cache_frame max_files w) as (w' & -> & Hfr). cbn [snd].
    intros name node Hn. destruct (Hfr name) as [He|[_ He]]; [|congruence].
    rewrite He in Hn. by apply (Hwn name node).
  - destruct (get_cache_stats_run w) as (evs & -> & _). done.
Qed.

(** * Further properties of [tts.py] *)

(** ** The shape of keys and locators *)

Lemma compress_length (h block : list Z) :
  length h = 8%nat → length (Sha256.compress h block) = 8%nat.
Proof. intros H. unfold Sha256.compress. rewrite length_zip_with. cbn. lia. Qed.

Lemma blocks_length (n : nat) (h bs : list Z) :
  length h = 8%nat → length (Sha256.blocks n h bs) = 8%nat.
Proof.
  revert h bs. induction n as [|n IH]; intros h bs H; cbn [Sha256.blocks]; [done|].
  by apply IH, compress_length.
Qed.

Lemma digest_length (data : bytes) : length (Sha256.digest data) = 8%nat.
Proof. unfold Sha256.digest. by apply blocks_length. Qed.

Lemma hex_digit_lower (x : Z) : is_lower_hex (Sha256.hex_digit (Z.land x 0xf)) = true.
Proof.
  assert (H : 0 <= Z.land x 0xf < 16).
  { change 0xf with (Z.ones 4). rewrite Z.land_ones by lia.
    apply Z.mod_pos_bound. lia. }
  set (y := Z.land x 0xf) in *. clearbody y.
  assert (Hy : y = 0 ∨ y = 1 ∨ y = 2 ∨ y = 3 ∨ y = 4 ∨ y = 5 ∨ y = 6 ∨ y = 7 ∨
               y = 8 ∨ y = 9 ∨ y = 10 ∨ y = 11 ∨ y = 12 ∨ y = 13 ∨ y = 14 ∨ y = 15)
    by lia.
  repeat (destruct Hy as [-> | Hy]; [reflexivity|]). by subst y.
Qed.

Lemma hex_of_word_shape (n : nat) (w : Z) :
  String.length (Sha256.hex_of_word n w) = n ∧
  forallb is_lower_hex (list_ascii_of_string (Sha256.hex_of_word n w)) = true.
Proof.
  induction n as [|n [IH1 IH2]]; [done|].
  cbn [Sha256.hex_of_word String.length list_ascii_of_string forallb].
  by rewrite IH1, IH2, hex_digit_lower.
Qed.

Lemma string_length_app (s t : string) :
  String.length (s +:+ t) = (String.length s + String.length t)%nat.
Proof. induction s as [|a s IH]; [done|]. rewrite append_cons. cbn. by rewrite IH. Qed.

Lemma list_ascii_app (s t : string) :
  list_ascii_of_string (s +:+ t) = list_ascii_of_string s ++ list_ascii_of_string t.
Proof. induction s as [|a s IH]; [done|]. rewrite append_cons. cbn. by rewrite IH. Qed.

Lemma hexdigest_words (ws : list Z) :
  let h := fold_right (fun w s => Sha256.hex_of_word 8 w +:+ s) EmptyString ws in
  String.length h = (8 * length ws)%nat ∧
  forallb is_lower_hex (list_ascii_of_string h) = true.
Proof.
  cbv zeta. induction ws as [|w ws [IH1 IH2]]; [done|].
  cbn [fold_right length]. destruct (hex_of_word_shape 8 w) as [H1 H2].
  rewrite string_length_app, list_ascii_app, forallb_app, H1, H2, IH1, IH2.
  split; [lia|done].
Qed.

(** X1. The key of a text, when it has one, is made of exactly 64 digits
    among [0-9a-f]; a path [text_to_speech] returns is [tts_cache/]
    followed by such a key and [.mp3]. *)
Theorem locator_shape svc text language slow w p w' :
  text_to_speech svc text language slow w = (Return (Some p), w') →
  ∃ h, text_hash text = Some h ∧
       String.length h = 64%nat ∧
       forallb is_lower_hex (list_ascii_of_string h) = true ∧
       p = "tts_cache/" +:+ h +:+ ".mp3".
Proof.
  intros H. apply text_to_speech_success in H as (data & node & _ & He & -> & _ & _).
  exists (Sha256.hexdigest data). unfold text_hash. rewrite He.
  destruct (hexdigest_words (Sha256.digest data)) as [H1 H2].
  rewrite digest_length in H1. split_and!; try done.
  unfold cache_path_of. apply join_cache_dir, cache_filename_plain.
Qed.

Lemma locator_shape_witness :
  ∃ h, text_hash Samples.hello = Some h ∧
       String.length h = 64%nat ∧
       forallb is_lower_hex (list_ascii_of_string h) = true ∧
       "tts_cache/185f8db32271fe25f561a6fc938b2e264306ec304eda518007d1764826381969.mp3" =
       "tts_cache/" +:+ h +:+ ".mp3".
Proof.
  apply (locator_shape Samples.answering Samples.hello Samples.en false Samples.fresh _
           (snd (text_to_speech Samples.answering Samples.hello Samples.en false Samples.fresh))).
  vm_compute. reflexivity.
Defined.

(** ** What [text_to_speech] lets through *)

Lemma encode_char_none (c : codepoint) :
  Utf8.encode_char c = None ↔ unencodable c = true.
Proof.
  unfold Utf8.encode_char, unencodable.
  destruct (N.ltb_spec c 0x80); [destruct (N.leb_spec 0xD800 c), (N.leb_spec 0x110000 c);
                                   cbn; split; (done || lia)|].
  destruct (N.ltb_spec c 0x800); [destruct (N.leb_spec 0xD800 c), (N.leb_spec 0x110000 c);
                                    cbn; split; (done || lia)|].
  destruct (N.leb_spec 0xD800 c), (N.leb_spec c 0xDFFF), (N.ltb_spec c 0x10000),
    (N.ltb_spec c 0x110000), (N.leb_spec 0x110000 c); cbn; split; (done || lia).
Qed.

Lemma encode_none (text : pystr) :
  Utf8.encode text = None ↔ existsb unencodable text = true.
Proof.
  induction text as [|c text IH]; cbn [Utf8.encode existsb]; [done|].
  destruct (Utf8.encode_char c) as [b|] eqn:Hc.
  - assert (unencodable c = false) as ->.
    { destruct (unencodable c) eqn:E; [|done]. apply encode_char_none in E. congruence. }
    cbn. rewrite <- IH. by destruct (Utf8.encode text).
  - apply encode_char_none in Hc. rewrite Hc. done.
Qed.

Lemma text_to_speech_returns svc text language slow w data :
  is_blank text = false →
  can_prepare (w_disk w) = true →
  Utf8.encode text = Some data →
  ∃ o w' evs,
    text_to_speech svc text language slow w = (Return o, w') ∧
    w_trace w' = w_trace w ++ ensure_events (w_disk w) ++ evs ∧
    present (cache_dir (w_disk w')) = true.
Proof.
  intros Hb Hp He.
  destruct (prepared_dir _ Hp) as (dir0 & Hd0 & _ & _).
  destruct (stored w (Sha256.hexdigest data)) as [node|] eqn:Hs.
  - rewrite text_to_speech_run, Hb, Hp, He. cbn [negb]. cbv zeta. rewrite Hs. cbn [present].
    eexists _, _, _. split_and!; [reflexivity|reflexivity|]. cbn. by rewrite Hd0.
  - destruct (text_to_speech_miss svc text language slow w data Hb He Hp Hs)
      as (dir & Hd & Hm & Hw & Hrun).
    cbv zeta in Hrun. rewrite Hrun.
    destruct (svc (synth_calls w) text language slow); try destruct (can_store (w_disk w));
      eexists _, _, _; (split_and!; [reflexivity| |]);
      cbn [w_trace w_disk set_entries cache_dir present]; rewrite ?Hd0;
      try done; by rewrite <- ?List.app_assoc.
Qed.

(** X2. The exceptions that leave [text_to_speech] are exactly two.
    [UnicodeEncodeError]: the text is not blank, the directory is there or
    was created, and the text holds a lone surrogate. [OSError]: the text
    is not blank and the directory is missing and cannot be created. What
    the backend raises never gets out. *)
Theorem text_to_speech_raises svc text language slow w :
  let r := fst (text_to_speech svc text language slow w) in
  (r = Raise UnicodeEncodeError ↔
   is_blank text = false ∧ can_prepare (w_disk w) = true ∧ existsb unencodable text = true) ∧
  (r = Raise OSError ↔ is_blank text = false ∧ can_prepare (w_disk w) = false) ∧
  r ≠ Raise gTTSError.
Proof.
  cbv zeta. rewrite <- encode_none.
  destruct (is_blank text) eqn:Hb.
  { rewrite text_to_speech_run, Hb. cbn. split_and!; try done; split; intuition (discriminate || congruence). }
  destruct (can_prepare (w_disk w)) eqn:Hp.
  2: { rewrite text_to_speech_run, Hb, Hp. cbn. split_and!; try done; split; intuition (discriminate || congruence). }
  destruct (Utf8.encode text) as [data|] eqn:He.
  2: { rewrite text_to_speech_run, Hb, Hp, He. cbn. split_and!; try done; split; intuition (discriminate || congruence). }
  destruct (text_to_speech_returns svc text language slow w data Hb Hp He)
    as (o & w' & evs & -> & _). cbn.
  split_and!; try done; split; intuition (discriminate || congruence).
Qed.

(** X3. A text that is not blank always sends [text_to_speech] to the
    disk: the first thing recorded is the existence test of [tts_cache].
    Whenever the directory is there or can be created, it exists when the
    call ends, even if the call returns [None] or raises. *)
Theorem nonblank_text_prepares_directory svc text language slow w :
  is_blank text = false →
  let w' := snd (text_to_speech svc text language slow w) in
  (∃ evs, w_trace w' = w_trace w ++ Ev_exists TTS_CACHE_DIR :: evs) ∧
  (can_prepare (w_disk w) = true → present (cache_dir (w_disk w')) = true).
Proof.
  intros Hb. cbv zeta.
  assert (Hev : ∀ evs, ∃ evs', ensure_events (w_disk w) ++ evs = Ev_exists TTS_CACHE_DIR :: evs').
  { intros evs. unfold ensure_events. destruct (cache_dir (w_disk w)); cbn; eauto. }
  destruct (can_prepare (w_disk w)) eqn:Hp.
  2: { rewrite text_to_speech_run, Hb, Hp. cbn. split; [|done].
       destruct (Hev []) as [evs' H]. rewrite app_nil_r in H. rewrite H. eauto. }
  destruct (prepared_dir _ Hp) as (dir0 & Hd0 & _ & _).
  destruct (Utf8.encode text) as [data|] eqn:He.
  2: { rewrite text_to_speech_run, Hb, Hp, He. cbn. rewrite Hd0. split; [|done].
       destruct (Hev []) as [evs' H]. rewrite app_nil_r in H. rewrite H. eauto. }
  destruct (text_to_speech_returns svc text language slow w data Hb Hp He)
    as (o & w' & evs & -> & Ht & Hd). cbn [snd]. split; [|done].
  destruct (Hev evs) as [evs' H]. rewrite Ht, H. eauto.
Qed.

Lemma nonblank_text_prepares_directory_witness :
  let w' := snd (text_to_speech Samples.rejecting Samples.hello Samples.en false Samples.fresh) in
  (∃ evs, w_trace w' = w_trace Samples.fresh ++ Ev_exists TTS_CACHE_DIR :: evs) ∧
  (can_prepare (w_disk Samples.fresh) = true → present (cache_dir (w_disk w')) = true).
Proof.
  apply (nonblank_text_prepares_directory Samples.rejecting Samples.hello Samples.en false
           Samples.fresh).
  reflexivity.
Defined.

(** ** Reading an entry back *)

Lemma falsy_cache_path data : falsy (Some (cache_path_of (Sha256.hexdigest data))) = false.
Proof. destruct (cache_path_nonempty data) as (a & rest & ->). reflexivity. Qed.

(** X4. On a hit for a non-blank text, [text_to_speech_bytes] returns the
    bytes of the entry when it is a regular file, and [None] (after a
    message) when it is a directory, although [text_to_speech] returns
    the path in both cases; the disk is unchanged and the backend unused. *)
Theorem text_to_speech_bytes_hit svc text language slow w h node :
  is_blank text = false →
  text_hash text = Some h →
  stored w h = Some node →
  ∃ w', text_to_speech_bytes svc text language slow w = (Return (content_of node), w') ∧
        fst (text_to_speech svc text language slow w) = Return (Some (cache_path_of h)) ∧
        w_disk w' = w_disk w ∧ synth_calls w' = synth_calls w.
Proof.
  intros Hb Hh Hs. unfold text_hash in Hh.
  destruct (Utf8.encode text) as [data|] eqn:He; [|discriminate]. injection Hh as <-.
  pose proof (text_to_speech_hit svc text language slow w data node Hb He Hs) as Hrun.
  rewrite Hrun. unfold text_to_speech_bytes. unfold mbind at 1, M_bind, bind.
  rewrite Hrun, falsy_cache_path.
  unfold os_path_exists, read_file. run_monad.
  rewrite !resolve_cache_path. unfold stored in Hs. rewrite Hs. cbn. rewrite ?Hs.
  destruct node as [data0|sz]; cbn; eexists; (split_and!; [reflexivity|reflexivity|reflexivity|]);
    unfold synth_calls; cbn; rewrite !List.filter_app, !length_app; cbn; lia.
Qed.

Lemma text_to_speech_bytes_hit_witness :
  let w := snd (text_to_speech Samples.answering Samples.hello Samples.en false Samples.fresh) in
  let h := "185f8db32271fe25f561a6fc938b2e264306ec304eda518007d1764826381969" in
  ∃ w', text_to_speech_bytes Samples.rejecting Samples.hello Samples.en true w =
        (Return (content_of (File Samples.mp3_bytes)), w') ∧
        fst (text_to_speech Samples.rejecting Samples.hello Samples.en true w) =
        Return (Some (cache_path_of h)) ∧
        w_disk w' = w_disk w ∧ synth_calls w' = synth_calls w.
Proof.
  intros w h.
  apply (text_to_speech_bytes_hit Samples.rejecting Samples.hello Samples.en true w h
           (File Samples.mp3_bytes)); vm_compute; reflexivity.
Defined.

(** X5. A [save] interrupted after it opened its destination poisons the
    cache: the call returns [None], and from then on every request for the
    same text, in any language, at any rate and whatever the backend would
    do, is answered with the path of the truncated file, whose bytes
    [text_to_speech_bytes] returns. *)
Theorem interrupted_save_poisons_cache svc text language slow w h written :
  is_blank text = false →
  text_hash text = Some h →
  stored w h = None →
  can_store (w_disk w) = true →
  svc (synth_calls w) text language slow = Interrupted written →
  ∃ w1, text_to_speech svc text language slow w = (Return None, w1) ∧
        stored w1 h = Some (File written) ∧
        ∀ svc' language' slow',
          fst (text_to_speech svc' text language' slow' w1) = Return (Some (cache_path_of h)) ∧
          fst (text_to_speech_bytes svc' text language' slow' w1) = Return (Some written) ∧
          synth_calls (snd (text_to_speech svc' text language' slow' w1)) = synth_calls w1.
Proof.
  intros Hb Hh Hs Hst Hsvc. pose proof Hh as Hh'. unfold text_hash in Hh.
  destruct (Utf8.encode text) as [data|] eqn:He; [|discriminate]. injection Hh as <-.
  destruct (text_to_speech_miss svc text language slow w data Hb He
              (can_store_prepare _ Hst) Hs) as (dir & Hd & Hm & Hw & Hrun).
  cbv zeta in Hrun. rewrite Hsvc, Hst in Hrun.
  eexists. split; [exact Hrun|].
  match goal with |- stored ?w1 _ = _ ∧ _ =>
    assert (Hnew : stored w1 (Sha256.hexdigest data) = Some (File written))
  end.
  { unfold stored. cbn [w_disk]. rewrite entries_set_entries. apply lookup_insert_eq. }
  split; [exact Hnew|]. intros svc' language' slow'.
  destruct (text_to_speech_bytes_hit svc' text language' slow' _ _ _ Hb Hh' Hnew)
    as (w2 & Hbytes & Hpath & _ & _).
  rewrite Hbytes. split_and!; [exact Hpath|reflexivity|].
  rewrite (text_to_speech_hit svc' text language' slow' _ data _ Hb He Hnew).
  cbn [snd]. rewrite synth_calls_logged. cbn. lia.
Qed.

Lemma interrupted_save_poisons_cache_witness :
  let h := "185f8db32271fe25f561a6fc938b2e264306ec304eda518007d1764826381969" in
  ∃ w1, text_to_speech Samples.dropping Samples.hello Samples.en false Samples.empty_dir =
        (Return None, w1) ∧
        stored w1 h = Some (File []) ∧
        ∀ svc' language' slow',
          fst (text_to_speech svc' Samples.hello language' slow' w1) =
          Return (Some (cache_path_of h)) ∧
          fst (text_to_speech_bytes svc' Samples.hello language' slow' w1) = Return (Some []) ∧
          synth_calls (snd (text_to_speech svc' Samples.hello language' slow' w1)) =
          synth_calls w1.
Proof.
  intros h.
  apply (interrupted_save_poisons_cache Samples.dropping Samples.hello Samples.en false
           Samples.empty_dir h []); vm_compute; reflexivity.
Defined.

(** ** Statistics and clearing around a synthesis *)

Lemma artifacts_absent d : cache_dir d = None → artifacts d = [].
Proof.
  intros Hd. unfold artifacts, entries_of. rewrite Hd. by rewrite map_to_list_empty.
Qed.

Lemma sizes_of_well_named d :
  well_named d →
  sizes_of (artifacts d) = Some (map (fun kv => node_size (snd kv)) (artifacts d)).
Proof.
  intros Hwn. apply sizes_of_plain.
  intros [k v] [_ Hin]%in_artifacts. apply file_name_plain, (Hwn k v Hin).
Qed.

(** The count [get_cache_stats] reports where it can list the directory. *)
Lemma stats_value_count d :
  well_named d →
  cache_dir d = None ∨ readable d = true →
  file_count (stats_value d) = Z.of_nat (length (artifacts d)).
Proof.
  intros Hwn Hr. unfold stats_value, readable in *.
  destruct (cache_dir d) as [dir|] eqn:Hd.
  - destruct Hr as [Hr|Hr]; [done|]. rewrite Hr. by rewrite sizes_of_well_named.
  - by rewrite (artifacts_absent d Hd).
Qed.

Lemma artifacts_insert d dir name node :
  cache_dir d = Some dir →
  dir_entries dir !! name = None →
  is_mp3 name = true →
  Permutation (artifacts (set_entries d dir (<[name := node]> (dir_entries dir))))
              ((name, node) :: artifacts d).
Proof.
  intros Hd Hn Hm.
  assert (He : entries_of d = dir_entries dir) by (unfold entries_of; by rewrite Hd).
  apply NoDup_Permutation.
  - apply NoDup_artifacts.
  - apply NoDup_cons. split; [|apply NoDup_artifacts].
    rewrite list_elem_of_In, in_artifacts, He. intros [_ ?]. congruence.
  - intros [k v]. rewrite elem_of_cons, !list_elem_of_In, !in_artifacts.
    rewrite entries_set_entries, He. destruct (decide (k = name)) as [->|Hne].
    + rewrite lookup_insert_eq, Hn. split.
      * intros [_ [= <-]]. by left.
      * intros [[= <-]|[_ ?]]; [done|congruence].
    + rewrite lookup_insert_ne by done. split; [by right|].
      intros [[= ? ?]|?]; [congruence|done].
Qed.

Lemma prepared_readable d dir :
  cache_dir (prepared d) = Some dir →
  cache_dir d = None ∨ readable d = true →
  dir_readable dir = true.
Proof.
  unfold prepared, readable. destruct (cache_dir d) as [dir0|] eqn:Hd0.
  - rewrite Hd0. intros [= <-] [|]; done.
  - cbn. by intros [= <-] _.
Qed.

(** X6. After a miss that the backend serves, [get_cache_stats] counts
    one file more than before, and the bytes in the cache have grown by
    the size of the audio (in a directory that can be listed and holds
    file names). *)
Theorem miss_adds_one_file svc text language slow w h audio :
  is_blank text = false →
  text_hash text = Some h →
  stored w h = None →
  can_store (w_disk w) = true →
  svc (synth_calls w) text language slow = Audio audio →
  well_named (w_disk w) →
  cache_dir (w_disk w) = None ∨ readable (w_disk w) = true →
  let w' := snd (text_to_speech svc text language slow w) in
  ∃ s s', fst (get_cache_stats w) = Return s ∧
          fst (get_cache_stats w') = Return s' ∧
          file_count s' = file_count s + 1 ∧
          total_bytes (w_disk w') = total_bytes (w_disk w) + Z.of_nat (length audio).
Proof.
  intros Hb Hh Hs Hst Hsvc Hwn Hr. cbv zeta. unfold text_hash in Hh.
  destruct (Utf8.encode text) as [data|] eqn:He; [|discriminate]. injection Hh as <-.
  destruct (text_to_speech_miss svc text language slow w data Hb He
              (can_store_prepare _ Hst) Hs) as (dir & Hd & Hm & Hw & Hrun).
  cbv zeta in Hrun. rewrite Hsvc, Hst in Hrun. rewrite Hrun. cbn [snd].
  destruct (get_cache_stats_run w) as (evs & -> & _).
  match goal with |- context [get_cache_stats ?w'] =>
    destruct (get_cache_stats_run w') as (evs' & -> & _)
  end.
  cbn [fst w_disk]. eexists _, _. split; [reflexivity|]. split; [reflexivity|].
  assert (Hperm : Permutation
            (artifacts (set_entries (prepared (w_disk w)) dir
               (<[Sha256.hexdigest data +:+ ".mp3" := File audio]> (entries_of (w_disk w)))))
            ((Sha256.hexdigest data +:+ ".mp3", File audio) :: artifacts (w_disk w))).
  { rewrite <- Hm. etransitivity.
    - apply artifacts_insert; [exact Hd| |apply endswith_app]. rewrite Hm. exact Hs.
    - apply perm_skip. apply artifacts_permutation. intros name _.
      by rewrite entries_prepared. }
  split.
  - rewrite (stats_value_count (w_disk w) Hwn Hr). rewrite stats_value_count.
    + rewrite (Permutation_length Hperm). cbn [length]. lia.
    + unfold well_named. rewrite entries_set_entries.
      apply map_Forall_insert_2; [apply cache_filename_is_file_name|done].
    + right. unfold readable, set_entries. cbn. by eapply prepared_readable.
  - unfold total_bytes.
    rewrite (sum_permutation _ _ (Permutation_map (fun kv => node_size (snd kv)) Hperm)).
    cbn [map]. rewrite sum_cons. cbn. lia.
Qed.

Lemma miss_adds_one_file_witness :
  let w := Samples.shelf true true in
  let w' := snd (text_to_speech Samples.answering Samples.hello Samples.en false w) in
  ∃ s s', fst (get_cache_stats w) = Return s ∧
          fst (get_cache_stats w') = Return s' ∧
          file_count s' = file_count s + 1 ∧
          total_bytes (w_disk w') =
          total_bytes (w_disk w) + Z.of_nat (length Samples.mp3_bytes).
Proof.
  apply (miss_adds_one_file Samples.answering Samples.hello Samples.en false
           (Samples.shelf true true)
           "185f8db32271fe25f561a6fc938b2e264306ec304eda518007d1764826381969"
           Samples.mp3_bytes); try (vm_compute; reflexivity).
  - apply (bool_decide_unpack _). vm_compute. reflexivity.
  - right. reflexivity.
Defined.

Lemma listed_removable d dir :
  cache_dir d = Some dir →
  dir_writable dir = true →
  well_named d →
  forallb (fun kv => is_file (snd kv)) (artifacts d) = true →
  ∀ f, In f (listed d) → removable d f = true.
Proof.
  intros Hd Hw Hwn Hfiles f [Hm [node Hnode]]%in_listed.
  destruct (artifacts_are_files d Hfiles f node) as [data ->]; [by apply in_artifacts|].
  destruct (file_name_plain f) as [Hs He]; [by apply (Hwn f _ Hnode)|].
  unfold removable. rewrite Hs, Hd, Hw. unfold entries_of in Hnode.
  rewrite Hd in Hnode. rewrite Hnode. cbn.
  destruct (String.eqb_spec f ""); done.
Qed.

(** An unconditional [clear_cache] that meets no obstacle: the world it
    leaves. *)
Lemma clear_cache_all w dir :
  cache_dir (w_disk w) = Some dir →
  dir_readable dir = true →
  dir_writable dir = true →
  well_named (w_disk w) →
  forallb (fun kv => is_file (snd kv)) (artifacts (w_disk w)) = true →
  let w' := snd (clear_cache None w) in
  (∀ name, is_mp3 name = true → entries_of (w_disk w') !! name = None) ∧
  (∃ dir', cache_dir (w_disk w') = Some dir' ∧
           dir_readable dir' = true ∧ dir_writable dir' = true) ∧
  cwd_writable (w_disk w') = cwd_writable (w_disk w) ∧
  well_named (w_disk w') ∧
  synth_calls w' = synth_calls w.
Proof.
  intros Hd Hr Hw Hwn Hfiles. cbv zeta.
  rewrite clear_cache_run, Hd. cbv zeta. rewrite Hr. cbn [negb under_threshold].
  destruct (for_each_remove (listed (w_disk w))
              (logged w [Ev_exists TTS_CACHE_DIR; Ev_listdir TTS_CACHE_DIR]))
    as (evs & -> & Hg & _).
  cbn [logged w_disk w_trace].
  destruct (remove_loop_frame (listed (w_disk w)) (w_disk w)) as (Hc & Hp & Hfl & Hfr).
  destruct (remove_loop_all (listed (w_disk w)) (w_disk w) (NoDup_listed _)
              (listed_removable _ _ Hd Hw Hwn Hfiles)) as [Hok Hgone].
  rewrite Hok. cbn [snd logged w_disk w_trace].
  set (d' := snd (remove_loop (listed (w_disk w)) (w_disk w))) in *.
  split_and!.
  - intros name Hm. destruct (entries_of (w_disk w) !! name) as [node|] eqn:E.
    + apply Hgone, in_listed. rewrite E. eauto.
    + destruct (Hfr name) as [He|[_ He]]; [by rewrite He|done].
  - rewrite Hd in Hp. destruct (cache_dir d') as [dir'|] eqn:Hd'; [|discriminate].
    exists dir'. destruct (Hfl dir dir' Hd eq_refl) as [-> ->]. done.
  - done.
  - intros name node Hn. destruct (Hfr name) as [He|[_ He]]; [|congruence].
    rewrite He in Hn. by apply (Hwn name node).
  - unfold synth_calls. cbn. rewrite !List.filter_app, Hg. cbn.
    by rewrite !app_nil_r.
Qed.

(** X7. Right after an unconditional [clear_cache] that meets no obstacle
    (a directory that can be listed and written, holding file names, its
    artifacts regular files), [get_cache_stats] returns the zero
    dictionary. *)
Theorem clear_then_stats_zero w dir :
  cache_dir (w_disk w) = Some dir →
  dir_readable dir = true →
  dir_writable dir = true →
  well_named (w_disk w) →
  forallb (fun kv => is_file (snd kv)) (artifacts (w_disk w)) = true →
  fst (get_cache_stats (snd (clear_cache None w))) = Return (Stats 0 0).
Proof.
  intros Hd Hr Hw Hwn Hfiles.
  destruct (clear_cache_all w dir Hd Hr Hw Hwn Hfiles)
    as (Hgone & (dir' & Hd' & Hr' & _) & _ & _ & _).
  destruct (get_cache_stats_run (snd (clear_cache None w))) as (evs & -> & _).
  cbn [fst]. unfold stats_value. rewrite Hd', Hr', (artifacts_nil _ Hgone). reflexivity.
Qed.

Lemma clear_then_stats_zero_witness :
  fst (get_cache_stats (snd (clear_cache None (Samples.shelf true true)))) =
  Return (Stats 0 0).
Proof.
  apply (clear_then_stats_zero (Samples.shelf true true) _ eq_refl eq_refl eq_refl).
  - apply (bool_decide_unpack _). vm_compute. reflexivity.
  - vm_compute. reflexivity.
Defined.

(** X8. Clearing forgets what was synthesised: after an unconditional
    [clear_cache] that meets no obstacle, a request for any non-blank
    text, cached before or not, goes to the backend again, and what the
    backend delivers is stored anew under the same path. *)
Theorem clear_forces_resynthesis svc text language slow w dir h audio :
  cache_dir (w_disk w) = Some dir →
  dir_readable dir = true →
  dir_writable dir = true →
  well_named (w_disk w) →
  forallb (fun kv => is_file (snd kv)) (artifacts (w_disk w)) = true →
  is_blank text = false →
  text_hash text = Some h →
  let w1 := snd (clear_cache None w) in
  svc (synth_calls w) text language slow = Audio audio →
  ∃ w2, text_to_speech svc text language slow w1 = (Return (Some (cache_path_of h)), w2) ∧
        synth_calls w2 = S (synth_calls w) ∧
        stored w2 h = Some (File audio).
Proof.
  intros Hd Hr Hw Hwn Hfiles Hb Hh. cbv zeta. intros Hsvc.
  destruct (clear_cache_all w dir Hd Hr Hw Hwn Hfiles)
    as (Hgone & (dir' & Hd' & _ & Hw') & _ & _ & Hcalls).
  set (w1 := snd (clear_cache None w)) in *.
  unfold text_hash in Hh.
  destruct (Utf8.encode text) as [data|] eqn:He; [|discriminate]. injection Hh as <-.
  assert (Hs : stored w1 (Sha256.hexdigest data) = None).
  { apply Hgone, endswith_app. }
  assert (Hst : can_store (w_disk w1) = true).
  { unfold can_store. by rewrite Hd'. }
  destruct (text_to_speech_miss svc text language slow w1 data Hb He
              (can_store_prepare _ Hst) Hs) as (dir1 & Hd1 & Hm & _ & Hrun).
  cbv zeta in Hrun. rewrite Hcalls, Hsvc, Hst in Hrun.
  eexists. split; [exact Hrun|]. split.
  - rewrite synth_calls_app, <- List.app_assoc, no_synth_in_ensure. cbn.
    fold (synth_calls w1). lia.
  - unfold stored. cbn [w_disk]. rewrite entries_set_entries. apply lookup_insert_eq.
Qed.

Lemma clear_forces_resynthesis_witness :
  let w := snd (text_to_speech Samples.answering Samples.hello Samples.en false
                  (Samples.shelf true true)) in
  let h := "185f8db32271fe25f561a6fc938b2e264306ec304eda518007d1764826381969" in
  stored w h = Some (File Samples.mp3_bytes) ∧
  ∃ w2, text_to_speech Samples.answering Samples.hello Samples.en false
          (snd (clear_cache None w)) = (Return (Some (cache_path_of h)), w2) ∧
        synth_calls w2 = S (synth_calls w) ∧
        stored w2 h = Some (File Samples.mp3_bytes).
Proof.
  intros w h. split; [vm_compute; reflexivity|].
  eapply (clear_forces_resynthesis Samples.answering Samples.hello Samples.en false w).
  - vm_compute. reflexivity.
  - reflexivity.
  - reflexivity.
  - apply (bool_decide_unpack _). vm_compute. reflexivity.
  - vm_compute. reflexivity.
  - reflexivity.
  - vm_compute. reflexivity.
  - reflexivity.
Defined.

(** ** [get_cache_stats] only looks *)

Lemma getsize_logged f w :
  snd (getsize_body f w) = logged w [Ev_getsize (os_path_join TTS_CACHE_DIR f)].
Proof.
  unfold getsize_body, os_path_getsize. run_monad.
  destruct (resolve _) as [|name|]; cbn; try done.
  by destruct (entries_of (w_disk w) !! name).
Qed.

Lemma map_M_getsize_reads files w :
  ∃ evs, snd (map_M getsize_body files w) = logged w evs ∧
         forallb is_read_event evs = true.
Proof.
  revert w. induction files as [|f files IH]; intros w.
  - exists []. unfold logged. rewrite app_nil_r. by destruct w.
  - cbn [map_M]. unfold mbind at 1, M_bind, bind.
    pose proof (getsize_logged f w) as Hf.
    destruct (getsize_body f w) as [[z|e] w1]; cbn [snd] in Hf; subst w1.
    + destruct (IH (logged w [Ev_getsize (os_path_join TTS_CACHE_DIR f)])) as (evs & He & Hr).
      unfold mbind, M_bind, bind.
      destruct (map_M getsize_body files _) as [[zs|e] w2]; cbn [snd] in *; subst w2;
        exists (Ev_getsize (os_path_join TTS_CACHE_DIR f) :: evs);
        unfold logged; cbn; by rewrite <- List.app_assoc.
    + by exists [Ev_getsize (os_path_join TTS_CACHE_DIR f)].
Qed.

(** X9. [get_cache_stats] never raises and only looks at the disk: on
    every path it returns a dictionary, leaves the disk as it found it and
    does nothing but test existence, list, stat and print. In particular
    it neither calls the backend nor removes or creates anything. *)
Theorem get_cache_stats_reads_only w :
  ∃ s evs, get_cache_stats w = (Return s, logged w evs) ∧
           forallb is_read_event evs = true.
Proof.
  unfold get_cache_stats, os_path_exists, os_listdir. run_monad.
  rewrite resolve_cache_dir.
  destruct (cache_dir (w_disk w)) as [dir|] eqn:Hd; cbn.
  2: { by eexists _, [_]. }
  rewrite ?Hd. destruct (dir_readable dir) eqn:Hr; cbn.
  2: { eexists _, [_; _; _]. unfold logged. by rewrite <- !List.app_assoc. }
  change (fun f => os_path_getsize (os_path_join TTS_CACHE_DIR f)) with getsize_body.
  match goal with |- context [map_M getsize_body ?fs ?w0] =>
    destruct (map_M_getsize_reads fs w0) as (evs & He & Hev);
    destruct (map_M getsize_body fs w0) as [[zs|e] w1]
  end; cbn [snd] in He; subst w1; cbn.
  - eexists _, (Ev_exists TTS_CACHE_DIR :: Ev_listdir TTS_CACHE_DIR :: evs).
    unfold logged. cbn. by rewrite <- !List.app_assoc.
  - eexists _, (Ev_exists TTS_CACHE_DIR :: Ev_listdir TTS_CACHE_DIR ::
                evs ++ [Ev_print Msg_stats_error]).
    unfold logged. cbn. split; [by rewrite <- !List.app_assoc|].
    by rewrite forallb_app, Hev.
Qed.

(** ** What [text_to_speech] may add *)

(** X10. [text_to_speech] never removes or alters an entry of the
    directory, and adds at most one: a regular file whose name is the key
    of the text followed by [.mp3] (hence an artifact that the statistics
    count and clearing removes). *)
Theorem text_to_speech_adds_at_most_one svc text language slow w :
  let m := entries_of (w_disk w) in
  let m' := entries_of (w_disk (snd (text_to_speech svc text language slow w))) in
  m' = m ∨
  ∃ h content,
    text_hash text = Some h ∧ m !! (h +:+ ".mp3") = None ∧
    is_mp3 (h +:+ ".mp3") = true ∧
    m' = <[h +:+ ".mp3" := File content]> m.
Proof.
  cbv zeta.
  destruct (text_to_speech_entries svc text language slow w)
    as [H|(data & content & He & H)]; [by left|].
  destruct (entries_of (w_disk w) !! (Sha256.hexdigest data +:+ ".mp3")) as [node|] eqn:Hn.
  - left. rewrite H. apply map_eq. intros name.
    destruct (decide (name = Sha256.hexdigest data +:+ ".mp3")) as [->|Hne].
    + rewrite lookup_insert_eq, Hn.
      pose proof (text_to_speech_keeps svc text language slow w _ _ Hn) as Hk.
      rewrite H, lookup_insert_eq in Hk. done.
    + by rewrite lookup_insert_ne.
  - right. exists (Sha256.hexdigest data), content. unfold text_hash. rewrite He.
    split_and!; [done|done|apply endswith_app|done].
Qed.

Lemma well_named_preserved_witness :
  well_named (w_disk (run Samples.answering
                        (Op_text_to_speech Samples.hello Samples.en false)
                        (Samples.shelf true true))).
Proof.
  apply well_named_preserved.
  apply (bool_decide_unpack _). vm_compute. reflexivity.
Defined.

(** * Properties of [asr.py] *)

Lemma lstrip_idem (s : pystr) : lstrip (lstrip s) = lstrip s.
Proof.
  induction s as [|c s IH]; [done|]. cbn [lstrip].
  destruct (is_space c) eqn:E; [done|]. cbn [lstrip]. by rewrite E.
Qed.

Lemma lstrip_keeps (s : pystr) c s' : s = c :: s' → is_space c = false → lstrip s = s.
Proof. intros -> H. cbn. by rewrite H. Qed.

Lemma lstrip_snoc (l : pystr) (c : codepoint) :
  is_space c = false → lstrip (l ++ [c]) = lstrip l ++ [c].
Proof.
  intros Hc. induction l as [|x l IH]; cbn [app lstrip]; [by rewrite Hc|].
  by destruct (is_space x).
Qed.

(** Stripping the right end does not touch a first character that is no
    whitespace. *)
Lemma rstrip_cons (c : codepoint) (s : pystr) :
  is_space c = false → rstrip (c :: s) = c :: rstrip s.
Proof.
  intros Hc. unfold rstrip. cbn [rev].
  by rewrite lstrip_snoc, rev_app_distr.
Qed.

Lemma rstrip_idem (s : pystr) : rstrip (rstrip s) = rstrip s.
Proof. unfold rstrip. by rewrite rev_involutive, lstrip_idem. Qed.

Lemma strip_idem (s : pystr) : strip (strip s) = strip s.
Proof.
  assert (H : ∀ t, strip s = t → strip t = t); [|by apply H].
  intros t <-. unfold strip. destruct (lstrip s) as [|c l] eqn:E; [reflexivity|].
  pose proof (lstrip_head _ _ _ E) as Hc.
  rewrite (rstrip_cons c l Hc). cbn [lstrip]. rewrite Hc.
  by rewrite (rstrip_cons c _ Hc), rstrip_idem.
Qed.

(** ** Running the recognisers *)

Ltac run_asr :=
  unfold Asr.transcribe_audio_whisper, Asr.transcribe_audio_sr, Asr.import,
    Asr.named_temporary_file, Asr.run_engine, Asr.remove_if_exists, Asr.print, Asr.log,
    Eff.catch, Eff.finally, Eff.get, Eff.throw,
    mbind, Eff_bind, Eff.bind, mret, Eff_ret, Eff.ret.

Lemma tmp_fresh_free (m : gmap nat bytes) : m !! fresh (dom m) = None.
Proof. apply not_elem_of_dom, is_fresh. Qed.

Lemma transcribe_audio_whisper_run whisper audio s :
  Asr.transcribe_audio_whisper whisper audio s =
  (Eff.Ok (Asr.offer whisper audio),
   Asr.State (Asr.tmp s) (Asr.files s)
     (Asr.trace s ++
      Asr.attempt_events Asr.Whisper whisper audio s
        Asr.Msg_whisper_missing Asr.Msg_whisper_error)).
Proof.
  run_asr. unfold Asr.offer, Asr.attempt_events.
  destruct (Asr.installed whisper); cbn; [|reflexivity].
  rewrite lookup_insert_eq. cbn.
  destruct (Asr.recognise whisper audio) as [text|]; cbn;
    rewrite lookup_insert_eq; cbn;
    rewrite (delete_insert_id _ _ _ (tmp_fresh_free _)), <- ?List.app_assoc; cbn;
    reflexivity.
Qed.

Lemma transcribe_audio_sr_run google audio s :
  Asr.transcribe_audio_sr google audio s =
  (Eff.Ok (Asr.sr_result google audio),
   Asr.State (Asr.tmp s) (Asr.files s)
     (Asr.trace s ++
      Asr.attempt_events Asr.Google google audio s Asr.Msg_sr_missing Asr.Msg_sr_error)).
Proof.
  run_asr. unfold Asr.sr_result, Asr.attempt_events.
  destruct (Asr.installed google); cbn; [|reflexivity].
  rewrite lookup_insert_eq. cbn.
  destruct (Asr.recognise google audio) as [text|]; cbn;
    rewrite lookup_insert_eq; cbn;
    rewrite (delete_insert_id _ _ _ (tmp_fresh_free _)), <- ?List.app_assoc; cbn;
    try reflexivity.
  all: by destruct (Asr.truthy text).
Qed.

Lemma truthy_offer e audio : Asr.truthy_opt (Asr.offer e audio) = present (Asr.offer e audio).
Proof.
  unfold Asr.offer. destruct (Asr.installed e); [|done].
  destruct (Asr.recognise e audio) as [t|]; [|done].
  destruct (Asr.truthy (strip t)) eqn:E; [|done]. cbn. exact E.
Qed.

Lemma sr_result_offer e audio :
  (∃ t, Asr.sr_result e audio = Some t ∧ Asr.offer e audio = Some t ∧
        Asr.truthy_opt (Some t) = true) ∨
  (Asr.truthy_opt (Asr.sr_result e audio) = false ∧ Asr.offer e audio = None).
Proof.
  unfold Asr.sr_result, Asr.offer. destruct (Asr.installed e); [|by right].
  destruct (Asr.recognise e audio) as [t|]; [|by right].
  destruct t as [|c t]; [by right|]. cbn [Asr.truthy].
  destruct (Asr.truthy (strip (c :: t))) eqn:E; [left; eauto|by right].
Qed.

Lemma attempt_events_tmp r e audio s s' missing failed :
  Asr.tmp s' = Asr.tmp s →
  Asr.attempt_events r e audio s' missing failed =
  Asr.attempt_events r e audio s missing failed.
Proof. unfold Asr.attempt_events. by intros ->. Qed.

(** [transcribe_audio] on audio that is not empty, as a function of what
    the recognisers offer. *)
Lemma transcribe_audio_run whisper google audio prefer_whisper s :
  Asr.truthy audio = true →
  let w := Asr.offer whisper audio in
  let g := Asr.offer google audio in
  let wev := Asr.attempt_events Asr.Whisper whisper audio s
               Asr.Msg_whisper_missing Asr.Msg_whisper_error in
  let gev := Asr.attempt_events Asr.Google google audio s
               Asr.Msg_sr_missing Asr.Msg_sr_error in
  Asr.transcribe_audio whisper google audio prefer_whisper s =
  (Eff.Ok (if prefer_whisper then Asr.first_offer w g else Asr.first_offer g w),
   Asr.State (Asr.tmp s) (Asr.files s)
     (Asr.trace s ++
      if prefer_whisper then wev ++ (if present w then [] else gev)
      else gev ++ (if present g then [] else wev))).
Proof.
  intros Ha. cbv zeta. unfold Asr.transcribe_audio. rewrite Ha. cbn [negb].
  pose proof (truthy_offer whisper audio) as Hw.
  destruct prefer_whisper.
  - unfold mbind at 1, Eff_bind, Eff.bind. rewrite transcribe_audio_whisper_run, Hw.
    destruct (Asr.offer whisper audio) as [t|]; cbn [present Asr.first_offer].
    { unfold mret, Eff_ret, Eff.ret. by rewrite app_nil_r. }
    unfold mbind, Eff_bind, Eff.bind. rewrite transcribe_audio_sr_run.
    rewrite (attempt_events_tmp _ _ _ s (Asr.State _ _ _)) by done. cbn [Asr.tmp Asr.files Asr.trace].
    destruct (sr_result_offer google audio) as [(t & -> & -> & ->)| [-> ->]];
      unfold mret, Eff_ret, Eff.ret; by rewrite <- ?List.app_assoc, ?app_nil_r.
  - unfold mbind at 1, Eff_bind, Eff.bind. rewrite transcribe_audio_sr_run.
    destruct (sr_result_offer google audio) as [(t & -> & -> & ->)| [-> ->]];
      cbn [present Asr.first_offer].
    { unfold mret, Eff_ret, Eff.ret. by rewrite app_nil_r. }
    unfold mbind, Eff_bind, Eff.bind. rewrite transcribe_audio_whisper_run, Hw.
    rewrite (attempt_events_tmp _ _ _ s (Asr.State _ _ _)) by done. cbn [Asr.tmp Asr.files Asr.trace].
    destruct (Asr.offer whisper audio) as [t|]; cbn [present];
      unfold mret, Eff_ret, Eff.ret; by rewrite <- ?List.app_assoc, ?app_nil_r.
Qed.

Lemma transcribe_audio_empty whisper google prefer_whisper s :
  Asr.transcribe_audio whisper google [] prefer_whisper s = (Eff.Ok None, s).
Proof. reflexivity. Qed.

(** [transcribe_audio] in one equation: a result, never an exception; the
    temporary directory and the files as they were. *)
Lemma transcribe_audio_shape whisper google audio prefer_whisper s :
  ∃ r evs,
    Asr.transcribe_audio whisper google audio prefer_whisper s =
    (Eff.Ok r, Asr.State (Asr.tmp s) (Asr.files s) (Asr.trace s ++ evs)) ∧
    r = (if Asr.truthy audio then
           if prefer_whisper
           then Asr.first_offer (Asr.offer whisper audio) (Asr.offer google audio)
           else Asr.first_offer (Asr.offer google audio) (Asr.offer whisper audio)
         else None).
Proof.
  destruct (Asr.truthy audio) eqn:Ha.
  - eexists _, _. split; [by apply transcribe_audio_run|reflexivity].
  - destruct audio; [|discriminate]. exists None, [].
    rewrite transcribe_audio_empty, app_nil_r. by destruct s.
Qed.

Lemma transcribe_from_file_run whisper google path s :
  Asr.transcribe_from_file whisper google path s =
  match Asr.files s !! path with
  | Some data =>
      Asr.transcribe_audio whisper google data true
        (Asr.State (Asr.tmp s) (Asr.files s) (Asr.trace s ++ [Asr.Ev_open path]))
  | None =>
      (Eff.Ok None,
       Asr.State (Asr.tmp s) (Asr.files s)
         (Asr.trace s ++ [Asr.Ev_open path; Asr.Ev_print Asr.Msg_read_error]))
  end.
Proof.
  unfold Asr.transcribe_from_file, Asr.read_file, Asr.print, Asr.log, Eff.catch, Eff.get,
    Eff.throw, mbind, Eff_bind, Eff.bind, mret, Eff_ret, Eff.ret. cbn [Asr.files].
  destruct (Asr.files s !! path) as [data|]; cbn.
  - destruct (transcribe_audio_shape whisper google data true
                (Asr.State (Asr.tmp s) (Asr.files s) (Asr.trace s ++ [Asr.Ev_open path])))
      as (r & evs & -> & _). reflexivity.
  - by rewrite <- List.app_assoc.
Qed.

Lemma offer_clean e audio t :
  Asr.offer e audio = Some t →
  Asr.installed e = true ∧ t ≠ [] ∧ strip t = t ∧
  ∃ raw, Asr.recognise e audio = Some raw ∧ t = strip raw.
Proof.
  unfold Asr.offer. destruct (Asr.installed e); [|discriminate].
  destruct (Asr.recognise e audio) as [raw|]; [|discriminate].
  destruct (Asr.truthy (strip raw)) eqn:E; [|discriminate].
  intros [= <-]. split; [done|]. split; [by destruct (strip raw)|].
  split; [apply strip_idem|eauto].
Qed.

Lemma used_app r tmp files tr evs :
  Asr.used r (Asr.State tmp files (tr ++ evs)) =
  Asr.used r (Asr.State tmp files tr) || Asr.used r (Asr.State tmp files evs).
Proof. unfold Asr.used. cbn [Asr.trace]. apply existsb_app. Qed.


(** X13. a transcript that is returned is what one of the two recognisers,
    installed and run on this very audio, produced, with the white space
    around it removed; it is never empty and the audio was not. *)
Theorem transcript_is_clean whisper google audio prefer_whisper s t :
  (Asr.transcribe_audio whisper google audio prefer_whisper s).1 = Eff.Ok (Some t) →
  t ≠ [] ∧ strip t = t ∧ audio ≠ [] ∧
  ∃ raw, t = strip raw ∧
    ((Asr.installed whisper = true ∧ Asr.recognise whisper audio = Some raw) ∨
     (Asr.installed google = true ∧ Asr.recognise google audio = Some raw)).
Proof.
  destruct (transcribe_audio_shape whisper google audio prefer_whisper s)
    as (r & evs & -> & Hr).
  cbn [fst]. intros [= ->].
  destruct audio as [|b audio]; [discriminate|]. cbn [Asr.truthy] in Hr.
  assert (Asr.offer whisper (b :: audio) = Some t ∨ Asr.offer google (b :: audio) = Some t)
    as [H|H].
  { destruct prefer_whisper, (Asr.offer whisper (b :: audio)), (Asr.offer google (b :: audio));
      cbn in Hr; auto; discriminate. }
  - destruct (offer_clean _ _ _ H) as (Hi & Hne & Hs & raw & Hraw & ->).
    repeat split; try done. exists raw. split; [done|]. by left.
  - destruct (offer_clean _ _ _ H) as (Hi & Hne & Hs & raw & Hraw & ->).
    repeat split; try done. exists raw. split; [done|]. by right.
Qed.

Lemma transcript_is_clean_witness :
  (Asr.transcribe_audio AsrSamples.missing AsrSamples.hearing AsrSamples.clip true
     AsrSamples.idle).1 = Eff.Ok (Some [104; 105]%N) ∧
  strip [104; 105]%N = [104; 105]%N.
Proof.
  assert ((Asr.transcribe_audio AsrSamples.missing AsrSamples.hearing AsrSamples.clip true
             AsrSamples.idle).1 = Eff.Ok (Some [104; 105]%N)) as H by reflexivity.
  split; [exact H|].
  exact (proj1 (proj2 (transcript_is_clean _ _ _ _ _ _ H))).
Defined.

(** X14. if the audio is not empty and at least one installed recogniser
    makes of it a text that is more than white space, a transcript is
    returned, whichever recogniser is preferred. *)
Theorem usable_recogniser_gives_transcript whisper google audio prefer_whisper s e raw :
  audio ≠ [] →
  e = whisper ∨ e = google →
  Asr.installed e = true →
  Asr.recognise e audio = Some raw →
  strip raw ≠ [] →
  ∃ t, (Asr.transcribe_audio whisper google audio prefer_whisper s).1 = Eff.Ok (Some t).
Proof.
  intros Ha He Hi Hraw Hne.
  assert (Asr.offer e audio = Some (strip raw)) as Ho.
  { unfold Asr.offer. rewrite Hi, Hraw. by destruct (strip raw). }
  destruct (transcribe_audio_shape whisper google audio prefer_whisper s)
    as (r & evs & -> & ->). cbn [fst].
  destruct audio as [|b audio]; [done|]. cbn [Asr.truthy].
  destruct He as [-> | ->]; rewrite Ho;
    destruct prefer_whisper; cbn [Asr.first_offer]; eauto;
    match goal with |- context [Asr.first_offer ?o _] => destruct o end;
    cbn [Asr.first_offer]; eauto.
Qed.

Lemma usable_recogniser_gives_transcript_witness :
  ∃ t, (Asr.transcribe_audio AsrSamples.failing AsrSamples.hearing AsrSamples.clip true
          AsrSamples.idle).1 = Eff.Ok (Some t).
Proof.
  apply (usable_recogniser_gives_transcript AsrSamples.failing AsrSamples.hearing
           AsrSamples.clip true AsrSamples.idle AsrSamples.hearing AsrSamples.heard).
  - discriminate.
  - by right.
  - reflexivity.
  - reflexivity.
  - vm_compute. discriminate.
Defined.

(** X15. when the preferred recogniser yields a transcript the other one
    is not run at all: no temporary file is written for it and nothing is
    printed. *)
Theorem preferred_success_skips_other whisper google audio (prefer_whisper : bool) s t :
  audio ≠ [] →
  Asr.offer (if prefer_whisper then whisper else google) audio = Some t →
  let other := if prefer_whisper then Asr.Google else Asr.Whisper in
  let chosen := if prefer_whisper then Asr.Whisper else Asr.Google in
  let name := fresh (dom (Asr.tmp s)) in
  Asr.transcribe_audio whisper google audio prefer_whisper s =
  (Eff.Ok (Some t),
   Asr.State (Asr.tmp s) (Asr.files s)
     (Asr.trace s ++
      [Asr.Ev_tmp_create name; Asr.Ev_recognise chosen name; Asr.Ev_tmp_remove name])) ∧
  Asr.used other (Asr.transcribe_audio whisper google audio prefer_whisper s).2 =
  Asr.used other s.
Proof.
  intros Ha Ho. cbv zeta.
  assert (Asr.truthy audio = true) as Ht by (by destruct audio).
  rewrite (transcribe_audio_run _ _ _ _ _ Ht).
  destruct (offer_clean _ _ _ Ho) as (Hi & _ & _ & raw & Hraw & _).
  destruct prefer_whisper; rewrite Ho; cbn [present Asr.first_offer];
    unfold Asr.attempt_events; rewrite Hi, Hraw, !app_nil_r;
    (split; [reflexivity|]); cbn [snd]; rewrite used_app;
    destruct s as [tm fs tr]; cbn [Asr.tmp Asr.files Asr.trace];
    by rewrite orb_false_r.
Qed.

Lemma preferred_success_skips_other_witness :
  Asr.used Asr.Google
    (Asr.transcribe_audio AsrSamples.hearing AsrSamples.second AsrSamples.clip true
       AsrSamples.idle).2 = false.
Proof.
  refine (eq_trans
            (proj2 (preferred_success_skips_other AsrSamples.hearing AsrSamples.second
                      AsrSamples.clip true AsrSamples.idle (strip AsrSamples.heard) _ _)) _).
  - discriminate.
  - reflexivity.
  - reflexivity.
Defined.

(** X16. the preference decides only which transcript wins when both
    recognisers have one: whether a transcript is returned does not depend
    on it, and with at most one recogniser succeeding the transcript is the
    same either way. *)
Theorem preference_only_orders whisper google audio s :
  ∃ a b,
    (Asr.transcribe_audio whisper google audio true s).1 = Eff.Ok a ∧
    (Asr.transcribe_audio whisper google audio false s).1 = Eff.Ok b ∧
    present a = present b ∧
    (a = b ∨ (a = Asr.offer whisper audio ∧ b = Asr.offer google audio ∧
              present a = true ∧ present b = true)).
Proof.
  destruct (transcribe_audio_shape whisper google audio true s) as (a & ? & -> & ->).
  destruct (transcribe_audio_shape whisper google audio false s) as (b & ? & -> & ->).
  eexists _, _. split; [reflexivity|]. split; [reflexivity|].
  destruct (Asr.truthy audio); [|by auto].
  destruct (Asr.offer whisper audio), (Asr.offer google audio); cbn;
    (split; [done|]); (by left) || (right; by repeat split).
Qed.

(** X17. [transcribe_from_file] on a file that cannot be read returns
    [None] after one message, with no recogniser run; on a readable file it
    returns what [transcribe_audio] returns for the content with Whisper
    preferred. *)
Theorem transcribe_from_file_result whisper google path s :
  match Asr.files s !! path with
  | Some data =>
      (Asr.transcribe_from_file whisper google path s).1 =
      (Asr.transcribe_audio whisper google data true s).1
  | None =>
      Asr.transcribe_from_file whisper google path s =
      (Eff.Ok None,
       Asr.State (Asr.tmp s) (Asr.files s)
         (Asr.trace s ++ [Asr.Ev_open path; Asr.Ev_print Asr.Msg_read_error]))
  end.
Proof.
  rewrite transcribe_from_file_run. destruct (Asr.files s !! path) as [data|]; [|done].
  destruct (transcribe_audio_shape whisper google data true s) as (a & ? & -> & ->).
  destruct (transcribe_audio_shape whisper google data true
              (Asr.State (Asr.tmp s) (Asr.files s) (Asr.trace s ++ [Asr.Ev_open path])))
    as (b & ? & -> & ->).
  reflexivity.
Qed.

(** X18. the two recognisers treat a transcript of white space alone
    differently: [transcribe_audio_whisper] returns [None],
    [transcribe_audio_sr] the empty string. *)
Theorem blank_transcript_differs e audio raw s :
  Asr.installed e = true →
  Asr.recognise e audio = Some raw →
  raw ≠ [] →
  strip raw = [] →
  (Asr.transcribe_audio_whisper e audio s).1 = Eff.Ok None ∧
  (Asr.transcribe_audio_sr e audio s).1 = Eff.Ok (Some []).
Proof.
  intros Hi Hraw Hne Hs.
  rewrite transcribe_audio_whisper_run, transcribe_audio_sr_run. cbn [fst].
  unfold Asr.offer, Asr.sr_result. rewrite Hi, Hraw, Hs.
  by destruct raw.
Qed.

Lemma blank_transcript_differs_witness :
  (Asr.transcribe_audio_whisper AsrSamples.muttering AsrSamples.clip AsrSamples.idle).1 =
    Eff.Ok None ∧
  (Asr.transcribe_audio_sr AsrSamples.muttering AsrSamples.clip AsrSamples.idle).1 =
    Eff.Ok (Some []).
Proof.
  apply (blank_transcript_differs AsrSamples.muttering AsrSamples.clip AsrSamples.blank
           AsrSamples.idle).
  - reflexivity.
  - reflexivity.
  - discriminate.
  - reflexivity.
Defined.

(** * Properties of [groq_client.py] *)

Ltac run_groq :=
  unfold Groq.get_learning_assistant_response, Groq.get_completion, Groq.get_groq_client,
    Groq.Groq, Groq.chat_completions_create, Groq.log,
    Eff.catch, Eff.get, Eff.throw, mbind, Eff_bind, Eff.bind, mret, Eff_ret, Eff.ret.

(** [get_completion] in one equation. *)
Lemma get_completion_run {float} (groq : Groq.service float) q sp model k temp s :
  Groq.get_completion groq q sp model k temp s =
  match Groq.groq_api_key s with
  | Some (c :: key') =>
      let key := c :: key' in
      if Groq.construct groq key then
        let r := Groq.Request (Groq.messages_for q sp) model k temp in
        match Groq.create groq key r with
        | Groq.Completion (first :: _) =>
            (Eff.Ok first, Groq.State (Groq.groq_api_key s) (Groq.trace s ++ [Groq.Ev_create key r]))
        | _ =>
            (Eff.Ok None,
             Groq.State (Groq.groq_api_key s)
               (Groq.trace s ++ [Groq.Ev_create key r; Groq.Ev_print]))
        end
      else (Eff.Err Groq.ClientError, s)
  | _ => (Eff.Ok None, s)
  end.
Proof.
  run_groq. destruct (Groq.groq_api_key s) as [[|c key]|] eqn:Hk; cbn; try reflexivity.
  destruct (Groq.construct groq (c :: key)); [|reflexivity].
  destruct sp as [[|d p]|]; cbn;
    match goal with |- context [Groq.create ?g ?k ?r] => destruct (Groq.create g k r) as [|[|first rest]] end;
    cbn; rewrite ?Hk, <- ?List.app_assoc; reflexivity.
Qed.

Lemma messages_for_prompt q p :
  Asr.truthy p = true →
  Groq.messages_for q (Some p) = [Groq.Message Groq.System p; Groq.Message Groq.User q].
Proof. by destruct p. Qed.

Lemma learning_prompt_truthy : Asr.truthy Groq.learning_prompt = true.
Proof. vm_compute. reflexivity. Qed.

(** X19. The only exception that can leave [get_completion] is the one
    raised while the client is built, which happens outside the [try]:
    with no key, or with a client built, every failure of the service (it
    raises, it answers with no choice) is turned into [None]. *)
Theorem completion_raises_only_from_constructor {float} (groq : Groq.service float)
    q sp model k temp s e :
  (Groq.get_completion groq q sp model k temp s).1 = Eff.Err e ↔
  e = Groq.ClientError ∧
  ∃ key, Groq.groq_api_key s = Some key ∧ key ≠ [] ∧ Groq.construct groq key = false.
Proof.
  rewrite get_completion_run.
  destruct (Groq.groq_api_key s) as [[|c key]|]; cbn.
  - split; [discriminate|]. by intros [_ (key & [= <-] & Hne & _)].
  - destruct (Groq.construct groq (c :: key)) eqn:Hc.
    + split.
      * by destruct (Groq.create groq (c :: key) _) as [|[|first rest]].
      * intros [_ (key' & [= <-] & _ & Hc')]. congruence.
    + cbn. split.
      * intros [= <-]. split; [done|]. by exists (c :: key).
      * by intros [-> _].
  - split; [discriminate|]. by intros [_ (key & [=] & _)].
Qed.

(** X20. [get_completion] returns a text exactly when a key is set and
    not empty, the client can be built, and the service answers the one
    request (the system prompt first, if there is one that is not empty,
    then the query, unchanged) with at least one choice whose first has a
    content: that content is the result. *)
Theorem completion_result {float} (groq : Groq.service float) q sp model k temp s text :
  (Groq.get_completion groq q sp model k temp s).1 = Eff.Ok (Some text) ↔
  ∃ key rest,
    Groq.groq_api_key s = Some key ∧ key ≠ [] ∧ Groq.construct groq key = true ∧
    Groq.create groq key (Groq.Request (Groq.messages_for q sp) model k temp) =
    Groq.Completion (Some text :: rest).
Proof.
  rewrite get_completion_run.
  destruct (Groq.groq_api_key s) as [[|c key]|]; cbn.
  - split; [discriminate|]. by intros (key & rest & [= <-] & Hne & _).
  - destruct (Groq.construct groq (c :: key)) eqn:Hc.
    + destruct (Groq.create groq (c :: key) _) as [|[|first rest]] eqn:Hr; cbn.
      * split; [discriminate|]. intros (key' & rest & [= <-] & _ & _ & H). congruence.
      * split; [discriminate|]. intros (key' & rest & [= <-] & _ & _ & H). congruence.
      * split.
        -- intros [= ->]. by exists (c :: key), rest.
        -- intros (key' & rest' & [= <-] & _ & _ & H). congruence.
    + cbn. split; [discriminate|]. intros (key' & rest & [= <-] & _ & Hc' & _). congruence.
  - split; [discriminate|]. by intros (key & rest & [=] & _).
Qed.

(** X21. A call of [get_learning_assistant_response] sends at most one
    request and never touches the key; a request it sends is made with the
    key of the environment and carries two messages, the fixed prompt as
    system message and then the query exactly as given, with the default
    model and at most 512 tokens asked for. *)
Theorem learning_request_shape {float} (groq : Groq.service float) (temp : float) q s :
  ∃ evs,
    (Groq.get_learning_assistant_response temp groq q s).2 =
    Groq.State (Groq.groq_api_key s) (Groq.trace s ++ evs) ∧
    (length (List.filter Groq.is_request evs) ≤ 1)%nat ∧
    ∀ key r, In (Groq.Ev_create key r) evs →
      Groq.groq_api_key s = Some key ∧
      r = Groq.Request [Groq.Message Groq.System Groq.learning_prompt; Groq.Message Groq.User q]
            "llama-3.1-8b-instant" 512 temp.
Proof.
  unfold Groq.get_learning_assistant_response. rewrite get_completion_run.
  rewrite (messages_for_prompt _ _ learning_prompt_truthy).
  destruct s as [k tr]. cbn [Groq.groq_api_key Groq.trace].
  assert (∃ evs, Groq.State k tr = Groq.State k (tr ++ evs) ∧
              (length (List.filter Groq.is_request evs) ≤ 1)%nat ∧
              ∀ key r, In (Groq.Ev_create key r) evs →
                k = Some key ∧
                r = Groq.Request
                      [Groq.Message Groq.System Groq.learning_prompt; Groq.Message Groq.User q]
                      "llama-3.1-8b-instant" 512 temp) as Hsame.
  { exists []. rewrite app_nil_r.
    split; [done|]. split; [cbn [List.filter length]; lia|]. by intros ? ? []. }
  destruct k as [[|c key]|]; cbv zeta; cbn [snd]; [apply Hsame| |apply Hsame].
  destruct (Groq.construct groq (c :: key)); [|apply Hsame].
  match goal with |- context [Groq.create ?g ?k ?r] =>
    destruct (Groq.create g k r) as [|[|first rest]] end; cbn [snd];
    (eexists; split; [reflexivity|]; split; [cbn [List.filter Groq.is_request length]; lia|]).
  - intros key' r [[= <- <-]|[[=]|[]]]. done.
  - intros key' r [[= <- <-]|[[=]|[]]]. done.
  - intros key' r [[= <- <-]|[]]. done.
Qed.

Lemma learning_request_shape_witness :
  Groq.groq_api_key GroqSamples.configured = Some GroqSamples.key.
Proof.
  destruct (learning_request_shape GroqSamples.echo tt [104; 105]%N GroqSamples.configured)
    as (evs & Hs & _ & Hreq).
  refine (proj1 (Hreq GroqSamples.key
            (Groq.Request [Groq.Message Groq.System Groq.learning_prompt;
                           Groq.Message Groq.User [104; 105]%N]
               "llama-3.1-8b-instant" 512 tt) _)).
  assert (evs = [Groq.Ev_create GroqSamples.key
            (Groq.Request [Groq.Message Groq.System Groq.learning_prompt;
                           Groq.Message Groq.User [104; 105]%N]
               "llama-3.1-8b-instant" 512 tt)]) as ->.
  { cbn in Hs. injection Hs as Hs. exact (eq_sym Hs). }
  by left.
Defined.

(** * Properties of [db.py] *)

Ltac run_db :=
  unfold Db.create_user, Db.authenticate_user, Db.save_conversation, Db.get_user_history,
    Db.get_username, Db.init_db, Db.insert_user, Db.select_user_by_name, Db.hash_password,
    Db.verify_password, Db.encode, Db.new_rowid, Db.prepare, Db.commit, Db.bind_int,
    Db.bind_text, Eff.catch, Eff.get, Eff.put, Eff.throw,
    mbind, Eff_bind, Eff.bind, mret, Eff_ret, Eff.ret.

Lemma largest_rowid_seq seq ids : seq <= Db.largest_rowid seq ids.
Proof. unfold Db.largest_rowid. induction ids; cbn [fold_right]; lia. Qed.

Lemma largest_rowid_ge seq ids i : i ∈ ids → i <= Db.largest_rowid seq ids.
Proof.
  induction ids as [|j ids IH]; [by intros ?%elem_of_nil|].
  unfold Db.largest_rowid in *.
  intros [->|H]%elem_of_cons; cbn [fold_right]; [lia|]. specialize (IH H). lia.
Qed.

Lemma largest_rowid_bound seq ids b :
  seq <= b → Forall (λ i, i <= b) ids → Db.largest_rowid seq ids <= b.
Proof. unfold Db.largest_rowid. intros Hs. induction 1; cbn [fold_right]; lia. Qed.

Lemma find_snoc {A} (f : A → bool) l a :
  Forall (λ x, f x = false) l →
  find f (l ++ [a]) = if f a then Some a else None.
Proof. induction 1 as [|x l Hx _ IH]; cbn; [done|]. by rewrite Hx. Qed.

Lemma find_key {A B} `{EqDecision B} (key : A → B) l a :
  NoDup (key <$> l) → a ∈ l →
  find (λ r, bool_decide (key r = key a)) l = Some a.
Proof.
  induction l as [|x l IH]; [by intros _ ?%elem_of_nil|].
  cbn. intros [Hx Hl]%NoDup_cons [->|Ha]%elem_of_cons.
  - by rewrite bool_decide_eq_true_2.
  - rewrite bool_decide_eq_false_2; [by apply IH|].
    intros E. apply Hx. rewrite E. by apply list_elem_of_fmap_2.
Qed.

Lemma find_some_elem {A} (f : A → bool) l a : find f l = Some a → a ∈ l ∧ f a = true.
Proof.
  induction l as [|x l IH]; [discriminate|]. cbn.
  destruct (f x) eqn:E.
  - intros [= <-]. split; [left|done].
  - intros [H1 H2]%IH. split; [by right|done].
Qed.

Section DbFacts.

Variable gensalt : nat → bytes.
Variable hashpw : bytes → bytes → option bytes.
Variable checkpw : bytes → bytes → option bool.
Variable order_by_created_at_desc : list Db.history_row → list Db.history_row.

(** [create_user] in one equation. *)
Lemma create_user_run username password s :
  Db.create_user gensalt hashpw username password s =
  let s1 := Db.State (Db.app_db s) (Db.clock s) (S (Db.salts_drawn s)) in
  match Utf8.encode password with
  | None => (Eff.Err Db.UnicodeEncodeError, s1)
  | Some pw =>
      match hashpw pw (gensalt (Db.salts_drawn s)) with
      | None => (Eff.Err Db.ValueError, s1)
      | Some hashed =>
          match Db.app_db s with
          | None => (Eff.Err Db.OperationalError, s1)
          | Some t =>
              match Utf8.encode username with
              | None => (Eff.Err Db.UnicodeEncodeError, s1)
              | Some _ =>
                  let largest := Db.largest_rowid (Db.users_seq t) (Db.u_id <$> Db.users t) in
                  if Db.max_rowid <=? largest then (Eff.Err Db.OperationalError, s1)
                  else if bool_decide (username ∈ Db.u_username <$> Db.users t)
                  then (Eff.Ok None, s1)
                  else
                    (Eff.Ok (Some (largest + 1)),
                     Db.State
                       (Some (Db.Tables
                                (Db.users t ++
                                 [Db.UserRow (largest + 1) username hashed (Db.clock s)])
                                (largest + 1) (Db.history t) (Db.history_seq t)))
                       (Db.clock s) (S (Db.salts_drawn s)))
              end
          end
      end
  end.
Proof.
  run_db. cbn.
  destruct (Utf8.encode password) as [pw|]; cbn; [|done].
  destruct (hashpw pw _) as [hashed|]; cbn; [|done].
  destruct (Db.app_db s) as [t|]; cbn; [|done].
  destruct (Utf8.encode username); cbn; [|done].
  destruct (Db.max_rowid <=? _); cbn; [done|].
  by destruct (bool_decide _).
Qed.

(** [authenticate_user] in one equation. *)
Lemma authenticate_user_run username password s :
  Db.authenticate_user checkpw username password s =
  match Db.app_db s with
  | None => (Eff.Err Db.OperationalError, s)
  | Some t =>
      match Utf8.encode username with
      | None => (Eff.Err Db.UnicodeEncodeError, s)
      | Some _ =>
          match find (λ r, bool_decide (Db.u_username r = username)) (Db.users t) with
          | None => (Eff.Ok None, s)
          | Some row =>
              match Utf8.encode password with
              | None => (Eff.Err Db.UnicodeEncodeError, s)
              | Some pw =>
                  match checkpw pw (Db.u_password_hash row) with
                  | None => (Eff.Err Db.ValueError, s)
                  | Some true => (Eff.Ok (Some (Db.u_id row)), s)
                  | Some false => (Eff.Ok None, s)
                  end
              end
          end
      end
  end.
Proof.
  run_db. cbn.
  destruct (Db.app_db s) as [t|]; cbn; [|done].
  destruct (Utf8.encode username); cbn; [|done].
  destruct (find _ _) as [row|]; cbn; [|done].
  destruct (Utf8.encode password) as [pw|]; cbn; [|done].
  by destruct (checkpw pw _) as [[]|].
Qed.

Lemma get_username_run user_id s :
  Db.get_username user_id s =
  match Db.app_db s with
  | None => (Eff.Err Db.OperationalError, s)
  | Some t =>
      if Db.int64 user_id
      then (Eff.Ok (Db.u_username <$>
                    find (λ r, bool_decide (Db.u_id r = user_id)) (Db.users t)), s)
      else (Eff.Err Db.OverflowError, s)
  end.
Proof.
  run_db. cbn.
  destruct (Db.app_db s) as [t|]; cbn; [|done].
  by destruct (Db.int64 user_id).
Qed.

Lemma save_conversation_run user_id q r s :
  Db.save_conversation user_id q r s =
  match Db.app_db s with
  | None => (Eff.Err Db.OperationalError, s)
  | Some t =>
      if Db.int64 user_id then
        match Utf8.encode q, Utf8.encode r with
        | Some _, Some _ =>
            let largest := Db.largest_rowid (Db.history_seq t) (Db.h_id <$> Db.history t) in
            if Db.max_rowid <=? largest then (Eff.Err Db.OperationalError, s)
            else
              (Eff.Ok tt,
               Db.State
                 (Some (Db.Tables (Db.users t) (Db.users_seq t)
                          (Db.history t ++
                           [Db.HistoryRow (largest + 1) user_id q r (Db.clock s)])
                          (largest + 1)))
                 (Db.clock s) (Db.salts_drawn s))
        | _, _ => (Eff.Err Db.UnicodeEncodeError, s)
        end
      else (Eff.Err Db.OverflowError, s)
  end.
Proof.
  run_db. cbn.
  destruct (Db.app_db s) as [t|]; cbn; [|done].
  destruct (Db.int64 user_id); cbn; [|done].
  destruct (Utf8.encode q); cbn; [|done].
  destruct (Utf8.encode r); cbn; [|done].
  by destruct (Db.max_rowid <=? _).
Qed.

Lemma get_user_history_run user_id limit s :
  Db.get_user_history order_by_created_at_desc user_id limit s =
  match Db.app_db s with
  | None => (Eff.Err Db.OperationalError, s)
  | Some t =>
      if Db.int64 user_id && Db.int64 limit
      then (Eff.Ok (Db.entry_of <$>
                      (Db.select_history order_by_created_at_desc user_id limit t)), s)
      else (Eff.Err Db.OverflowError, s)
  end.
Proof.
  run_db. cbn.
  destruct (Db.app_db s) as [t|]; cbn; [|done].
  destruct (Db.int64 user_id); cbn; [|done].
  by destruct (Db.int64 limit).
Qed.

Lemma consistent_seq t : Db.consistent t → 0 <= Db.largest_rowid (Db.users_seq t) (Db.u_id <$> Db.users t).
Proof.
  intros (_ & _ & _ & _ & _ & H & _).
  pose proof (largest_rowid_seq (Db.users_seq t) (Db.u_id <$> Db.users t)). lia.
Qed.

Lemma fresh_rowid_unused {A} (key : A → Z) seq (l : list A) :
  Forall (λ x, bool_decide (key x = Db.largest_rowid seq (key <$> l) + 1) = false) l.
Proof.
  apply Forall_forall. intros x Hx. apply bool_decide_eq_false_2.
  pose proof (largest_rowid_ge seq (key <$> l) (key x) (list_elem_of_fmap_2 _ _ _ Hx)). lia.
Qed.

Lemma int64_rowid n : 0 <= n → (Db.max_rowid <=? n) = false → Db.int64 (n + 1) = true.
Proof.
  unfold Db.int64, Db.max_rowid. intros H0 H1%Z.leb_gt.
  apply andb_true_iff. split; [apply Z.leb_le|apply Z.leb_le]; lia.
Qed.

(** X22. An account that was just created can be logged into: if
    [bcrypt] accepts the hashes it makes with the salts it draws, then after [create_user] has
    returned an id, [authenticate_user] with the same name and password
    returns that id and [get_username] gives the name back, in any later
    state of the same tables; the id is positive, so the application's
    test [if user_id] holds. *)
Theorem register_then_login username password s id s' s'' :
  (∀ pw n hashed, hashpw pw (gensalt n) = Some hashed → checkpw pw hashed = Some true) →
  Db.consistent_state s →
  Db.create_user gensalt hashpw username password s = (Eff.Ok (Some id), s') →
  Db.app_db s'' = Db.app_db s' →
  0 < id ∧
  Db.authenticate_user checkpw username password s'' = (Eff.Ok (Some id), s'') ∧
  Db.get_username id s'' = (Eff.Ok (Some username), s'').
Proof.
  intros Hbcrypt Hs. rewrite create_user_run. cbv zeta.
  destruct (Utf8.encode password) as [pw|] eqn:Hpw; [|discriminate].
  destruct (hashpw pw _) as [hashed|] eqn:Hh; [|discriminate].
  unfold Db.consistent_state in Hs.
  destruct (Db.app_db s) as [t|]; [|discriminate].
  destruct (Utf8.encode username) eqn:Hu; [|discriminate].
  destruct (Db.max_rowid <=? _) eqn:Hfull; [discriminate|].
  destruct (bool_decide _) eqn:Hdup; [discriminate|].
  intros [= <- <-] Hdb. cbn [Db.app_db] in Hdb.
  pose proof (consistent_seq t Hs) as H0.
  split; [lia|].
  rewrite authenticate_user_run, get_username_run, Hdb, Hu. cbn [Db.users].
  rewrite (int64_rowid _ H0 Hfull).
  rewrite !find_snoc; cbn [Db.u_username Db.u_id Db.u_password_hash].
  - rewrite !bool_decide_eq_true_2 by done. cbn [Db.u_password_hash Db.u_id Db.u_username].
    rewrite Hpw. cbn [Db.u_password_hash Db.u_id Db.u_username].
    rewrite (Hbcrypt _ _ _ Hh). done.
  - apply fresh_rowid_unused.
  - apply Forall_forall. intros x Hx. apply bool_decide_eq_false_2. intros E.
    apply bool_decide_eq_false in Hdup. apply Hdup. rewrite <- E.
    by apply list_elem_of_fmap_2.
Qed.

(** X23. [create_user] never touches an existing account: for a name
    that is taken it returns no id, whatever the password, and the tables
    stay as they are, so that the password of the account is not
    replaced. *)
Theorem existing_account_is_kept username password s t :
  Db.app_db s = Some t →
  username ∈ Db.u_username <$> Db.users t →
  Db.app_db (Db.create_user gensalt hashpw username password s).2 = Some t ∧
  ∀ id, (Db.create_user gensalt hashpw username password s).1 ≠ Eff.Ok (Some id).
Proof.
  intros Ht Hin. rewrite create_user_run, Ht. cbv zeta.
  rewrite (bool_decide_eq_true_2 _ Hin).
  destruct (Utf8.encode password) as [pw|]; [|by split].
  destruct (hashpw pw _); [|by split].
  destruct (Utf8.encode username); [|by split].
  by destruct (Db.max_rowid <=? _).
Qed.

Lemma consistent_insert_user t username hashed now :
  Db.consistent t →
  username ∉ Db.u_username <$> Db.users t →
  (Db.max_rowid <=? Db.largest_rowid (Db.users_seq t) (Db.u_id <$> Db.users t)) = false →
  let id := Db.largest_rowid (Db.users_seq t) (Db.u_id <$> Db.users t) + 1 in
  Db.consistent
    (Db.Tables (Db.users t ++ [Db.UserRow id username hashed now]) id
       (Db.history t) (Db.history_seq t)).
Proof.
  intros (Hn & Hi & Hb & Hhn & Hhb & Hs & Hhs) Hfresh Hfull%Z.leb_gt id.
  pose proof (largest_rowid_seq (Db.users_seq t) (Db.u_id <$> Db.users t)) as Hseq.
  unfold Db.consistent. cbn [Db.users Db.users_seq Db.history Db.history_seq].
  rewrite !fmap_app. cbn [fmap list_fmap Db.u_username Db.u_id].
  split_and!; try done; try (subst id; lia).
  - apply NoDup_app. split_and!; [done| |apply NoDup_singleton].
    intros x Hx ->%list_elem_of_singleton. done.
  - apply NoDup_app. split_and!; [done| |apply NoDup_singleton].
    intros x Hx ->%list_elem_of_singleton.
    pose proof (largest_rowid_ge (Db.users_seq t) _ _ Hx). subst id. lia.
  - apply Forall_app. split.
    + apply Forall_forall. intros r Hr.
      pose proof (proj1 (Forall_forall _ _) Hb r Hr).
      pose proof (largest_rowid_ge (Db.users_seq t) _ _ (list_elem_of_fmap_2 Db.u_id _ _ Hr)).
      cbv beta in *. subst id. lia.
    + apply Forall_singleton. cbn. subst id. lia.
Qed.

Lemma consistent_insert_history t uid q r now :
  Db.consistent t →
  (Db.max_rowid <=? Db.largest_rowid (Db.history_seq t) (Db.h_id <$> Db.history t)) = false →
  let id := Db.largest_rowid (Db.history_seq t) (Db.h_id <$> Db.history t) + 1 in
  Db.consistent
    (Db.Tables (Db.users t) (Db.users_seq t)
       (Db.history t ++ [Db.HistoryRow id uid q r now]) id).
Proof.
  intros (Hn & Hi & Hb & Hhn & Hhb & Hs & Hhs) Hfull%Z.leb_gt id.
  pose proof (largest_rowid_seq (Db.history_seq t) (Db.h_id <$> Db.history t)) as Hseq.
  unfold Db.consistent. cbn [Db.users Db.users_seq Db.history Db.history_seq].
  rewrite !fmap_app. cbn [fmap list_fmap Db.h_id].
  split_and!; try done; try (subst id; lia).
  - apply NoDup_app. split_and!; [done| |apply NoDup_singleton].
    intros x Hx ->%list_elem_of_singleton.
    pose proof (largest_rowid_ge (Db.history_seq t) _ _ Hx). subst id. lia.
  - apply Forall_app. split.
    + apply Forall_forall. intros row Hr.
      pose proof (proj1 (Forall_forall _ _) Hhb row Hr).
      pose proof (largest_rowid_ge (Db.history_seq t) _ _ (list_elem_of_fmap_2 Db.h_id _ _ Hr)).
      cbv beta in *. subst id. lia.
    + apply Forall_singleton. cbn. subst id. lia.
Qed.

(** X24. The keys of the schema hold in every state the module can reach:
    [init_db] makes the tables without touching existing ones, and from
    tables in which user names, user ids and conversation ids are keys,
    all ids positive and none beyond its sequence, [create_user] and
    [save_conversation] lead to such tables again, however they end; the
    three reading functions leave the state as it is. *)
Theorem consistency_is_kept s :
  Db.consistent_state s →
  Db.consistent_state (Db.init_db s).2 ∧
  Db.app_db (Db.init_db s).2 = Some (default Db.empty (Db.app_db s)) ∧
  (∀ username password,
     Db.consistent_state (Db.create_user gensalt hashpw username password s).2) ∧
  (∀ user_id q r, Db.consistent_state (Db.save_conversation user_id q r s).2) ∧
  (∀ username password, (Db.authenticate_user checkpw username password s).2 = s) ∧
  (∀ user_id limit, (Db.get_user_history order_by_created_at_desc user_id limit s).2 = s) ∧
  (∀ user_id, (Db.get_username user_id s).2 = s).
Proof.
  intros Hs. unfold Db.consistent_state in *. split_and!.
  - run_db. destruct (Db.app_db s) as [t|] eqn:Ht; cbn; [by rewrite Ht|].
    unfold Db.consistent, Db.empty, Db.max_rowid. cbn.
    split_and!; try apply NoDup_nil_2; try apply Forall_nil_2; lia.
  - run_db. by destruct (Db.app_db s) as [t|] eqn:Ht; cbn; [rewrite Ht|].
  - intros username password. rewrite create_user_run. cbv zeta.
    destruct (Utf8.encode password) as [pw|]; [|done].
    destruct (hashpw pw _); [|done].
    destruct (Db.app_db s) as [t|]; [|done].
    destruct (Utf8.encode username); [|done].
    destruct (Db.max_rowid <=? _) eqn:Hfull; [done|].
    destruct (bool_decide _) eqn:Hdup; [done|]. cbn [snd Db.app_db].
    apply consistent_insert_user; [done| |done]. by apply bool_decide_eq_false in Hdup.
  - intros user_id q r. rewrite save_conversation_run.
    destruct (Db.app_db s) as [t|] eqn:Ht; [|by cbn; rewrite Ht].
    destruct (Db.int64 user_id); [|by cbn; rewrite Ht].
    destruct (Utf8.encode q); [|by cbn; rewrite Ht].
    destruct (Utf8.encode r); [|by cbn; rewrite Ht].
    cbv zeta. destruct (Db.max_rowid <=? _) eqn:Hfull; [by cbn; rewrite Ht|].
    cbn [snd Db.app_db]. by apply consistent_insert_history.
  - intros username password. rewrite authenticate_user_run.
    destruct (Db.app_db s); [|done]. destruct (Utf8.encode username); [|done].
    destruct (find _ _); [|done]. destruct (Utf8.encode password) as [pw|]; [|done].
    by destruct (checkpw pw _) as [[]|].
  - intros user_id limit. rewrite get_user_history_run.
    destruct (Db.app_db s); [|done]. by destruct (_ && _).
  - intros user_id. rewrite get_username_run.
    destruct (Db.app_db s); [|done]. by destruct (Db.int64 _).
Qed.

(** X25. A login that succeeds is the login of an account: the id
    returned is positive and belongs to a row of [users] with this name,
    for which [get_username] gives the name back, and [bcrypt] accepted the
    password against the hash of that row. Nothing is written. *)
Theorem login_is_sound username password s id s' :
  Db.consistent_state s →
  Db.authenticate_user checkpw username password s = (Eff.Ok (Some id), s') →
  s' = s ∧ 0 < id ∧
  Db.get_username id s = (Eff.Ok (Some username), s) ∧
  ∃ t row pw,
    Db.app_db s = Some t ∧ row ∈ Db.users t ∧
    Db.u_id row = id ∧ Db.u_username row = username ∧
    Utf8.encode password = Some pw ∧ checkpw pw (Db.u_password_hash row) = Some true.
Proof.
  unfold Db.consistent_state. rewrite authenticate_user_run, get_username_run.
  destruct (Db.app_db s) as [t|]; [|discriminate].
  intros (Hn & Hi & Hb & _ & _ & Hs & _).
  destruct (Utf8.encode username); [|discriminate].
  destruct (find _ _) as [row|] eqn:Hfind; [|discriminate].
  destruct (Utf8.encode password) as [pw|]; [|discriminate].
  destruct (checkpw pw _) as [[]|] eqn:Hc; try discriminate.
  intros [= <- <-].
  destruct (find_some_elem _ _ _ Hfind) as [Hrow Hname%bool_decide_eq_true].
  pose proof (proj1 (Forall_forall _ _) Hb row Hrow) as Hid. cbv beta in Hid.
  split; [done|]. split; [lia|]. split.
  - assert (Db.int64 (Db.u_id row) = true) as ->.
    { unfold Db.int64. apply andb_true_iff. split; apply Z.leb_le; lia. }
    by rewrite (find_key Db.u_id _ row Hi Hrow), <- Hname.
  - by exists t, row, pw.
Qed.

(** X26. The histories of two users are separate: saving a conversation
    for one user changes nothing in what [get_user_history] returns for
    another, whatever the limit. *)
Theorem histories_are_separate user_id other q r limit s :
  user_id ≠ other →
  (Db.get_user_history order_by_created_at_desc other limit
     (Db.save_conversation user_id q r s).2).1 =
  (Db.get_user_history order_by_created_at_desc other limit s).1.
Proof.
  intros Hne. rewrite save_conversation_run.
  destruct (Db.app_db s) as [t|] eqn:Ht; [|done].
  destruct (Db.int64 user_id); [|done].
  destruct (Utf8.encode q); [|done].
  destruct (Utf8.encode r); [|done].
  cbv zeta. destruct (Db.max_rowid <=? _); [done|].
  cbn [snd]. rewrite !get_user_history_run, Ht. cbn [Db.app_db].
  destruct (_ && _); [|done]. cbn [fst]. do 2 f_equal.
  unfold Db.select_history. cbn [Db.history]. rewrite filter_app.
  rewrite (filter_cons _ _ []), filter_nil. cbn [Db.h_user_id].
  rewrite decide_False by done. by rewrite app_nil_r.
Qed.

(** After a row newer than all the user has was appended, the selection
    for this user starts with it. *)
Lemma select_history_latest us useq rows hseq id user_id q r now limit :
  (∀ l, order_by_created_at_desc l ≡ₚ l) →
  (∀ l, Sorted Db.newer_first (order_by_created_at_desc l)) →
  (∀ row, row ∈ rows → Db.h_user_id row = user_id → (Db.h_created_at row < now)%N) →
  limit ≠ 0 →
  ∃ rest,
    Db.select_history order_by_created_at_desc user_id limit
      (Db.Tables us useq (rows ++ [Db.HistoryRow id user_id q r now]) hseq) =
    Db.HistoryRow id user_id q r now :: rest.
Proof.
  intros Hperm Hsorted Hold Hl0.
  unfold Db.select_history. cbn [Db.history]. rewrite filter_app.
  rewrite (filter_cons _ _ []), filter_nil. cbn [Db.h_user_id].
  rewrite decide_True by done.
  set (new := Db.HistoryRow id user_id q r now).
  set (old := filter (λ row, Db.h_user_id row = user_id) rows).
  pose proof (Hperm (old ++ [new])) as Hp.
  pose proof (Hsorted (old ++ [new])) as Hsrt.
  assert (Transitive Db.newer_first) as Htrans.
  { intros x y z. unfold Db.newer_first. lia. }
  apply (Sorted_StronglySorted _) in Hsrt.
  destruct (order_by_created_at_desc (old ++ [new])) as [|first rest] eqn:Ho.
  { apply Permutation_nil_l in Hp. by destruct old. }
  apply StronglySorted_inv in Hsrt as [_ Hall].
  assert (first = new) as ->.
  { assert (first ∈ old ++ [new]) as Hf by (rewrite <- Hp; left).
    assert (new ∈ first :: rest) as Hn by (rewrite Hp; apply elem_of_app; right; left).
    apply elem_of_app in Hf as [Hf|Hf%list_elem_of_singleton]; [|done].
    apply list_elem_of_filter in Hf as [Hfu Hf]. specialize (Hold _ Hf Hfu).
    apply elem_of_cons in Hn as [Hn|Hn]; [done|].
    pose proof (proj1 (Forall_forall _ _) Hall _ Hn) as Hle.
    unfold Db.newer_first in Hle. cbn in Hle. lia. }
  unfold Db.sql_limit. destruct (limit <? 0) eqn:Hneg.
  - eauto.
  - apply Z.ltb_ge in Hneg. destruct (Z.to_nat limit) as [|n] eqn:Hn; [lia|].
    cbn. eauto.
Qed.

(** X27. The most recent conversation comes first: if the clock shows a
    later second than every conversation the user has, then after
    [save_conversation] the first element [get_user_history] returns for
    this user, with any limit but 0, is the conversation just saved. *)
Theorem latest_conversation_first user_id q r limit s s' s'' t :
  (∀ l, order_by_created_at_desc l ≡ₚ l) →
  (∀ l, Sorted Db.newer_first (order_by_created_at_desc l)) →
  Db.app_db s = Some t →
  (∀ row, row ∈ Db.history t → Db.h_user_id row = user_id →
          (Db.h_created_at row < Db.clock s)%N) →
  Db.save_conversation user_id q r s = (Eff.Ok tt, s') →
  Db.app_db s'' = Db.app_db s' →
  limit ≠ 0 →
  Db.int64 limit = true →
  ∃ id rest,
    Db.get_user_history order_by_created_at_desc user_id limit s'' =
    (Eff.Ok (Db.Entry id q r (Db.clock s) :: rest), s'').
Proof.
  intros Hperm Hsorted Ht Hold. rewrite save_conversation_run, Ht.
  destruct (Db.int64 user_id) eqn:Hu; [|discriminate].
  destruct (Utf8.encode q); [|discriminate].
  destruct (Utf8.encode r); [|discriminate].
  cbv zeta. destruct (Db.max_rowid <=? _); [discriminate|].
  intros [= <-] Hdb Hl0 Hl. cbn [Db.app_db] in Hdb.
  rewrite get_user_history_run, Hdb, Hu, Hl. cbn [andb].
  edestruct select_history_latest as [rest ->]; [exact Hperm|exact Hsorted|exact Hold|exact Hl0|].
  cbn. eauto.
Qed.

(** X28. [get_user_history] returns conversations of this user only, each
    once, and no more than the limit: as many as the user has if the limit
    is negative, the smaller of the two numbers otherwise. *)
Theorem history_is_own_and_bounded user_id limit s entries s' :
  (∀ l, order_by_created_at_desc l ≡ₚ l) →
  Db.consistent_state s →
  Db.get_user_history order_by_created_at_desc user_id limit s = (Eff.Ok entries, s') →
  ∃ t,
    Db.app_db s = Some t ∧
    (∀ e, e ∈ entries →
       ∃ row, row ∈ Db.history t ∧ Db.h_user_id row = user_id ∧ e = Db.entry_of row) ∧
    NoDup (Db.e_id <$> entries) ∧
    length entries =
    (let own := length (filter (λ row, Db.h_user_id row = user_id) (Db.history t)) in
     if limit <? 0 then own else Nat.min (Z.to_nat limit) own).
Proof.
  intros Hperm Hs. unfold Db.consistent_state in Hs. rewrite get_user_history_run.
  destruct (Db.app_db s) as [t|]; [|discriminate].
  destruct (_ && _); [|discriminate].
  intros [= <- <-]. exists t. split; [done|].
  destruct Hs as (_ & _ & _ & Hhn & _).
  unfold Db.select_history.
  set (own := filter (λ row, Db.h_user_id row = user_id) (Db.history t)).
  assert (∀ row, row ∈ Db.sql_limit limit (order_by_created_at_desc own) →
                 row ∈ order_by_created_at_desc own) as Hsub.
  { unfold Db.sql_limit. destruct (limit <? 0); [done|].
    intros row (i & Hi & _)%elem_of_take. by eapply list_elem_of_lookup_2. }
  split_and!.
  - intros e (row & -> & Hrow%Hsub)%list_elem_of_fmap_1.
    rewrite Hperm in Hrow. apply list_elem_of_filter in Hrow as [Hu Hrow]. eauto.
  - rewrite <- list_fmap_compose.
    assert (NoDup (Db.h_id <$> order_by_created_at_desc own)) as Hnd.
    { rewrite Hperm. unfold own. clear -Hhn.
      induction (Db.history t) as [|x l IH]; [apply NoDup_nil_2|].
      cbn in Hhn. apply NoDup_cons in Hhn as [Hx Hl]. rewrite filter_cons.
      destruct (decide _); [|by apply IH]. cbn. apply NoDup_cons. split; [|by apply IH].
      intros (y & Hy & [_ Hin]%list_elem_of_filter)%list_elem_of_fmap_1.
      apply Hx. rewrite Hy. by apply list_elem_of_fmap_2. }
    unfold Db.sql_limit. destruct (limit <? 0); [done|].
    rewrite fmap_take. eapply sublist_NoDup; [exact Hnd|apply sublist_take].
  - rewrite length_fmap. unfold Db.sql_limit. cbv zeta.
    destruct (limit <? 0); [by rewrite Hperm|].
    by rewrite length_take, Hperm.
Qed.

End DbFacts.

(** ** The examples *)

Lemma sample_bcrypt pw n hashed :
  DbSamples.hashpw pw (DbSamples.gensalt n) = Some hashed →
  DbSamples.checkpw pw hashed = Some true.
Proof. intros [= <-]. unfold DbSamples.checkpw. cbn. by rewrite bool_decide_eq_true_2. Qed.

Lemma sample_consistent : Db.consistent_state DbSamples.in_use.
Proof.
  unfold Db.consistent_state, Db.consistent, Db.max_rowid. cbn.
  split_and!; try lia; try apply NoDup_singleton; apply Forall_singleton; cbn; lia.
Qed.

Lemma newer_first_total : Total Db.newer_first.
Proof. intros x y. unfold Db.newer_first. lia. Qed.

Lemma sample_order_permutation l : DbSamples.order_by_created_at_desc l ≡ₚ l.
Proof. apply merge_sort_Permutation. Qed.

Lemma sample_order_sorted l : Sorted Db.newer_first (DbSamples.order_by_created_at_desc l).
Proof. apply (@Sorted_merge_sort _ _ _ newer_first_total). Qed.

Lemma register_then_login_witness :
  Db.authenticate_user DbSamples.checkpw DbSamples.bob DbSamples.secret
    (Db.create_user DbSamples.gensalt DbSamples.hashpw DbSamples.bob DbSamples.secret
       DbSamples.in_use).2 =
  (Eff.Ok (Some 2),
   (Db.create_user DbSamples.gensalt DbSamples.hashpw DbSamples.bob DbSamples.secret
      DbSamples.in_use).2).
Proof.
  refine (proj1 (proj2
    (register_then_login DbSamples.gensalt DbSamples.hashpw DbSamples.checkpw
       DbSamples.bob DbSamples.secret DbSamples.in_use 2 _ _
       sample_bcrypt sample_consistent _ eq_refl))).
  vm_compute. reflexivity.
Defined.

Lemma existing_account_is_kept_witness :
  Db.app_db (Db.create_user DbSamples.gensalt DbSamples.hashpw DbSamples.ann DbSamples.why
               DbSamples.in_use).2 = Db.app_db DbSamples.in_use.
Proof.
  refine (proj1 (existing_account_is_kept DbSamples.gensalt DbSamples.hashpw
                   DbSamples.ann DbSamples.why DbSamples.in_use _ eq_refl _)).
  cbn. left.
Defined.

Lemma consistency_is_kept_witness :
  Db.consistent_state
    (Db.save_conversation 1 DbSamples.why DbSamples.because DbSamples.in_use).2.
Proof.
  exact (proj1 (proj2 (proj2 (proj2
    (consistency_is_kept DbSamples.gensalt DbSamples.hashpw DbSamples.checkpw
       DbSamples.order_by_created_at_desc DbSamples.in_use sample_consistent))))
    1 DbSamples.why DbSamples.because).
Defined.

Lemma login_is_sound_witness :
  Db.get_username 1 DbSamples.in_use = (Eff.Ok (Some DbSamples.ann), DbSamples.in_use).
Proof.
  refine (proj1 (proj2 (proj2
    (login_is_sound DbSamples.checkpw DbSamples.ann DbSamples.secret DbSamples.in_use 1
       DbSamples.in_use sample_consistent _)))).
  vm_compute. reflexivity.
Defined.

Lemma histories_are_separate_witness :
  (Db.get_user_history DbSamples.order_by_created_at_desc 1 10
     (Db.save_conversation 2 DbSamples.why DbSamples.because DbSamples.in_use).2).1 =
  (Db.get_user_history DbSamples.order_by_created_at_desc 1 10 DbSamples.in_use).1.
Proof.
  apply (histories_are_separate DbSamples.order_by_created_at_desc 2 1). lia.
Defined.

Lemma latest_conversation_first_witness :
  ∃ id rest,
    Db.get_user_history DbSamples.order_by_created_at_desc 1 1
      (Db.save_conversation 1 DbSamples.because DbSamples.why DbSamples.in_use).2 =
    (Eff.Ok (Db.Entry id DbSamples.because DbSamples.why 160 :: rest),
     (Db.save_conversation 1 DbSamples.because DbSamples.why DbSamples.in_use).2).
Proof.
  refine (latest_conversation_first DbSamples.order_by_created_at_desc 1
            DbSamples.because DbSamples.why 1 DbSamples.in_use _ _ _
            sample_order_permutation sample_order_sorted eq_refl _ _ eq_refl _ _).
  - intros row ->%list_elem_of_singleton _. reflexivity.
  - vm_compute. reflexivity.
  - lia.
  - reflexivity.
Defined.

Lemma history_is_own_and_bounded_witness :
  ∃ t, Db.app_db DbSamples.in_use = Some t ∧
       NoDup (Db.e_id <$> [Db.Entry 1 DbSamples.why DbSamples.because 130]).
Proof.
  destruct (history_is_own_and_bounded DbSamples.order_by_created_at_desc 1 10
              DbSamples.in_use
              [Db.Entry 1 DbSamples.why DbSamples.because 130] DbSamples.in_use
              sample_order_permutation sample_consistent)
    as (t & Ht & _ & Hnd & _).
  - vm_compute. reflexivity.
  - exists t. split; [exact Ht|exact Hnd].
Defined.

(** * Properties of [app.py] *)

Section AppFacts.

Variable order_by_created_at_desc : list Db.history_row → list Db.history_row.

(** [_load_user_last_conversation_into_session] in one equation. *)
Lemma load_last_conversation_run user_id s :
  App._load_user_last_conversation_into_session order_by_created_at_desc user_id s =
  match user_id with
  | Some n =>
      if n =? 0 then (Eff.Ok tt, s)
      else
        match Db.app_db (App.db s) with
        | Some t =>
            if Db.int64 n then
              match Db.select_history order_by_created_at_desc n 1 t with
              | row :: _ =>
                  (Eff.Ok tt,
                   App.State (App.db s)
                     (App.Session (App.authenticated (App.st_session s))
                        (App.user_id (App.st_session s)) (App.username (App.st_session s))
                        (Some (Db.h_user_query row)) (Some (Db.h_assistant_response row))
                        None)
                     (App.warnings s))
              | [] => (Eff.Ok tt, s)
              end
            else (Eff.Ok tt, App.State (App.db s) (App.st_session s) (S (App.warnings s)))
        | None => (Eff.Ok tt, App.State (App.db s) (App.st_session s) (S (App.warnings s)))
        end
  | None => (Eff.Ok tt, s)
  end.
Proof.
  unfold App._load_user_last_conversation_into_session, App.call_db, App.set_session,
    App.st_warning, Eff.catch.
  destruct user_id as [n|]; cbn [App.truthy_id negb]; [|reflexivity].
  change (default 0 (Some n)) with n.
  destruct (n =? 0); cbn [negb]; [reflexivity|].
  unfold mbind, Eff_bind, Eff.bind, mret, Eff_ret, Eff.ret.
  rewrite get_user_history_run.
  destruct (Db.app_db (App.db s)) as [t|]; [|reflexivity].
  destruct (Db.int64 n); cbn [andb]; [|reflexivity].
  change (Db.int64 1) with true. cbv iota.
  destruct (Db.select_history order_by_created_at_desc n 1 t) as [|row rest];
    cbn; by destruct s.
Qed.

(** X29. Loading the last conversation cannot break the page: the
    function returns normally whatever the database does, writes nothing
    to it, and leaves the login of the session alone. If it changes the
    session at all, the question and the answer it puts there are those of
    one conversation of this very user, and the audio path is cleared. *)
Theorem load_last_conversation_is_safe user_id s :
  (∀ l, order_by_created_at_desc l ≡ₚ l) →
  let out := App._load_user_last_conversation_into_session order_by_created_at_desc
               user_id s in
  out.1 = Eff.Ok tt ∧
  App.db out.2 = App.db s ∧
  App.authenticated (App.st_session out.2) = App.authenticated (App.st_session s) ∧
  App.user_id (App.st_session out.2) = App.user_id (App.st_session s) ∧
  App.username (App.st_session out.2) = App.username (App.st_session s) ∧
  (App.st_session out.2 = App.st_session s ∨
   ∃ n t row,
     user_id = Some n ∧ n ≠ 0 ∧ Db.app_db (App.db s) = Some t ∧
     row ∈ Db.history t ∧ Db.h_user_id row = n ∧
     App.last_transcript (App.st_session out.2) = Some (Db.h_user_query row) ∧
     App.last_response (App.st_session out.2) = Some (Db.h_assistant_response row) ∧
     App.audio_path (App.st_session out.2) = None).
Proof.
  intros Hperm. cbv zeta. rewrite load_last_conversation_run.
  destruct user_id as [n|]; [|by split_and!; auto].
  destruct (n =? 0) eqn:Hn; [by split_and!; auto|]. apply Z.eqb_neq in Hn.
  destruct (Db.app_db (App.db s)) as [t|] eqn:Ht; [|by split_and!; auto].
  destruct (Db.int64 n); [|by split_and!; auto].
  destruct (Db.select_history order_by_created_at_desc n 1 t) as [|row rest] eqn:Hsel;
    [by split_and!; auto|].
  cbn. split_and!; try done. right. exists n, t, row.
  assert (row ∈ filter (λ r, Db.h_user_id r = n) (Db.history t)) as Hrow.
  { rewrite <- (Hperm (filter _ _)).
    unfold Db.select_history, Db.sql_limit in Hsel. cbn in Hsel.
    destruct (order_by_created_at_desc _) as [|first others]; [discriminate|].
    cbn in Hsel. injection Hsel as -> _. left. }
  apply list_elem_of_filter in Hrow as [Hu Hrow]. by split_and!.
Qed.

(** X30. What was just saved is what a reload shows: after
    [save_conversation] for a user, at a second later than all the
    conversations the user had, loading the last conversation into the
    session puts there the question and the answer just saved. *)
Theorem saved_conversation_is_reloaded n q r s d' t :
  (∀ l, order_by_created_at_desc l ≡ₚ l) →
  (∀ l, Sorted Db.newer_first (order_by_created_at_desc l)) →
  n ≠ 0 →
  Db.app_db (App.db s) = Some t →
  (∀ row, row ∈ Db.history t → Db.h_user_id row = n →
          (Db.h_created_at row < Db.clock (App.db s))%N) →
  Db.save_conversation n q r (App.db s) = (Eff.Ok tt, d') →
  App._load_user_last_conversation_into_session order_by_created_at_desc (Some n)
    (App.State d' (App.st_session s) (App.warnings s)) =
  (Eff.Ok tt,
   App.State d'
     (App.Session (App.authenticated (App.st_session s)) (App.user_id (App.st_session s))
        (App.username (App.st_session s)) (Some q) (Some r) None)
     (App.warnings s)).
Proof.
  intros Hperm Hsorted Hn Ht Hold. rewrite save_conversation_run, Ht.
  destruct (Db.int64 n) eqn:Hi; [|discriminate].
  destruct (Utf8.encode q); [|discriminate].
  destruct (Utf8.encode r); [|discriminate].
  cbv zeta. destruct (Db.max_rowid <=? _); [discriminate|].
  intros [= <-]. rewrite load_last_conversation_run.
  apply Z.eqb_neq in Hn. rewrite Hn. cbn [App.db Db.app_db]. rewrite Hi.
  edestruct (select_history_latest order_by_created_at_desc) as [rest ->];
    [exact Hperm|exact Hsorted|exact Hold| |reflexivity].
  done.
Qed.

End AppFacts.

Lemma load_last_conversation_is_safe_witness :
  App.db (App._load_user_last_conversation_into_session DbSamples.order_by_created_at_desc
            (Some 1) AppSamples.logged_in).2 = DbSamples.in_use.
Proof.
  exact (proj1 (proj2 (load_last_conversation_is_safe DbSamples.order_by_created_at_desc
                         (Some 1) AppSamples.logged_in sample_order_permutation))).
Defined.

Lemma saved_conversation_is_reloaded_witness :
  App.last_transcript
    (App.st_session
       (App._load_user_last_conversation_into_session DbSamples.order_by_created_at_desc
          (Some 1)
          (App.State
             (Db.save_conversation 1 DbSamples.because DbSamples.why DbSamples.in_use).2
             (App.st_session AppSamples.logged_in) 0)).2) = Some DbSamples.because.
Proof.
  refine (f_equal (λ x, App.last_transcript (App.st_session x.2))
            (saved_conversation_is_reloaded DbSamples.order_by_created_at_desc 1
               DbSamples.because DbSamples.why AppSamples.logged_in
               (Db.save_conversation 1 DbSamples.because DbSamples.why DbSamples.in_use).2
               (default Db.empty (Db.app_db DbSamples.in_use))
               sample_order_permutation sample_order_sorted _ eq_refl _ _)).
  - lia.
  - intros row ->%list_elem_of_singleton _. reflexivity.
  - vm_compute. reflexivity.
Defined.
